(** * solana-tip-overlay: the tip-detection and fan-out pipeline

    A shallow embedding of the SDK's core:

    - [Crypto]: [verifySignature] (utils/crypto.js);
    - [TransactionParser]: [parseTipTransaction] and [extractMemo]
      (utils/transaction-parser.js);
    - [MemoryAdapter]: the cursor store (adapters/MemoryAdapter.js);
    - [TipIndexer]: [on], [emit], [processTransaction], [checkStreamerTips]
      (core/TipIndexer.js);
    - [WebSocketBroadcaster]: [handleMessage], [shouldBroadcast],
      [broadcastTip] (core/WebSocketBroadcaster.js);
    - [PhantomWalletAdapter]: [arrayToBase58]
      (client/PhantomWalletAdapter.js);
    - [StorageAdapter] and [StreamerRegistry]: the storage interface, its
      in-memory backend and [register] (adapters/, core/StreamerRegistry.js);
    - [SolanaTipSDK]: the constructor and its relay from the indexer to the
      broadcaster (core/SolanaTipSDK.js);
    - [OverlayClient]: the overlay's WebSocket client
      (client/OverlayClient.js);
    - [JSON]: what [JSON.parse] reads from what [JSON.stringify] writes for
      a tip object, between the broadcaster and the overlay.

    JavaScript exceptions are explicit ([outcome]); mutable objects are
    explicit state.  Calls to [console.log], [console.warn] and
    [console.error] are diagnostics and are not modelled.  The JavaScript
    numbers the parser computes with (balances, amounts) are IEEE 754
    doubles, as the standard library specifies them ([SpecFloat], precision
    53, exponent bound 1024); slots, block times and millisecond clock
    readings, which the code compares or carries but does not round, are
    modelled by [Z]. *)

From stdpp Require Import base option list gmap sets strings.
From Stdlib Require Import ZArith NArith Lia Ascii.
From Stdlib Require Import SpecFloat.
From Stdlib.Strings Require Import Byte.

Local Open Scope string_scope.
Local Open Scope list_scope.
Local Open Scope Z_scope.

(** ** JavaScript exceptions and in-place mutation *)

Module Js.

(** The result of running a piece of JavaScript: a value or a thrown error. *)
Inductive outcome (A : Type) : Type :=
| Return (a : A)
| Throw (e : string).
Arguments Return {A} a.
Arguments Throw {A} e.

Definition obind {A B} (c : outcome A) (k : A -> outcome B) : outcome B :=
  match c with
  | Return a => k a
  | Throw e => Throw e
  end.

(** [try { c } catch (e) { h e }] for code without state. *)
Definition otry {A} (c : outcome A) (h : string -> outcome A) : outcome A :=
  match c with
  | Return a => Return a
  | Throw e => h e
  end.

(** Code that mutates a state [S]: mutations made before a throw persist. *)
Definition M (S A : Type) : Type := S -> outcome A * S.

Definition ret {S A} (a : A) : M S A := fun s => (Return a, s).
Definition throw {S A} (e : string) : M S A := fun s => (Throw e, s).
Definition lift {S A} (c : outcome A) : M S A := fun s => (c, s).
Definition get {S} : M S S := fun s => (Return s, s).
Definition modify {S} (f : S -> S) : M S unit := fun s => (Return tt, f s).

Definition bind {S A B} (c : M S A) (k : A -> M S B) : M S B :=
  fun s =>
    match c s with
    | (Return a, s') => k a s'
    | (Throw e, s') => (Throw e, s')
    end.

(** [try { c } catch (e) { h e }]. *)
Definition try_catch {S A} (c : M S A) (h : string -> M S A) : M S A :=
  fun s =>
    match c s with
    | (Return a, s') => (Return a, s')
    | (Throw e, s') => h e s'
    end.

(** [for (const x of l) { body x }] and [l.forEach(body)]: a throw in the
    body leaves the loop. *)
Fixpoint for_of {S A} (l : list A) (body : A -> M S unit) : M S unit :=
  match l with
  | [] => ret tt
  | x :: rest => bind (body x) (fun _ => for_of rest body)
  end.

(** JavaScript truthiness of a string, and [a || b] on optional strings. *)
Definition truthy (s : string) : bool :=
  match s with
  | EmptyString => false
  | String _ _ => true
  end.

Definition truthy_opt (o : option string) : bool :=
  match o with
  | Some s => truthy s
  | None => false
  end.

Definition or_else (a b : option string) : option string :=
  if truthy_opt a then a else b.

(** [x || null] and [x || undefined]: a falsy string becomes absent. *)
Definition or_absent (a : option string) : option string :=
  if truthy_opt a then a else None.

End Js.

Export Js.

Declare Scope js_scope.
Delimit Scope js_scope with js.
Notation "'let!' x ':=' c 'in' k" := (Js.bind c (fun x => k))
  (at level 10, x name, c at level 100, k at level 200) : js_scope.
Notation "'do!' c 'in' k" := (Js.bind c (fun _ => k))
  (at level 10, c at level 100, k at level 200) : js_scope.

(** ** The runtime the SDK runs on

    Functions of the JavaScript runtime and of the Ed25519 primitive that
    the SDK calls and that are not part of the repository.  They are total:
    [TextEncoder.encode] and [Buffer.toString('utf-8')] never throw (invalid
    bytes are replaced), and [crypto_sign_open] is tweetnacl's check once the
    buffer sizes have been validated. *)

Class Runtime : Type := {
  utf8_encode : string -> list byte;
  utf8_toString : list byte -> string;
  crypto_sign_open : list byte -> list byte -> list byte -> bool
}.

(** ** bs58.decode

    The decoder of the [bs58] package as the SDK uses it: a character outside
    the alphabet makes it throw; each leading '1' is a zero byte; the rest is
    the big-endian base-256 writing of the base-58 number. *)

Module Bs58.

Definition ALPHABET : string :=
  "123456789ABCDEFGHJKLMNPQRSTUVWXYZabcdefghijkmnopqrstuvwxyz".

Fixpoint index_from (c : ascii) (l : list ascii) (i : N) : option N :=
  match l with
  | [] => None
  | a :: rest => if Ascii.eqb a c then Some i else index_from c rest (N.succ i)
  end.

Definition digit (c : ascii) : option N :=
  index_from c (String.list_ascii_of_string ALPHABET) 0%N.

Fixpoint digits (s : string) : option (list N) :=
  match s with
  | EmptyString => Some []
  | String c rest =>
      match digit c, digits rest with
      | Some d, Some ds => Some (d :: ds)
      | _, _ => None
      end
  end.

Fixpoint zeroes (ds : list N) : nat :=
  match ds with
  | 0%N :: rest => S (zeroes rest)
  | _ => O
  end.

Definition value (ds : list N) : N :=
  fold_left (fun acc d => (acc * 58 + d)%N) ds 0%N.

Definition byte_of_N (n : N) : byte := byte_of_ascii (ascii_of_N n).

Fixpoint be_bytes (fuel : nat) (n : N) (acc : list byte) : list byte :=
  match fuel with
  | O => acc
  | S fuel' =>
      if (n =? 0)%N then acc
      else be_bytes fuel' (n / 256)%N (byte_of_N (n mod 256)%N :: acc)
  end.

Definition decode (s : string) : outcome (list byte) :=
  match digits s with
  | None => Throw "Non-base58 character"
  | Some ds =>
      Return (repeat x00 (zeroes ds) ++ be_bytes (String.length s) (value ds) [])
  end.

End Bs58.

(** ** utils/crypto.js *)

Module Crypto.

Definition crypto_sign_BYTES : nat := 64.
Definition crypto_sign_PUBLICKEYBYTES : nat := 32.

Section WithRuntime.
Context `{Runtime}.

(** [nacl.sign.detached.verify]: tweetnacl throws on ill-sized buffers
    before it runs the primitive. *)
Definition nacl_sign_detached_verify (msg sig publicKey : list byte) : outcome bool :=
  if negb (Nat.eqb (length sig) crypto_sign_BYTES) then Throw "bad signature size"
  else if negb (Nat.eqb (length publicKey) crypto_sign_PUBLICKEYBYTES)
       then Throw "bad public key size"
  else Return (crypto_sign_open msg sig publicKey).

Definition verifySignature (message signatureBase58 pubkeyBase58 : string) : outcome bool :=
  otry
    (let messageBytes := utf8_encode message in
     obind (Bs58.decode signatureBase58) (fun signatureBytes =>
     obind (Bs58.decode pubkeyBase58) (fun pubkeyBytes =>
     nacl_sign_detached_verify messageBytes signatureBytes pubkeyBytes)))
    (fun _ => Return false).

End WithRuntime.

End Crypto.

(** ** utils/transaction-parser.js *)

Module TransactionParser.

Definition MEMO_PROGRAM_ID : string := "MemoSq4gqABAXKb96qnH8TysNcWxMyWCqXgDLGmfcHr".

(** A JavaScript number: an IEEE 754 double. *)
Definition number : Type := spec_float.

Definition NaN : number := S754_nan.

(** The number an integer literal denotes: the double nearest to it. *)
Definition of_Z (z : Z) : number := binary_normalize 53 1024 z 0 false.

(** [LAMPORTS_PER_SOL] of @solana/web3.js. *)
Definition LAMPORTS_PER_SOL : number := of_Z 1000000000.

(** [post - pre] on array reads: [undefined] (an index outside the balance
    array) converts to [NaN]. *)
Definition minus (post pre : option number) : number :=
  match post, pre with
  | Some b, Some a => SFsub 53 1024 b a
  | _, _ => NaN
  end.

(** [n <= 0]: false on [NaN]. *)
Definition le_zero (n : number) : bool := SFleb n (S754_zero false).

(** [a > b] on array reads: false when either is [undefined]. *)
Definition greater (a b : option number) : bool :=
  match a, b with
  | Some x, Some y => SFltb y x
  | _, _ => false
  end.

(** [balanceChange / LAMPORTS_PER_SOL]. *)
Definition per_sol (n : number) : number := SFdiv 53 1024 n LAMPORTS_PER_SOL.

Record Instruction : Type := {
  programIdIndex : nat;
  data : string
}.

Record Message : Type := {
  accountKeys : list string;
  instructions : list Instruction
}.

Record Meta : Type := {
  preBalances : list number;
  postBalances : list number
}.

(** What [connection.getTransaction] resolves to: [meta] can be null, and
    [transaction] stands for the path [transaction.transaction.message]. *)
Record Transaction : Type := {
  slot : Z;
  blockTime : option Z;
  meta : option Meta;
  transaction : option Message
}.

Record TipInfo : Type := {
  from : string;
  amountLamports : number;
  amountSol : number;
  tip_slot : Z;
  tip_blockTime : option Z
}.

(** [accountKeys.indexOf(target)]: the first position, [None] for -1. *)
Fixpoint indexOf (keys : list string) (target : string) : option nat :=
  match keys with
  | [] => None
  | k :: rest =>
      if String.eqb k target then Some O
      else match indexOf rest target with
           | Some i => Some (S i)
           | None => None
           end
  end.

(** The sender loop, entered at index [i] with [keys] the account keys from
    [i] on: the first account other than the target whose balance went down,
    ['unknown'] when the loop ends without one. *)
Fixpoint findSender (m : Meta) (targetIndex : nat) (i : nat) (keys : list string) : string :=
  match keys with
  | [] => "unknown"
  | k :: rest =>
      if greater (preBalances m !! i) (postBalances m !! i) && negb (Nat.eqb i targetIndex)
      then k
      else findSender m targetIndex (S i) rest
  end.

Definition parseTipTransaction (tx : option Transaction) (targetPubkey : string)
  : outcome (option TipInfo) :=
  match tx with
  | None => Return None
  | Some t =>
      match meta t with
      | None => Return None
      | Some m =>
          match transaction t with
          | None => Throw "TypeError: Cannot read properties of undefined (reading 'message')"
          | Some msg =>
              let keys := accountKeys msg in
              match indexOf keys targetPubkey with
              | None => Return None
              | Some targetIndex =>
                  let preBalance := preBalances m !! targetIndex in
                  let postBalance := postBalances m !! targetIndex in
                  let balanceChange := minus postBalance preBalance in
                  if le_zero balanceChange then Return None
                  else
                    Return (Some {| from := findSender m targetIndex O keys;
                                    amountLamports := balanceChange;
                                    amountSol := per_sol balanceChange;
                                    tip_slot := slot t;
                                    tip_blockTime := blockTime t |})
              end
          end
      end
  end.

Section WithRuntime.
Context `{Runtime}.

(** The body of [for (const ix of instructions)]: reading a program id
    outside the account keys throws (outside the [try]); a memo payload that
    does not decode is caught and the loop goes on. *)
Fixpoint scanInstructions (keys : list string) (ixs : list Instruction)
  : outcome (option string) :=
  match ixs with
  | [] => Return None
  | ix :: rest =>
      match keys !! programIdIndex ix with
      | None => Throw "TypeError: Cannot read properties of undefined (reading 'toString')"
      | Some programId =>
          if String.eqb programId MEMO_PROGRAM_ID && truthy (data ix) then
            match Bs58.decode (data ix) with
            | Return bytes => Return (Some (utf8_toString bytes))
            | Throw _ => scanInstructions keys rest
            end
          else scanInstructions keys rest
      end
  end.

Definition extractMemo (tx : option Transaction) : outcome (option string) :=
  match tx with
  | None => Return None
  | Some t =>
      match transaction t with
      | None => Return None
      | Some msg => scanInstructions (accountKeys msg) (instructions msg)
      end
  end.

End WithRuntime.

End TransactionParser.

(** ** adapters/MemoryAdapter.js *)

Module MemoryAdapter.

Record StreamerData : Type := {
  pubkey : string;
  message : string;
  registeredAt : Z
}.

(** [streamers] keeps the insertion order of the JavaScript [Map]. *)
Record t : Type := {
  streamers : list (string * StreamerData);
  lastSeen : gmap string string
}.

Definition empty : t := {| streamers := []; lastSeen := ∅ |}.

Definition getAllStreamers (a : t) : list (string * StreamerData) := streamers a.

Definition updateLastSeen (pubkey signature : string) (a : t) : t :=
  {| streamers := streamers a; lastSeen := <[pubkey := signature]> (lastSeen a) |}.

(** [this.lastSeen.get(pubkey) || null]. *)
Definition getLastSeen (pubkey : string) (a : t) : option string :=
  or_absent (lastSeen a !! pubkey).

End MemoryAdapter.

(** ** core/TipIndexer.js *)

Module TipIndexer.

Record TipData : Type := {
  streamerId : string;
  streamerPubkey : string;
  from : string;
  amountLamports : TransactionParser.number;
  amountSol : TransactionParser.number;
  txHash : string;
  slot : Z;
  blockTime : option Z;
  memo : option string
}.

(** The ledger client as one poll cycle sees it.  [getSignaturesForAddress]
    takes the address, [options.until] and [options.limit] and answers with
    the signatures of the page, newest first. *)
Record Connection : Type := {
  getSignaturesForAddress : list byte -> option string -> Z -> outcome (list string);
  getTransaction : string -> outcome (option TransactionParser.Transaction)
}.

(** [new PublicKey(pubkey)] of @solana/web3.js: the base-58 text of 32 bytes. *)
Definition PublicKey (pubkey : string) : outcome (list byte) :=
  obind (Bs58.decode pubkey) (fun decoded =>
    if Nat.eqb (length decoded) 32 then Return decoded
    else Throw "Invalid public key input").

(** What an observer of the indexer sees, in order: the calls of [emit] and
    the writes of the cursor. *)
Inductive Obs : Type :=
| Emitted (event : string) (data : TipData)
| CursorWritten (pubkey signature : string).

Section WithHandlers.
Context `{Runtime}.

(** The state the registered handlers act on. *)
Variable U : Type.

Definition Handler : Type := TipData -> M U unit.

Record State : Type := {
  storage : MemoryAdapter.t;
  eventHandlers : gmap string (list Handler);
  world : U;
  history : list Obs
}.

Definition observe (o : Obs) (s : State) : State :=
  {| storage := storage s; eventHandlers := eventHandlers s;
     world := world s; history := history s ++ [o] |}.

(** Runs a handler on the part of the state it owns. *)
Definition call (handler : Handler) (data : TipData) : M State unit :=
  fun s =>
    let (r, u) := handler data (world s) in
    (r, {| storage := storage s; eventHandlers := eventHandlers s;
           world := u; history := history s |}).

Definition on (event : string) (handler : Handler) (s : State) : State :=
  {| storage := storage s;
     eventHandlers :=
       <[event := default [] (eventHandlers s !! event) ++ [handler]]> (eventHandlers s);
     world := world s; history := history s |}.

Definition emit (event : string) (data : TipData) : M State unit :=
  (do! modify (observe (Emitted event data)) in
   let! s := get in
   let handlers := default [] (eventHandlers s !! event) in
   for_of handlers (fun handler =>
     try_catch (call handler data) (fun _ => ret tt)))%js.

Definition getLastSeen (pubkey : string) : M State (option string) :=
  fun s => (Return (MemoryAdapter.getLastSeen pubkey (storage s)), s).

Definition updateLastSeen (pubkey signature : string) : M State unit :=
  modify (fun s =>
    observe (CursorWritten pubkey signature)
      {| storage := MemoryAdapter.updateLastSeen pubkey signature (storage s);
         eventHandlers := eventHandlers s; world := world s; history := history s |}).

Variable connection : Connection.
Variable signatureLimit : Z.

Definition processTransaction (streamerId streamerPubkey signature : string) : M State unit :=
  try_catch
    (let! tx := lift (getTransaction connection signature) in
     match tx with
     | None => ret tt
     | Some t =>
         match TransactionParser.meta t with
         | None => ret tt
         | Some _ =>
             let! tipInfo := lift (TransactionParser.parseTipTransaction tx streamerPubkey) in
             match tipInfo with
             | None => ret tt
             | Some tip =>
                 let! memo := lift (TransactionParser.extractMemo tx) in
                 emit "tip"
                   {| streamerId := streamerId;
                      streamerPubkey := streamerPubkey;
                      from := TransactionParser.from tip;
                      amountLamports := TransactionParser.amountLamports tip;
                      amountSol := TransactionParser.amountSol tip;
                      txHash := signature;
                      slot := TransactionParser.tip_slot tip;
                      blockTime := TransactionParser.tip_blockTime tip;
                      memo := or_absent memo |}
             end
         end
     end)%js
    (fun _ => ret tt).

(** [signature === lastSeen]. *)
Definition same_signature (signature : string) (lastSeen : option string) : bool :=
  match lastSeen with
  | Some l => String.eqb signature l
  | None => false
  end.

Definition checkStreamerTips (streamerId : string) (streamerData : MemoryAdapter.StreamerData)
  : M State unit :=
  let pubkey := MemoryAdapter.pubkey streamerData in
  try_catch
    (let! lastSeen := getLastSeen pubkey in
     let until := or_absent lastSeen in
     let! publicKey := lift (PublicKey pubkey) in
     let! signatures := lift (getSignaturesForAddress connection publicKey until signatureLimit) in
     let newSignatures := rev signatures in
     for_of newSignatures (fun signature =>
       if same_signature signature lastSeen then ret tt
       else
         do! processTransaction streamerId pubkey signature in
         updateLastSeen pubkey signature))%js
    (fun _ => ret tt).

(** The body of one [poll], timers apart. *)
Definition poll : M State unit :=
  try_catch
    (let! s := get in
     for_of (MemoryAdapter.getAllStreamers (storage s)) (fun entry =>
       checkStreamerTips (fst entry) (snd entry)))%js
    (fun _ => ret tt).

End WithHandlers.

Arguments storage {U} s.
Arguments eventHandlers {U} s.
Arguments world {U} s.
Arguments history {U} s.
Arguments call {U} handler data _.
Arguments getLastSeen {U} pubkey _.
Arguments updateLastSeen {U} pubkey signature _.
Arguments on {U} event handler s.
Arguments emit {U} event data _.
Arguments processTransaction {_ U} connection streamerId streamerPubkey signature _.
Arguments checkStreamerTips {_ U} connection signatureLimit streamerId streamerData _.
Arguments poll {_ U} connection signatureLimit _.

End TipIndexer.

(** ** core/WebSocketBroadcaster.js *)

Module WebSocketBroadcaster.

(** The options of the constructor as the caller gives them: a key can be
    left out. *)
Record UserOptions : Type := {
  user_pingInterval : option Z;
  user_maxAlertsPerWindow : option Z;
  user_alertWindowMs : option Z
}.

Record Options : Type := {
  pingInterval : Z;
  maxAlertsPerWindow : Z;
  alertWindowMs : Z
}.

(** [{ key: options.key || d, ...options }]: the spread writes a key the
    caller gave over the default, also when its value is 0. *)
Definition spread_over (given : option Z) (d : Z) : Z :=
  match given with
  | Some v => v
  | None => d
  end.

Definition resolve (o : UserOptions) : Options :=
  {| pingInterval := spread_over (user_pingInterval o) 30000;
     maxAlertsPerWindow := spread_over (user_maxAlertsPerWindow o) 4;
     alertWindowMs := spread_over (user_alertWindowMs o) 10000 |}.

(** An inbound message after [JSON.parse], with the fields the handler
    reads (string-valued when present). *)
Record ClientMsg : Type := {
  action : option string;
  type : option string;
  streamer : option string
}.

Section WithPayload.

(** The tip object handed to [broadcastTip]. *)
Variable TipData : Type.

(** An outbound message before [JSON.stringify].  [Tip streamerId tipData]
    is [{ type: 'tip', payload: { streamerId, ...tipData } }]. *)
Inductive ServerMsg : Type :=
| Subscribed (streamer : string)
| Pong
| Tip (streamerId : string) (tipData : TipData).

(** The broadcaster once [init] has run.  Connections are named by numbers:
    [clients] is [wss.clients] in insertion order, [readyState ws] the
    [readyState] of a connection, and [wire] lists every [ws.send] call,
    oldest first, with the connection it was made on. *)
Record State : Type := {
  options : Options;
  clients : list nat;
  readyState : nat -> Z;
  subscriptions : gmap nat (gset string);
  alertCounts : gmap string (list Z);
  wire : list (nat * ServerMsg)
}.

Definition constructor (o : UserOptions) : State :=
  {| options := resolve o; clients := []; readyState := fun _ => 1;
     subscriptions := ∅; alertCounts := ∅; wire := [] |}.

Definition send (ws : nat) (m : ServerMsg) (b : State) : State :=
  {| options := options b; clients := clients b; readyState := readyState b;
     subscriptions := subscriptions b; alertCounts := alertCounts b;
     wire := wire b ++ [(ws, m)] |}.

Definition set_subscriptions (subs : gmap nat (gset string)) (b : State) : State :=
  {| options := options b; clients := clients b; readyState := readyState b;
     subscriptions := subs; alertCounts := alertCounts b; wire := wire b |}.

Definition set_alertCounts (counts : gmap string (list Z)) (b : State) : State :=
  {| options := options b; clients := clients b; readyState := readyState b;
     subscriptions := subscriptions b; alertCounts := counts; wire := wire b |}.

Definition handleMessage (ws : nat) (msg : ClientMsg) (b : State) : State :=
  match or_else (action msg) (type msg) with
  | Some "subscribe" =>
      match streamer msg with
      | Some name =>
          if truthy name then
            let b1 :=
              match subscriptions b !! ws with
              | Some _ => b
              | None => set_subscriptions (<[ws := ∅]> (subscriptions b)) b
              end in
            let subs := default ∅ (subscriptions b1 !! ws) in
            let b2 := set_subscriptions (<[ws := subs ∪ {[name]}]> (subscriptions b1)) b1 in
            send ws (Subscribed name) b2
          else b
      | None => b
      end
  | Some "ping" => send ws Pong b
  | _ => b
  end.

(** The [close] event of a connection. *)
Definition onClose (ws : nat) (b : State) : State :=
  set_subscriptions (delete ws (subscriptions b)) b.

(** [shouldBroadcast], with [now] the reading of [Date.now()]. *)
Definition shouldBroadcast (streamerId : string) (now : Z) (b : State) : bool * State :=
  let windowMs := alertWindowMs (options b) in
  let b1 :=
    match alertCounts b !! streamerId with
    | Some _ => b
    | None => set_alertCounts (<[streamerId := []]> (alertCounts b)) b
    end in
  let counts := default [] (alertCounts b1 !! streamerId) in
  let filtered := filter (fun entry => now - entry < windowMs) counts in
  if Z.of_nat (length filtered) >=? maxAlertsPerWindow (options b1) then (false, b1)
  else (true, set_alertCounts (<[streamerId := filtered ++ [now]]> (alertCounts b1)) b1).

(** The fan-out loop over [wss.clients]. *)
Fixpoint fanOut (streamerId : string) (message : ServerMsg) (l : list nat) (b : State) : State :=
  match l with
  | [] => b
  | ws :: rest =>
      let b' :=
        match subscriptions b !! ws with
        | Some subs =>
            if bool_decide (streamerId ∈ subs) && (readyState b ws =? 1)
            then send ws message b
            else b
        | None => b
        end in
      fanOut streamerId message rest b'
  end.

Definition broadcastTip (streamerId : string) (tipData : TipData) (now : Z) (b : State) : State :=
  let (allowed, b1) := shouldBroadcast streamerId now b in
  if negb allowed then b1
  else fanOut streamerId (Tip streamerId tipData) (clients b1) b1.

End WithPayload.

Arguments Subscribed {TipData} streamer.
Arguments Pong {TipData}.
Arguments Tip {TipData} streamerId tipData.
Arguments options {TipData} s.
Arguments clients {TipData} s.
Arguments readyState {TipData} s.
Arguments subscriptions {TipData} s.
Arguments alertCounts {TipData} s.
Arguments wire {TipData} s.
Arguments send {TipData} ws m b.
Arguments set_subscriptions {TipData} subs b.
Arguments set_alertCounts {TipData} counts b.
Arguments handleMessage {TipData} ws msg b.
Arguments onClose {TipData} ws b.
Arguments shouldBroadcast {TipData} streamerId now b.
Arguments fanOut {TipData} streamerId message l b.
Arguments broadcastTip {TipData} streamerId tipData now b.

End WebSocketBroadcaster.

(** ** client/PhantomWalletAdapter.js *)

Module PhantomWalletAdapter.

Definition alphabet : string :=
  "123456789ABCDEFGHJKLMNPQRSTUVWXYZabcdefghijkmnopqrstuvwxyz".

(** [alphabet[i]], read only at indices below 58. *)
Definition charAt (i : N) : ascii :=
  nth (N.to_nat i) (String.list_ascii_of_string alphabet) "1"%char.

(** The first loop: the array read as one number, 256 per position. *)
Definition toNumber (array : list byte) : N :=
  fold_left (fun num b => (num * 256 + N_of_ascii (ascii_of_byte b))%N) array 0%N.

(** The loop [while (num > 0)], each turn putting one character in front
    of [encoded]; [fuel] bounds the number of turns. *)
Fixpoint digitsLoop (fuel : nat) (num : N) (encoded : string) : string :=
  match fuel with
  | O => encoded
  | S fuel' =>
      if (0 <? num)%N
      then digitsLoop fuel' (num / 58)%N (String (charAt (num mod 58)%N) encoded)
      else encoded
  end.

(** The last loop: one '1' in front for each zero at the head of the
    array. *)
Fixpoint leadingOnes (array : list byte) (encoded : string) : string :=
  match array with
  | b :: rest =>
      if Byte.eqb b x00 then String "1" (leadingOnes rest encoded) else encoded
  | [] => encoded
  end.

(** [arrayToBase58].  A number below [256 ^ n] has at most [2 * n] digits
    in base 58, so the middle loop ends within its fuel
    ([digitsLoop_fuel]). *)
Definition arrayToBase58 (array : list byte) : string :=
  let num := toNumber array in
  leadingOnes array (digitsLoop (2 * length array) num "").

End PhantomWalletAdapter.

(** ** adapters/StorageAdapter.js, and the rest of adapters/MemoryAdapter.js *)

Module StorageAdapter.

(** The interface of a storage backend over a state [S].
    [registerStreamer] takes the reading of [Date.now()] it stamps the
    record with. *)
Class t (S : Type) : Type := {
  registerStreamer : Z -> string -> string -> string -> M S unit;
  getStreamer : string -> M S (option MemoryAdapter.StreamerData);
  getAllStreamers : M S (list (string * MemoryAdapter.StreamerData));
  updateLastSeen : string -> string -> M S unit;
  getLastSeen : string -> M S (option string)
}.

(** The base class: every method throws. *)
Definition unimplemented : t unit := {|
  registerStreamer := fun _ _ _ _ => throw "registerStreamer must be implemented";
  getStreamer := fun _ => throw "getStreamer must be implemented";
  getAllStreamers := throw "getAllStreamers must be implemented";
  updateLastSeen := fun _ _ => throw "updateLastSeen must be implemented";
  getLastSeen := fun _ => throw "getLastSeen must be implemented"
|}.

(** [Map.prototype.set] on the entries in insertion order: a known key keeps
    its place and takes the new value, a new key goes to the end. *)
Fixpoint map_set {V : Type} (key : string) (value : V) (entries : list (string * V))
  : list (string * V) :=
  match entries with
  | [] => [(key, value)]
  | (k, v) :: rest =>
      if String.eqb k key then (key, value) :: rest
      else (k, v) :: map_set key value rest
  end.

(** [Map.prototype.get]. *)
Fixpoint map_get {V : Type} (key : string) (entries : list (string * V)) : option V :=
  match entries with
  | [] => None
  | (k, v) :: rest => if String.eqb k key then Some v else map_get key rest
  end.

(** The methods of [MemoryAdapter]. *)
Definition memory_registerStreamer (now : Z) (streamerId pubkey message : string)
  : M MemoryAdapter.t unit :=
  modify (fun a =>
    {| MemoryAdapter.streamers :=
         map_set streamerId
           {| MemoryAdapter.pubkey := pubkey;
              MemoryAdapter.message := message;
              MemoryAdapter.registeredAt := now |}
           (MemoryAdapter.streamers a);
       MemoryAdapter.lastSeen := MemoryAdapter.lastSeen a |}).

Definition memory_getStreamer (streamerId : string)
  : M MemoryAdapter.t (option MemoryAdapter.StreamerData) :=
  fun a => (Return (map_get streamerId (MemoryAdapter.streamers a)), a).

Definition memory_clear : M MemoryAdapter.t unit :=
  modify (fun _ => MemoryAdapter.empty).

Definition memory : t MemoryAdapter.t := {|
  registerStreamer := memory_registerStreamer;
  getStreamer := memory_getStreamer;
  getAllStreamers := fun a => (Return (MemoryAdapter.getAllStreamers a), a);
  updateLastSeen := fun pubkey signature =>
    modify (MemoryAdapter.updateLastSeen pubkey signature);
  getLastSeen := fun pubkey a => (Return (MemoryAdapter.getLastSeen pubkey a), a)
|}.

End StorageAdapter.

(** ** core/StreamerRegistry.js *)

Module StreamerRegistry.

(** [{ success: true }] or [{ success: false, error }]. *)
Inductive Result : Type :=
| Success
| Failure (error : string).

Section WithStorage.
Context `{Runtime}.
Context {S : Type} (storage : StorageAdapter.t S).

(** [register], with [now] the clock reading the storage stamps the record
    with. *)
Definition register (now : Z) (streamerId pubkey message signature : string) : M S Result :=
  if negb (truthy streamerId) || negb (truthy pubkey)
     || negb (truthy message) || negb (truthy signature)
  then ret (Failure "Missing required fields")
  else
    (let! isValid := lift (Crypto.verifySignature message signature pubkey) in
     if negb isValid then ret (Failure "Invalid signature")
     else
       try_catch
         (do! StorageAdapter.registerStreamer now streamerId pubkey message in
          ret Success)
         (fun _ => ret (Failure "Storage error")))%js.

Definition getStreamer (streamerId : string) : M S (option MemoryAdapter.StreamerData) :=
  StorageAdapter.getStreamer streamerId.

Definition getAllStreamers : M S (list (string * MemoryAdapter.StreamerData)) :=
  StorageAdapter.getAllStreamers.

End WithStorage.

End StreamerRegistry.

(** ** core/SolanaTipSDK.js *)

Module SolanaTipSDK.

(** What the handlers of the indexer act on inside an SDK: the
    broadcaster, whether [initWebSocket] has run (that is, [wss] is set),
    and how many times the clock has been read. *)
Record World : Type := {
  broadcaster : WebSocketBroadcaster.State TipIndexer.TipData;
  listening : bool;
  reads : nat
}.

Section WithClock.

(** [Date.now()]: the reading of the clock on its [n]-th call. *)
Variable Date_now : nat -> Z.

(** [this.broadcaster.broadcastTip(streamerId, tipData)].  Before
    [initWebSocket], [wss] is null: the rate check runs and records, and
    reading [this.wss.clients] throws. *)
Definition broadcastTip (streamerId : string) (tipData : TipIndexer.TipData) : M World unit :=
  fun w =>
    let now := Date_now (reads w) in
    if listening w then
      (Return tt,
       {| broadcaster :=
            WebSocketBroadcaster.broadcastTip streamerId tipData now (broadcaster w);
          listening := true;
          reads := S (reads w) |})
    else
      let (allowed, b1) := WebSocketBroadcaster.shouldBroadcast streamerId now (broadcaster w) in
      (if allowed
       then Throw "TypeError: Cannot read properties of null (reading 'clients')"
       else Return tt,
       {| broadcaster := b1; listening := false; reads := S (reads w) |}).

(** The handler the constructor registers with [indexer.on('tip', ...)]. *)
Definition relay : TipIndexer.Handler World :=
  fun tipData => broadcastTip (TipIndexer.streamerId tipData) tipData.

(** The constructor: [storage] absent stands for a falsy argument. *)
Definition constructor (storage : option MemoryAdapter.t)
  (websocket : WebSocketBroadcaster.UserOptions) : outcome (TipIndexer.State World) :=
  match storage with
  | None => Throw "Storage adapter is required"
  | Some storage =>
      Return
        (TipIndexer.on "tip" relay
           {| TipIndexer.storage := storage;
              TipIndexer.eventHandlers := ∅;
              TipIndexer.world :=
                {| broadcaster := WebSocketBroadcaster.constructor TipIndexer.TipData websocket;
                   listening := false;
                   reads := O |};
              TipIndexer.history := [] |})
  end.

(** [initWebSocket]: the broadcaster gets its server. *)
Definition initWebSocket (s : TipIndexer.State World) : TipIndexer.State World :=
  {| TipIndexer.storage := TipIndexer.storage s;
     TipIndexer.eventHandlers := TipIndexer.eventHandlers s;
     TipIndexer.world :=
       {| broadcaster := broadcaster (TipIndexer.world s);
          listening := true;
          reads := reads (TipIndexer.world s) |};
     TipIndexer.history := TipIndexer.history s |}.

(** [sdk.on(event, handler)]. *)
Definition on (event : string) (handler : TipIndexer.Handler World)
  (s : TipIndexer.State World) : TipIndexer.State World :=
  TipIndexer.on event handler s.

End WithClock.

End SolanaTipSDK.

(** ** client/OverlayClient.js *)

Module OverlayClient.

Definition maxReconnectAttempts : Z := 10.
Definition reconnectDelay : Z := 2000.

(** [WebSocket.CONNECTING] and [WebSocket.OPEN]. *)
Definition CONNECTING : Z := 0.
Definition OPEN : Z := 1.

Section WithPayload.

(** The value of the [payload] field of a message after [JSON.parse]. *)
Variable Payload : Type.

(** A message of the server after [JSON.parse], with the fields the client
    reads. *)
Record ServerJson : Type := {
  type : option string;
  streamer : option string;
  payload : option Payload
}.

(** The tip object of the server, and what [JSON.parse] reads from the text
    [JSON.stringify] writes for [{ streamerId, ...tipData }]. *)
Variable TipData : Type.
Variable json : string -> TipData -> Payload.

(** What [JSON.parse] makes of the messages the broadcaster serialises. *)
Definition parse (m : WebSocketBroadcaster.ServerMsg TipData) : ServerJson :=
  match m with
  | WebSocketBroadcaster.Subscribed name =>
      {| type := Some "subscribed"; streamer := Some name; payload := None |}
  | WebSocketBroadcaster.Pong =>
      {| type := Some "pong"; streamer := None; payload := None |}
  | WebSocketBroadcaster.Tip streamerId tipData =>
      {| type := Some "tip"; streamer := None; payload := Some (json streamerId tipData) |}
  end.

(** What a handler is called with. *)
Inductive Data : Type :=
| Undefined
| OfStreamer (streamer : option string)
| OfPayload (payload : option Payload)
| OfError (error : string).

(** The state the registered handlers act on. *)
Variable U : Type.

Definition Handler : Type := Data -> M U unit.

(** The client.  [ws] is the [readyState] of [this.ws], absent while
    [this.ws] is null; [intervals] counts the [setInterval] timers that
    run; [sent] lists the objects given to [ws.send] (before
    [JSON.stringify]), [timeouts] the delays given to [setTimeout] and
    [history] the calls of [emit], each oldest first. *)
Record State : Type := {
  streamerId : string;
  ws : option Z;
  reconnectAttempts : Z;
  pingInterval : bool;
  eventHandlers : gmap string (list Handler);
  connected : bool;
  world : U;
  intervals : nat;
  sent : list WebSocketBroadcaster.ClientMsg;
  timeouts : list Z;
  history : list (string * Data)
}.

Definition constructor (streamerId : string) (u : U) : State :=
  {| streamerId := streamerId; ws := None; reconnectAttempts := 0; pingInterval := false;
     eventHandlers := ∅; connected := false; world := u; intervals := O;
     sent := []; timeouts := []; history := [] |}.

Definition set_ws (r : option Z) (s : State) : State :=
  {| streamerId := streamerId s; ws := r; reconnectAttempts := reconnectAttempts s;
     pingInterval := pingInterval s; eventHandlers := eventHandlers s;
     connected := connected s; world := world s; intervals := intervals s;
     sent := sent s; timeouts := timeouts s; history := history s |}.

Definition set_reconnectAttempts (n : Z) (s : State) : State :=
  {| streamerId := streamerId s; ws := ws s; reconnectAttempts := n;
     pingInterval := pingInterval s; eventHandlers := eventHandlers s;
     connected := connected s; world := world s; intervals := intervals s;
     sent := sent s; timeouts := timeouts s; history := history s |}.

Definition set_pingInterval (armed : bool) (running : nat) (s : State) : State :=
  {| streamerId := streamerId s; ws := ws s; reconnectAttempts := reconnectAttempts s;
     pingInterval := armed; eventHandlers := eventHandlers s;
     connected := connected s; world := world s; intervals := running;
     sent := sent s; timeouts := timeouts s; history := history s |}.

Definition set_connected (c : bool) (s : State) : State :=
  {| streamerId := streamerId s; ws := ws s; reconnectAttempts := reconnectAttempts s;
     pingInterval := pingInterval s; eventHandlers := eventHandlers s;
     connected := c; world := world s; intervals := intervals s;
     sent := sent s; timeouts := timeouts s; history := history s |}.

Definition set_world (u : U) (s : State) : State :=
  {| streamerId := streamerId s; ws := ws s; reconnectAttempts := reconnectAttempts s;
     pingInterval := pingInterval s; eventHandlers := eventHandlers s;
     connected := connected s; world := u; intervals := intervals s;
     sent := sent s; timeouts := timeouts s; history := history s |}.

Definition send (m : WebSocketBroadcaster.ClientMsg) (s : State) : State :=
  {| streamerId := streamerId s; ws := ws s; reconnectAttempts := reconnectAttempts s;
     pingInterval := pingInterval s; eventHandlers := eventHandlers s;
     connected := connected s; world := world s; intervals := intervals s;
     sent := sent s ++ [m]; timeouts := timeouts s; history := history s |}.

Definition setTimeout (delay : Z) (s : State) : State :=
  {| streamerId := streamerId s; ws := ws s; reconnectAttempts := reconnectAttempts s;
     pingInterval := pingInterval s; eventHandlers := eventHandlers s;
     connected := connected s; world := world s; intervals := intervals s;
     sent := sent s; timeouts := timeouts s ++ [delay]; history := history s |}.

Definition observe (o : string * Data) (s : State) : State :=
  {| streamerId := streamerId s; ws := ws s; reconnectAttempts := reconnectAttempts s;
     pingInterval := pingInterval s; eventHandlers := eventHandlers s;
     connected := connected s; world := world s; intervals := intervals s;
     sent := sent s; timeouts := timeouts s; history := history s ++ [o] |}.

Definition on (event : string) (handler : Handler) (s : State) : State :=
  {| streamerId := streamerId s; ws := ws s; reconnectAttempts := reconnectAttempts s;
     pingInterval := pingInterval s;
     eventHandlers :=
       <[event := default [] (eventHandlers s !! event) ++ [handler]]> (eventHandlers s);
     connected := connected s; world := world s; intervals := intervals s;
     sent := sent s; timeouts := timeouts s; history := history s |}.

(** Runs a handler on the part of the state it owns. *)
Definition call (handler : Handler) (data : Data) : M State unit :=
  fun s => let (r, u) := handler data (world s) in (r, set_world u s).

Definition emit (event : string) (data : Data) : M State unit :=
  (do! modify (observe (event, data)) in
   let! s := get in
   for_of (default [] (eventHandlers s !! event)) (fun handler =>
     try_catch (call handler data) (fun _ => ret tt)))%js.

(** [this.ws && this.ws.readyState === WebSocket.OPEN]. *)
Definition is_open (s : State) : bool :=
  match ws s with
  | Some r => r =? OPEN
  | None => false
  end.

Definition subscribe (streamerId : string) : M State unit :=
  fun s =>
    if is_open s
    then (Return tt,
          send {| WebSocketBroadcaster.action := Some "subscribe";
                  WebSocketBroadcaster.type := None;
                  WebSocketBroadcaster.streamer := Some streamerId |} s)
    else (Return tt, s).

(** The callback of the heartbeat's [setInterval]. *)
Definition heartbeat : M State unit :=
  fun s =>
    if is_open s
    then (Return tt,
          send {| WebSocketBroadcaster.action := None;
                  WebSocketBroadcaster.type := Some "ping";
                  WebSocketBroadcaster.streamer := None |} s)
    else (Return tt, s).

Definition startHeartbeat : M State unit :=
  modify (fun s => set_pingInterval true (S (intervals s)) s).

Definition stopHeartbeat : M State unit :=
  fun s =>
    if pingInterval s
    then (Return tt, set_pingInterval false (pred (intervals s)) s)
    else (Return tt, s).

Definition handleMessage (data : ServerJson) : M State unit :=
  match type data with
  | Some "subscribed" => emit "subscribed" (OfStreamer (streamer data))
  | Some "tip" => emit "tip" (OfPayload (payload data))
  | Some "pong" => ret tt
  | _ => ret tt
  end.

Definition reconnect : M State unit :=
  fun s =>
    if reconnectAttempts s >=? maxReconnectAttempts
    then emit "maxReconnectReached" Undefined s
    else
      let s1 := set_reconnectAttempts (reconnectAttempts s + 1) s in
      let delay := reconnectDelay * reconnectAttempts s1 in
      (Return tt, setTimeout delay s1).

(** [connect]: a new socket, not open yet, with the four callbacks below.
    The URL is taken to be well formed ([new WebSocket] does not throw). *)
Definition connect : M State unit := modify (set_ws (Some CONNECTING)).

Definition onopen : M State unit :=
  (do! modify (fun s => set_reconnectAttempts 0 (set_connected true s)) in
   let! s := get in
   do! subscribe (streamerId s) in
   do! startHeartbeat in
   emit "connected" Undefined)%js.

(** [onmessage]: [data] is absent when [JSON.parse] throws or yields
    null, which the [catch] takes. *)
Definition onmessage (data : option ServerJson) : M State unit :=
  try_catch
    match data with
    | Some d => handleMessage d
    | None => throw "TypeError"
    end
    (fun _ => ret tt).

Definition onclose : M State unit :=
  (do! modify (set_connected false) in
   do! stopHeartbeat in
   do! emit "disconnected" Undefined in
   reconnect)%js.

Definition onerror (error : string) : M State unit := emit "error" (OfError error).

Definition disconnect : M State unit :=
  (do! stopHeartbeat in
   modify (fun s => set_connected false (set_ws None s)))%js.

Definition isConnected (s : State) : bool := connected s.

End WithPayload.

Arguments type {Payload} s.
Arguments streamer {Payload} s.
Arguments payload {Payload} s.
Arguments parse {Payload TipData} json m.
Arguments Undefined {Payload}.
Arguments OfStreamer {Payload} streamer.
Arguments OfPayload {Payload} payload.
Arguments OfError {Payload} error.
Arguments streamerId {Payload U} s.
Arguments ws {Payload U} s.
Arguments reconnectAttempts {Payload U} s.
Arguments pingInterval {Payload U} s.
Arguments eventHandlers {Payload U} s.
Arguments connected {Payload U} s.
Arguments world {Payload U} s.
Arguments intervals {Payload U} s.
Arguments sent {Payload U} s.
Arguments timeouts {Payload U} s.
Arguments history {Payload U} s.
Arguments constructor Payload {U} streamerId u.
Arguments on {Payload U} event handler s.
Arguments emit {Payload U} event data _.
Arguments is_open {Payload U} s.
Arguments subscribe {Payload U} streamerId _.
Arguments heartbeat {Payload U} _.
Arguments startHeartbeat {Payload U} _.
Arguments stopHeartbeat {Payload U} _.
Arguments handleMessage {Payload U} data _.
Arguments reconnect {Payload U} _.
Arguments connect {Payload U} _.
Arguments onopen {Payload U} _.
Arguments onmessage {Payload U} data _.
Arguments onclose {Payload U} _.
Arguments onerror {Payload U} error _.
Arguments disconnect {Payload U} _.
Arguments isConnected {Payload U} s.

End OverlayClient.

(** ** JSON.stringify and JSON.parse, on the tip object of the indexer *)

Module JSON.

(** A number written and read back: [NaN] and the infinities are written as
    [null], minus zero as [0], every other number so that it is read back
    as it was. *)
Definition number (x : TransactionParser.number) : option TransactionParser.number :=
  match x with
  | S754_nan | S754_infinity _ => None
  | S754_zero _ => Some (S754_zero false)
  | S754_finite _ _ _ => Some x
  end.

(** The tip object as the overlay reads it.  A number field is absent when
    it holds [null]; [blockTime] and [memo] are absent as they were in the
    tip object (a property that is [undefined] is not written). *)
Record Payload : Type := {
  streamerId : string;
  streamerPubkey : string;
  from : string;
  amountLamports : option TransactionParser.number;
  amountSol : option TransactionParser.number;
  txHash : string;
  slot : Z;
  blockTime : option Z;
  memo : option string
}.

(** [JSON.parse(JSON.stringify({ streamerId, ...tipData }))]: the spread
    comes second, so [streamerId] is the one of the tip object. *)
Definition payload (streamerId : string) (tipData : TipIndexer.TipData) : Payload :=
  {| streamerId := TipIndexer.streamerId tipData;
     streamerPubkey := TipIndexer.streamerPubkey tipData;
     from := TipIndexer.from tipData;
     amountLamports := number (TipIndexer.amountLamports tipData);
     amountSol := number (TipIndexer.amountSol tipData);
     txHash := TipIndexer.txHash tipData;
     slot := TipIndexer.slot tipData;
     blockTime := TipIndexer.blockTime tipData;
     memo := TipIndexer.memo tipData |}.

End JSON.

(** * Vocabulary of the properties *)

(** Every character is one of the 58 of the alphabet. *)
Definition is_base58 (s : string) : Prop :=
  Forall (fun c => c ∈ String.list_ascii_of_string Bs58.ALPHABET) (String.list_ascii_of_string s).

(** The number a byte string writes in base 256, most significant byte
    first. *)
Definition bytes_value (bytes : list byte) : N :=
  fold_left (fun acc b => (acc * 256 + N_of_ascii (ascii_of_byte b))%N) bytes 0%N.

(** The integer a number holds, when it holds one. *)
Definition integer_value (x : TransactionParser.number) : option Z :=
  match x with
  | S754_zero _ => Some 0
  | S754_finite s m e =>
      if 0 <=? e then Some (cond_Zopp s (Zpos m * 2 ^ e))
      else if Zpos m mod 2 ^ (- e) =? 0 then Some (cond_Zopp s (Zpos m / 2 ^ (- e)))
      else None
  | _ => None
  end.

(** [p * 2 ^ n], as the mantissas are shifted. *)
Definition shl (p : positive) (n : nat) : positive := Nat.iter n xO p.

Section ParserTerms.
Import TransactionParser.

(** Account [j] lost balance: [preBalances[j] > postBalances[j]]. *)
Definition decreased (m : Meta) (j : nat) : Prop :=
  exists a b,
    preBalances m !! j = Some a /\ postBalances m !! j = Some b /\ SFltb b a = true.

(** [j] is the first index of the account list, the target's apart, whose
    balance went down. *)
Definition first_decreased (m : Meta) (keys : list string) (targetIndex j : nat) : Prop :=
  (j < length keys)%nat /\ decreased m j /\ j ≠ targetIndex
  /\ forall j', (j' < j)%nat -> ~ (decreased m j' /\ j' ≠ targetIndex).

(** [ix] is addressed to the memo program and carries a payload. *)
Definition is_memo (keys : list string) (ix : Instruction) : Prop :=
  keys !! programIdIndex ix = Some MEMO_PROGRAM_ID
  /\ truthy (data ix) = true.

(** The payload of [ix] does not decode. *)
Definition undecodable (ix : Instruction) : Prop :=
  exists e, Bs58.decode (data ix) = Throw e.

End ParserTerms.

Section IndexerTerms.
Context `{Runtime}.
Variable U : Type.
Import TipIndexer.

Local Abbreviation State := (TipIndexer.State U).
Local Abbreviation Handler := (TipIndexer.Handler U).

(** The annotation of an instruction list: the text of the first memo
    instruction whose payload decodes, absent when there is none. *)
Inductive annotation (keys : list string)
  : list TransactionParser.Instruction -> option string -> Prop :=
| annotation_absent ixs :
    Forall (fun ix => is_memo keys ix -> undecodable ix) ixs ->
    annotation keys ixs None
| annotation_first skipped ix rest bytes :
    Forall (fun ix => is_memo keys ix -> undecodable ix) skipped ->
    is_memo keys ix ->
    Bs58.decode (TransactionParser.data ix) = Return bytes ->
    annotation keys (skipped ++ ix :: rest) (Some (utf8_toString bytes)).

(** The handlers' state once each of [hs] has run on [data], in order,
    whatever each one returned or threw. *)
Definition handled (hs : list Handler) (data : TipData) (u : U) : U :=
  fold_left (fun u handler => snd (handler data u)) hs u.

(** The state [emit] leaves: the call is on the history and every handler
    of the event has run. *)
Definition after_emit (event : string) (data : TipData) (s : State) : State :=
  {| storage := storage s; eventHandlers := eventHandlers s;
     world := handled (default [] (eventHandlers s !! event)) data (world s);
     history := history s ++ [Emitted event data] |}.

(** The event [processTransaction] emits for a signature, if any. *)
Definition detect (connection : Connection) (streamerId streamerPubkey signature : string)
  : option TipData :=
  match getTransaction connection signature with
  | Return (Some t) =>
      match TransactionParser.meta t with
      | None => None
      | Some _ =>
          match TransactionParser.parseTipTransaction (Some t) streamerPubkey with
          | Return (Some tip) =>
              match TransactionParser.extractMemo (Some t) with
              | Return memo =>
                  Some {| streamerId := streamerId;
                          streamerPubkey := streamerPubkey;
                          from := TransactionParser.from tip;
                          amountLamports := TransactionParser.amountLamports tip;
                          amountSol := TransactionParser.amountSol tip;
                          txHash := signature;
                          slot := TransactionParser.tip_slot tip;
                          blockTime := TransactionParser.tip_blockTime tip;
                          memo := or_absent memo |}
              | Throw _ => None
              end
          | _ => None
          end
      end
  | _ => None
  end.

(** The state [processTransaction] leaves. *)
Definition after_process (connection : Connection) (streamerId pubkey signature : string)
  (s : State) : State :=
  match detect connection streamerId pubkey signature with
  | Some data => after_emit "tip" data s
  | None => s
  end.

(** The state [updateLastSeen] leaves. *)
Definition after_update (pubkey signature : string) (s : State) : State :=
  {| storage := MemoryAdapter.updateLastSeen pubkey signature (storage s);
     eventHandlers := eventHandlers s; world := world s;
     history := history s ++ [CursorWritten pubkey signature] |}.

(** The signatures of a page the loop works on, oldest first: all but the
    cursor read when the cycle began. *)
Definition todo (lastSeen : option string) (page : list string) : list string :=
  filter (fun signature => same_signature signature lastSeen = false) (rev page).

(** What the loop adds to the history for one signature. *)
Definition steps (connection : Connection) (streamerId pubkey signature : string) : list Obs :=
  match detect connection streamerId pubkey signature with
  | Some data => [Emitted "tip" data; CursorWritten pubkey signature]
  | None => [CursorWritten pubkey signature]
  end.

(** The cycles of one recipient against the ledger as each cycle sees it. *)
Fixpoint cycles (ledger : list Connection) (limit : Z) (streamerId : string)
  (streamerData : MemoryAdapter.StreamerData) (s : State) : State :=
  match ledger with
  | [] => s
  | connection :: later =>
      cycles later limit streamerId streamerData
        (snd (checkStreamerTips connection limit streamerId streamerData s))
  end.

(** The signatures one cycle works on: those of its page, the cursor apart
    (none when the address is ill formed or the ledger call fails). *)
Definition worked (connection : Connection) (limit : Z)
  (streamerData : MemoryAdapter.StreamerData) (s : State) : list string :=
  let pubkey := MemoryAdapter.pubkey streamerData in
  let lastSeen := MemoryAdapter.getLastSeen pubkey (storage s) in
  match PublicKey pubkey with
  | Return key =>
      match getSignaturesForAddress connection key lastSeen limit with
      | Return page => todo lastSeen page
      | Throw _ => []
      end
  | Throw _ => []
  end.

(** The signatures the cycles work on, in order. *)
Fixpoint processed (ledger : list Connection) (limit : Z) (streamerId : string)
  (streamerData : MemoryAdapter.StreamerData) (s : State) : list string :=
  match ledger with
  | [] => []
  | connection :: later =>
      worked connection limit streamerData s
      ++ processed later limit streamerId streamerData
           (snd (checkStreamerTips connection limit streamerId streamerData s))
  end.

(** The transaction ids of the emitted events of a history, in order. *)
Definition emitted (h : list Obs) : list string :=
  flat_map (fun o => match o with
                     | Emitted _ data => [txHash data]
                     | CursorWritten _ _ => []
                     end) h.

(** The part of [chain] behind the signature [until]; [None] when the
    chain does not hold it. *)
Fixpoint behind (until : string) (chain : list string) : option (list string) :=
  match chain with
  | [] => None
  | x :: rest => if String.eqb x until then Some rest else behind until rest
  end.

(** The page of a ledger whose signatures for the address are [chain],
    oldest first: those behind [until] (all of them when [until] is absent
    or unknown), newest first, at most [limit]. *)
Definition page_of (chain : list string) (until : option string) (limit : Z) : list string :=
  let newer :=
    match until with
    | Some u => default chain (behind u chain)
    | None => chain
    end in
  take (Z.to_nat limit) (rev newer).

(** The connection of such a ledger: [view] is its chain and its
    transactions at the time of the cycle. *)
Definition honest (view : list string * (string -> outcome (option TransactionParser.Transaction)))
  : Connection :=
  {| getSignaturesForAddress := fun _ until limit => Return (page_of (fst view) until limit);
     getTransaction := snd view |}.

(** From one cycle to the next the chain only grows at its new end. *)
Fixpoint growing (prev : list string) (chains : list (list string)) : Prop :=
  match chains with
  | [] => True
  | chain :: later => prev `prefix_of` chain /\ growing chain later
  end.

(** The cursor of [s] is in [chain] and everything of [seen] is at or
    before it (nothing has been seen while there is no cursor). *)
Definition caught_up (pubkey : string) (s : State) (chain seen : list string) : Prop :=
  match MemoryAdapter.getLastSeen pubkey (storage s) with
  | None => seen = []
  | Some u => exists pre post, chain = pre ++ u :: post /\ forall x, x ∈ seen -> x ∈ pre ++ [u]
  end.

End IndexerTerms.

Arguments handled {U} hs data u.
Arguments after_emit {U} event data s.
Arguments after_process {_ U} connection streamerId pubkey signature s.
Arguments after_update {U} pubkey signature s.
Arguments cycles {_ U} ledger limit streamerId streamerData s.
Arguments worked {U} connection limit streamerData s.
Arguments processed {_ U} ledger limit streamerId streamerData s.
Arguments caught_up {U} pubkey s chain seen.

Section BroadcasterTerms.
Variable TipData : Type.
Import WebSocketBroadcaster.

Local Abbreviation State := (WebSocketBroadcaster.State TipData).
Local Abbreviation ServerMsg := (WebSocketBroadcaster.ServerMsg TipData).

(** The subscription set of [ws] holds [name]. *)
Definition subscribed (b : State) (ws : nat) (name : string) : Prop :=
  exists subs, subscriptions b !! ws = Some subs /\ name ∈ subs.

(** The connection [ws] is one the fan-out of [streamerId] sends to. *)
Definition reached (b : State) (streamerId : string) (ws : nat) : Prop :=
  subscribed b ws streamerId /\ readyState b ws = 1.

#[global] Instance subscribed_dec b ws name : Decision (subscribed b ws name).
Proof.
  unfold subscribed. destruct (subscriptions b !! ws) as [subs|].
  - destruct (decide (name ∈ subs)) as [Hin|Hout].
    + left. eauto.
    + right. intros (subs' & [= <-] & Hin). contradiction.
  - right. intros (subs' & Hs & _). discriminate.
Defined.

#[global] Instance reached_dec b streamerId ws : Decision (reached b streamerId ws).
Proof. unfold reached. apply _. Defined.

(** The messages sent on [ws], oldest first. *)
Definition inbox (ws : nat) (w : list (nat * ServerMsg)) : list ServerMsg :=
  omap (fun e => if decide (fst e = ws) then Some (snd e) else None) w.

(** The timestamps recorded for [streamerId]. *)
Definition recorded (b : State) (streamerId : string) : list Z :=
  default [] (alertCounts b !! streamerId).

(** Those of them less than a window before [now]. *)
Definition live (b : State) (streamerId : string) (now : Z) : list Z :=
  filter (fun entry => now - entry < alertWindowMs (options b)) (recorded b streamerId).

(** Successive [broadcastTip] calls for one recipient, each with the clock
    reading it sees. *)
Fixpoint publishAll (streamerId : string) (events : list (Z * TipData)) (b : State) : State :=
  match events with
  | [] => b
  | e :: rest => publishAll streamerId rest (broadcastTip streamerId (snd e) (fst e) b)
  end.

(** The clock readings [times] (in call order) are all less than one
    window after the readings before them. *)
Fixpoint within (window : Z) (times : list Z) : Prop :=
  match times with
  | [] => True
  | t :: later => Forall (fun t' => t' - t < window) later /\ within window later
  end.

End BroadcasterTerms.

Arguments subscribed {TipData} b ws name.
Arguments reached {TipData} b streamerId ws.
Arguments inbox {TipData} ws w.
Arguments recorded {TipData} b streamerId.
Arguments live {TipData} b streamerId now.
Arguments publishAll {TipData} streamerId events b.

(** All four fields are non-empty strings. *)
Definition complete (streamerId pubkey message signature : string) : Prop :=
  truthy streamerId = true /\ truthy pubkey = true
  /\ truthy message = true /\ truthy signature = true.

(** The registry after the [register] calls of [calls] (clock reading,
    streamer id, public key, message, signature), oldest first, on the
    in-memory backend. *)
Definition registrations `{Runtime} (calls : list (Z * string * string * string * string))
  (a : MemoryAdapter.t) : MemoryAdapter.t :=
  fold_left (fun a call =>
               match call with
               | (now, streamerId, pubkey, message, signature) =>
                   snd (StreamerRegistry.register StorageAdapter.memory
                          now streamerId pubkey message signature a)
               end) calls a.

Section BroadcasterRuns.
Variable TipData : Type.
Import WebSocketBroadcaster.

(** What happens to a broadcaster: a parsed message arrives on a
    connection, a connection closes, a tip is published at a clock reading. *)
Inductive Happening : Type :=
| Arrives (ws : nat) (msg : ClientMsg)
| Closes (ws : nat)
| Publishes (streamerId : string) (tipData : TipData) (now : Z).

Definition happen (b : WebSocketBroadcaster.State TipData) (h : Happening)
  : WebSocketBroadcaster.State TipData :=
  match h with
  | Arrives ws msg => handleMessage ws msg b
  | Closes ws => onClose ws b
  | Publishes streamerId tipData now => broadcastTip streamerId tipData now b
  end.

(** The [subscribe] message of the overlay client. *)
Definition subscribe_msg (name : string) : ClientMsg :=
  {| action := Some "subscribe"; type := None; streamer := Some name |}.

End BroadcasterRuns.

Arguments Arrives {TipData} ws msg.
Arguments Closes {TipData} ws.
Arguments Publishes {TipData} streamerId tipData now.
Arguments happen {TipData} b h.

Section SdkTerms.
Context `{Runtime}.

(** The events one cycle emits for the signatures [signatures], in order. *)
Definition detected (connection : TipIndexer.Connection) (streamerId pubkey : string)
  (signatures : list string) : list TipIndexer.TipData :=
  omap (detect connection streamerId pubkey) signatures.

(** The readings of the clock from its [from]-th call on, [n] of them. *)
Definition readings (Date_now : nat -> Z) (from n : nat) : list Z :=
  map Date_now (seq from n).

End SdkTerms.

Section OverlayRuns.
Variable Payload U : Type.
Import OverlayClient.

(** What happens to a client between two [open] events: its socket
    closes, fails, brings a message ([None] for one that does not parse),
    the heartbeat ticks, the timer of [reconnect] fires, or the page calls
    [disconnect]. *)
Inductive Incident : Type :=
| Closed
| Errored (error : string)
| Received (data : option (ServerJson Payload))
| Ticked
| Woke
| Left.

Definition befall (c : OverlayClient.State Payload U) (i : Incident)
  : OverlayClient.State Payload U :=
  match i with
  | Closed => snd (onclose c)
  | Errored error => snd (onerror error c)
  | Received data => snd (onmessage data c)
  | Ticked => snd (heartbeat c)
  | Woke => snd (connect c)
  | Left => snd (disconnect c)
  end.

(** The number of [close] events of a run. *)
Fixpoint closes (incidents : list Incident) : nat :=
  match incidents with
  | [] => O
  | Closed :: rest => S (closes rest)
  | _ :: rest => closes rest
  end.

(** How many times [event] was emitted. *)
Definition times_emitted (event : string) (h : list (string * Data Payload)) : nat :=
  length (filter (fun o => fst o = event) h).

(** What a reconnection depends on and shows: the counter, the timers
    started and the number of times the client gave up. *)
Definition reconnect_view (s : OverlayClient.State Payload U) : Z * list Z * nat :=
  (reconnectAttempts s, timeouts s, times_emitted "maxReconnectReached" (history s)).

(** The tip object of the server, and what [JSON.parse] reads from what
    [JSON.stringify] writes for [{ streamerId, ...tipData }]. *)
Variable TipData : Type.
Variable json : string -> TipData -> Payload.

(** The client is handed, in order, the messages the server sent. *)
Definition receive (c : OverlayClient.State Payload U)
  (messages : list (WebSocketBroadcaster.ServerMsg TipData)) : OverlayClient.State Payload U :=
  fold_left (fun c m => snd (onmessage (Some (parse json m)) c)) messages c.

End OverlayRuns.

Arguments Closed {Payload}.
Arguments Errored {Payload} error.
Arguments Received {Payload} data.
Arguments Ticked {Payload}.
Arguments Woke {Payload}.
Arguments Left {Payload}.
Arguments befall {Payload U} c i.
Arguments closes {Payload} incidents.
Arguments times_emitted {Payload} event h.
Arguments reconnect_view {Payload U} s.
Arguments receive {Payload U TipData} json c messages.

(** ** Sample data

    A runtime for ASCII text (where UTF-8 is the identity on bytes) with a
    primitive that accepts nothing, and the values the examples run on. *)

Module Samples.

Definition ascii_runtime : Runtime := {|
  utf8_encode := fun s => map byte_of_ascii (String.list_ascii_of_string s);
  utf8_toString := fun l => String.string_of_list_ascii (map ascii_of_byte l);
  crypto_sign_open := fun _ _ _ => false
|}.

(** The base-58 text of 32 zero bytes (the system program's address). *)
Definition address : string := "11111111111111111111111111111111".

(** The transaction of the specification's example: the target gains
    500000000 lamports, the payer loses them and the fee; the memo is the
    base-58 text of "gg". *)
Definition gift : TransactionParser.Transaction :=
  {| TransactionParser.slot := 7;
     TransactionParser.blockTime := Some 1700000000;
     TransactionParser.meta :=
       Some {| TransactionParser.preBalances :=
                 map TransactionParser.of_Z [2000000000; 100; 1];
               TransactionParser.postBalances :=
                 map TransactionParser.of_Z [1499995000; 500000100; 1] |};
     TransactionParser.transaction :=
       Some {| TransactionParser.accountKeys :=
                 ["payer"; "target"; TransactionParser.MEMO_PROGRAM_ID];
               TransactionParser.instructions :=
                 [ {| TransactionParser.programIdIndex := 2;
                      TransactionParser.data := "8sQ" |} ] |} |}.

Definition alice : MemoryAdapter.StreamerData :=
  {| MemoryAdapter.pubkey := address;
     MemoryAdapter.message := "Link streamer alice";
     MemoryAdapter.registeredAt := 0 |}.

(** An indexer that has just been constructed, with no handler; [u] is the
    state the handlers to come will act on. *)
Definition fresh_over {U : Type} (u : U) : TipIndexer.State U :=
  {| TipIndexer.storage :=
       {| MemoryAdapter.streamers := [("alice", alice)]; MemoryAdapter.lastSeen := ∅ |};
     TipIndexer.eventHandlers := ∅;
     TipIndexer.world := u;
     TipIndexer.history := [] |}.

Definition fresh : TipIndexer.State unit := fresh_over tt.

(** Two handlers that write a line to a log; the first one throws after
    writing. *)
Definition throwing_handler : TipIndexer.Handler (list string) :=
  fun data log => (Throw "handler failed", log ++ ["first: " +:+ TipIndexer.txHash data]).
Definition logging_handler : TipIndexer.Handler (list string) :=
  fun data log => (Return tt, log ++ ["second: " +:+ TipIndexer.txHash data]).

Definition tip_s1 : TipIndexer.TipData :=
  {| TipIndexer.streamerId := "alice";
     TipIndexer.streamerPubkey := address;
     TipIndexer.from := "payer";
     TipIndexer.amountLamports := TransactionParser.of_Z 1000000;
     TipIndexer.amountSol := TransactionParser.per_sol (TransactionParser.of_Z 1000000);
     TipIndexer.txHash := "s1";
     TipIndexer.slot := 42;
     TipIndexer.blockTime := Some 1700000000;
     TipIndexer.memo := None |}.

(** A transfer of 1000000 lamports to [address], with the memo instructions
    [memos]. *)
Definition credit (memos : list TransactionParser.Instruction) : TransactionParser.Transaction :=
  {| TransactionParser.slot := 42;
     TransactionParser.blockTime := Some 1700000000;
     TransactionParser.meta :=
       Some {| TransactionParser.preBalances := map TransactionParser.of_Z [5000000; 0; 1];
               TransactionParser.postBalances :=
                 map TransactionParser.of_Z [3995000; 1000000; 1] |};
     TransactionParser.transaction :=
       Some {| TransactionParser.accountKeys :=
                 ["payer"; address; TransactionParser.MEMO_PROGRAM_ID];
               TransactionParser.instructions := memos |} |}.

(** A memo instruction whose payload is not base-58 text, and one whose
    payload is the base-58 text of "gg". *)
Definition broken_memo : TransactionParser.Instruction :=
  {| TransactionParser.programIdIndex := 2; TransactionParser.data := "0" |}.
Definition gg_memo : TransactionParser.Instruction :=
  {| TransactionParser.programIdIndex := 2; TransactionParser.data := "8sQ" |}.

(** A ledger whose page is [page] whatever the bound, and on which every
    transaction is a transfer to [address]. *)
Definition ledger (page : list string) : TipIndexer.Connection :=
  {| TipIndexer.getSignaturesForAddress := fun _ _ _ => Return page;
     TipIndexer.getTransaction := fun _ => Return (Some (credit [])) |}.

(** A ledger that lists one signature and fails to deliver its transaction. *)
Definition failing_ledger : TipIndexer.Connection :=
  {| TipIndexer.getSignaturesForAddress := fun _ _ _ => Return ["sigA"];
     TipIndexer.getTransaction := fun _ => Throw "failed to get transaction" |}.

(** A broadcaster with budget 2 per 10 s and two open connections:
    connection 1 subscribed to "alice", connection 2 to "bob". *)
Definition studio : WebSocketBroadcaster.State string :=
  {| WebSocketBroadcaster.options :=
       WebSocketBroadcaster.resolve
         {| WebSocketBroadcaster.user_pingInterval := None;
            WebSocketBroadcaster.user_maxAlertsPerWindow := Some 2;
            WebSocketBroadcaster.user_alertWindowMs := Some 10000 |};
     WebSocketBroadcaster.clients := [1%nat; 2%nat];
     WebSocketBroadcaster.readyState := fun _ => 1;
     WebSocketBroadcaster.subscriptions :=
       <[1%nat := {["alice"]}]> (<[2%nat := {["bob"]}]> ∅);
     WebSocketBroadcaster.alertCounts := ∅;
     WebSocketBroadcaster.wire := [] |}.

(** A runtime for ASCII text whose primitive accepts a signature when its
    first 32 bytes are the key: a toy scheme to run the registry on. *)
Definition echo_runtime : Runtime := {|
  utf8_encode := fun s => map byte_of_ascii (String.list_ascii_of_string s);
  utf8_toString := fun l => String.string_of_list_ascii (map ascii_of_byte l);
  crypto_sign_open := fun _ signature key =>
    forallb (fun p => Byte.eqb (fst p) (snd p)) (combine (firstn 32 signature) key)
|}.

(** The base-58 text of 64 zero bytes: under [echo_runtime], a signature of
    any message for [address]. *)
Definition seal : string :=
  "1111111111111111111111111111111111111111111111111111111111111111".

(** A transaction whose balance arrays stop before the position of the
    target account. *)
Definition truncated : TransactionParser.Transaction :=
  {| TransactionParser.slot := 42;
     TransactionParser.blockTime := None;
     TransactionParser.meta :=
       Some {| TransactionParser.preBalances := map TransactionParser.of_Z [5000000];
               TransactionParser.postBalances := map TransactionParser.of_Z [3995000] |};
     TransactionParser.transaction :=
       Some {| TransactionParser.accountKeys := ["payer"; "target"];
               TransactionParser.instructions := [] |} |}.

(** An instruction whose program index names no account key. *)
Definition stray : TransactionParser.Instruction :=
  {| TransactionParser.programIdIndex := 7; TransactionParser.data := "" |}.

(** A clock that advances by one second from reading to reading. *)
Definition clock (n : nat) : Z := 1000 * Z.of_nat n.

(** An SDK on that clock whose server is there: budget 2 per 10 s, the
    relay as the only handler, and one open connection, subscribed to
    "alice". *)
Definition stage : TipIndexer.State SolanaTipSDK.World :=
  TipIndexer.on "tip" (SolanaTipSDK.relay clock)
    {| TipIndexer.storage :=
         {| MemoryAdapter.streamers := [("alice", alice)]; MemoryAdapter.lastSeen := ∅ |};
       TipIndexer.eventHandlers := ∅;
       TipIndexer.world :=
         {| SolanaTipSDK.broadcaster :=
              {| WebSocketBroadcaster.options :=
                   WebSocketBroadcaster.resolve
                     {| WebSocketBroadcaster.user_pingInterval := None;
                        WebSocketBroadcaster.user_maxAlertsPerWindow := Some 2;
                        WebSocketBroadcaster.user_alertWindowMs := Some 10000 |};
                 WebSocketBroadcaster.clients := [1%nat];
                 WebSocketBroadcaster.readyState := fun _ => 1;
                 WebSocketBroadcaster.subscriptions := <[1%nat := {["alice"]}]> ∅;
                 WebSocketBroadcaster.alertCounts := ∅;
                 WebSocketBroadcaster.wire := [] |};
            SolanaTipSDK.listening := true;
            SolanaTipSDK.reads := O |};
       TipIndexer.history := [] |}.

(** The overlay client of "alice", without handlers, once [connect] has run
    and its socket is open. *)
Definition overlay : OverlayClient.State JSON.Payload unit :=
  {| OverlayClient.streamerId := "alice";
     OverlayClient.ws := Some OverlayClient.OPEN;
     OverlayClient.reconnectAttempts := 0;
     OverlayClient.pingInterval := false;
     OverlayClient.eventHandlers := ∅;
     OverlayClient.connected := false;
     OverlayClient.world := tt;
     OverlayClient.intervals := O;
     OverlayClient.sent := [];
     OverlayClient.timeouts := [];
     OverlayClient.history := [] |}.

(** The studio of a caller who gave a budget of zero. *)
Definition muted : WebSocketBroadcaster.State string :=
  {| WebSocketBroadcaster.options :=
       WebSocketBroadcaster.resolve
         {| WebSocketBroadcaster.user_pingInterval := None;
            WebSocketBroadcaster.user_maxAlertsPerWindow := Some 0;
            WebSocketBroadcaster.user_alertWindowMs := None |};
     WebSocketBroadcaster.clients := [1%nat; 2%nat];
     WebSocketBroadcaster.readyState := fun _ => 1;
     WebSocketBroadcaster.subscriptions :=
       <[1%nat := {["alice"]}]> (<[2%nat := {["bob"]}]> ∅);
     WebSocketBroadcaster.alertCounts := ∅;
     WebSocketBroadcaster.wire := [] |}.

(** A transfer to an account that holds 1 lamport and ends with
    9007199254740994 (2^53 + 2). *)
Definition whale : TransactionParser.Transaction :=
  {| TransactionParser.slot := 42;
     TransactionParser.blockTime := None;
     TransactionParser.meta :=
       Some {| TransactionParser.preBalances :=
                 map TransactionParser.of_Z [9007199254745994; 1];
               TransactionParser.postBalances :=
                 map TransactionParser.of_Z [0; 9007199254740994] |};
     TransactionParser.transaction :=
       Some {| TransactionParser.accountKeys := ["payer"; "target"];
               TransactionParser.instructions := [] |} |}.

(** The target gains 100 lamports and no account of the list loses any. *)
Definition windfall : TransactionParser.Transaction :=
  {| TransactionParser.slot := 42;
     TransactionParser.blockTime := None;
     TransactionParser.meta :=
       Some {| TransactionParser.preBalances := map TransactionParser.of_Z [5; 0];
               TransactionParser.postBalances := map TransactionParser.of_Z [5; 100] |};
     TransactionParser.transaction :=
       Some {| TransactionParser.accountKeys := ["faucet"; "target"];
               TransactionParser.instructions := [] |} |}.

(** The target gains one lamport. *)
Definition dust : TransactionParser.Transaction :=
  {| TransactionParser.slot := 42;
     TransactionParser.blockTime := None;
     TransactionParser.meta :=
       Some {| TransactionParser.preBalances := map TransactionParser.of_Z [5001; 0];
               TransactionParser.postBalances := map TransactionParser.of_Z [0; 1] |};
     TransactionParser.transaction :=
       Some {| TransactionParser.accountKeys := ["payer"; "target"];
               TransactionParser.instructions := [] |} |}.

(** The broadcaster of an SDK, with budget 2 per 10 s and two open
    connections, the first one subscribed to "bob". *)
Definition hall : WebSocketBroadcaster.State TipIndexer.TipData :=
  {| WebSocketBroadcaster.options :=
       WebSocketBroadcaster.resolve
         {| WebSocketBroadcaster.user_pingInterval := None;
            WebSocketBroadcaster.user_maxAlertsPerWindow := Some 2;
            WebSocketBroadcaster.user_alertWindowMs := Some 10000 |};
     WebSocketBroadcaster.clients := [1%nat; 2%nat];
     WebSocketBroadcaster.readyState := fun _ => 1;
     WebSocketBroadcaster.subscriptions := <[1%nat := {["bob"]}]> ∅;
     WebSocketBroadcaster.alertCounts := ∅;
     WebSocketBroadcaster.wire := [] |}.

(** The tip the indexer makes of a transaction whose balance arrays stop
    before the position of the target account: its amounts are [NaN]. *)
Definition hollow : TipIndexer.TipData :=
  {| TipIndexer.streamerId := "alice";
     TipIndexer.streamerPubkey := address;
     TipIndexer.from := "payer";
     TipIndexer.amountLamports := TransactionParser.NaN;
     TipIndexer.amountSol := TransactionParser.NaN;
     TipIndexer.txHash := "s2";
     TipIndexer.slot := 42;
     TipIndexer.blockTime := None;
     TipIndexer.memo := None |}.

End Samples.

(** * Properties *)

(** ** bs58.decode and verifySignature *)

Section CryptoFacts.
Context `{Runtime}.

Lemma index_from_None c l i :
  Bs58.index_from c l i = None <-> c ∉ l.
Proof.
  revert i. induction l as [|a l IH]; intros i; simpl.
  - split; [intros _; apply not_elem_of_nil | done].
  - destruct (Ascii.eqb_spec a c) as [->|Hne].
    + split; [done | intros Hc; exfalso; apply Hc; left].
    + rewrite IH, not_elem_of_cons.
      split; [intros Hc; split; [congruence | exact Hc] | intros [_ Hc]; exact Hc].
Qed.

Lemma digits_Some_iff s :
  is_Some (Bs58.digits s) <-> is_base58 s.
Proof.
  unfold is_base58. induction s as [|c s IH]; simpl.
  - split; [intros _; constructor | eauto].
  - rewrite Forall_cons, <- IH. unfold Bs58.digit.
    destruct (Bs58.index_from c _ 0%N) eqn:Hc.
    + assert (c ∈ String.list_ascii_of_string Bs58.ALPHABET) as Hin.
      { destruct (decide (c ∈ String.list_ascii_of_string Bs58.ALPHABET)) as [|Hn]; [done|].
        apply (index_from_None c _ 0%N) in Hn. congruence. }
      destruct (Bs58.digits s) as [ds|].
      * split; [intros _; split; [exact Hin | eexists; reflexivity] | intros _; eexists; reflexivity].
      * split; [intros [? ?]; discriminate | intros [_ [? ?]]; discriminate].
    + apply index_from_None in Hc. split.
      * intros [? ?]; discriminate.
      * intros [Hin _]. contradiction.
Qed.

Lemma decode_throws_iff s :
  (exists e, Bs58.decode s = Throw e) <-> ~ is_base58 s.
Proof.
  rewrite <- digits_Some_iff. unfold Bs58.decode.
  destruct (Bs58.digits s); split.
  - intros [e He]; done.
  - intros Hn. exfalso. apply Hn. eauto.
  - intros _ [? ?]; done.
  - eauto.
Qed.

Lemma decode_returns_iff s :
  (exists bytes, Bs58.decode s = Return bytes) <-> is_base58 s.
Proof.
  rewrite <- digits_Some_iff. unfold Bs58.decode.
  destruct (Bs58.digits s); split; eauto.
  - intros [? ?]; done.
  - intros [? ?]; done.
Qed.

Lemma index_from_bound c l i n :
  Bs58.index_from c l i = Some n -> (n < i + N.of_nat (length l))%N.
Proof.
  revert i. induction l as [|a l IH]; intros i; simpl; [discriminate|].
  destruct (Ascii.eqb a c).
  - intros [= <-]. lia.
  - intros Hn. apply IH in Hn. lia.
Qed.

Lemma digits_bound s ds :
  Bs58.digits s = Some ds -> Forall (fun d => (d < 58)%N) ds /\ length ds = String.length s.
Proof.
  revert ds. induction s as [|c s IH]; intros ds; simpl.
  - intros [= <-]. split; [constructor | reflexivity].
  - destruct (Bs58.digit c) as [d|] eqn:Hd; [|discriminate].
    destruct (Bs58.digits s) as [ds'|]; [|discriminate].
    intros [= <-]. destruct (IH ds' eq_refl) as [Hall Hlen]. split.
    + constructor; [|exact Hall]. apply index_from_bound in Hd. exact Hd.
    + simpl. rewrite Hlen. reflexivity.
Qed.

Lemma value_bound ds acc :
  Forall (fun d => (d < 58)%N) ds ->
  (fold_left (fun acc d => acc * 58 + d) ds acc < (acc + 1) * 58 ^ N.of_nat (length ds))%N.
Proof.
  intros Hall. revert acc. induction Hall as [|d ds Hd _ IH]; intros acc; simpl length.
  - simpl. lia.
  - cbn [fold_left]. specialize (IH (acc * 58 + d)%N).
    rewrite Nat2N.inj_succ, N.pow_succ_r'.
    eapply N.lt_le_trans; [exact IH|].
    rewrite N.mul_assoc. apply N.mul_le_mono_r. lia.
Qed.

Lemma bytes_value_app bs acc :
  fold_left (fun acc b => (acc * 256 + N_of_ascii (ascii_of_byte b))%N) bs acc
  = (acc * 256 ^ N.of_nat (length bs) + bytes_value bs)%N.
Proof.
  unfold bytes_value. revert acc. induction bs as [|b bs IH]; intros acc; simpl length.
  - simpl. lia.
  - cbn [fold_left]. rewrite IH, (IH (0 * 256 + _)%N).
    rewrite Nat2N.inj_succ, N.pow_succ_r'. lia.
Qed.

Lemma be_bytes_value fuel n acc :
  (n < 256 ^ N.of_nat fuel)%N ->
  bytes_value (Bs58.be_bytes fuel n acc)
  = (n * 256 ^ N.of_nat (length acc) + bytes_value acc)%N.
Proof.
  revert n acc. induction fuel as [|fuel IH]; intros n acc Hn.
  - simpl in *. assert (n = 0%N) as -> by lia. lia.
  - cbn [Bs58.be_bytes]. destruct (N.eqb_spec n 0) as [->|Hpos]; [lia|].
    rewrite IH.
    + simpl length. rewrite Nat2N.inj_succ, N.pow_succ_r'.
      unfold bytes_value at 1. cbn [fold_left].
      rewrite bytes_value_app. unfold Bs58.byte_of_N.
      rewrite ascii_of_byte_of_ascii, N_ascii_embedding
        by (apply N.mod_lt; discriminate).
      rewrite (N.div_mod n 256) at 3 by discriminate. lia.
    + rewrite Nat2N.inj_succ, N.pow_succ_r' in Hn.
      apply N.Div0.div_lt_upper_bound. exact Hn.
Qed.

Lemma bytes_value_zeroes k bs :
  bytes_value (repeat x00 k ++ bs) = bytes_value bs.
Proof.
  induction k as [|k IH]; [reflexivity|].
  simpl repeat. unfold bytes_value in *. cbn [app fold_left]. exact IH.
Qed.

(** The decoder loses nothing: the bytes write, in base 256, the number the
    digits write in base 58 (the fuel of [be_bytes] is enough), behind one
    zero byte for each leading '1'. *)
Lemma decode_value s bytes :
  Bs58.decode s = Return bytes ->
  exists ds,
    Bs58.digits s = Some ds
    /\ bytes_value bytes = Bs58.value ds
    /\ take (Bs58.zeroes ds) bytes = repeat x00 (Bs58.zeroes ds).
Proof.
  unfold Bs58.decode. destruct (Bs58.digits s) as [ds|] eqn:Hds; [|discriminate].
  intros [= <-]. exists ds. split; [reflexivity|].
  destruct (digits_bound s ds Hds) as [Hall Hlen]. split.
  - rewrite bytes_value_zeroes, be_bytes_value.
    + simpl. unfold bytes_value. simpl. lia.
    + rewrite <- Hlen. unfold Bs58.value.
      eapply N.lt_le_trans; [apply (value_bound ds 0 Hall)|].
      rewrite N.mul_1_l. apply N.pow_le_mono_l. lia.
  - rewrite take_app_length' by (rewrite repeat_length; reflexivity). reflexivity.
Qed.

(** C6: [verifySignature] always returns a boolean and never throws; it
    returns false when the signature or the key is not base-58 text, and
    when a decoded buffer has not the length the scheme fixes (64 bytes for
    a signature, 32 for a public key); on well-sized buffers it returns what
    the primitive answers. *)
Theorem verifySignature_total_false_on_malformed :
  forall message signatureBase58 pubkeyBase58 : string,
    (exists b, Crypto.verifySignature message signatureBase58 pubkeyBase58 = Return b)
    /\ (~ is_base58 signatureBase58 \/ ~ is_base58 pubkeyBase58 ->
        Crypto.verifySignature message signatureBase58 pubkeyBase58 = Return false)
    /\ (forall sig key,
          Bs58.decode signatureBase58 = Return sig ->
          Bs58.decode pubkeyBase58 = Return key ->
          (length sig ≠ 64%nat \/ length key ≠ 32%nat ->
           Crypto.verifySignature message signatureBase58 pubkeyBase58 = Return false)
          /\ (length sig = 64%nat -> length key = 32%nat ->
              Crypto.verifySignature message signatureBase58 pubkeyBase58
              = Return (crypto_sign_open (utf8_encode message) sig key))).
Proof.
  intros message s k. unfold Crypto.verifySignature, Crypto.nacl_sign_detached_verify.
  repeat split.
  - destruct (Bs58.decode s) as [sig|]; simpl; [|eauto].
    destruct (Bs58.decode k) as [key|]; simpl; [|eauto].
    destruct (negb _); simpl; [eauto|]. destruct (negb _); simpl; eauto.
  - intros [Hs|Hk].
    + apply decode_throws_iff in Hs as [e ->]. done.
    + apply decode_throws_iff in Hk as [e ->].
      destruct (Bs58.decode s); done.
  - rewrite H0, H1; simpl. intros [Hs|Hk].
    + apply Nat.eqb_neq in Hs. unfold Crypto.crypto_sign_BYTES. rewrite Hs. done.
    + apply Nat.eqb_neq in Hk. unfold Crypto.crypto_sign_PUBLICKEYBYTES. rewrite Hk.
      destruct (negb _); done.
  - rewrite H0, H1; simpl. intros Hs Hk.
    unfold Crypto.crypto_sign_BYTES, Crypto.crypto_sign_PUBLICKEYBYTES.
    rewrite Hs, Hk. done.
Qed.

End CryptoFacts.

Section CryptoExamples.
Existing Instance Samples.ascii_runtime.

(** A signature with a character outside the alphabet, and one that decodes
    to two bytes, are both refused without an exception. *)
Lemma verifySignature_malformed_witness :
  Crypto.verifySignature "Link streamer alice" "0OIl" Samples.address = Return false
  /\ Crypto.verifySignature "Link streamer alice" "2JA" Samples.address = Return false.
Proof.
  split.
  - apply (verifySignature_total_false_on_malformed "Link streamer alice" "0OIl" Samples.address).
    left. intros Hb. apply decode_returns_iff in Hb as [? Hb]. vm_compute in Hb. discriminate.
  - eapply (verifySignature_total_false_on_malformed "Link streamer alice" "2JA" Samples.address).
    + vm_compute. reflexivity.
    + vm_compute. reflexivity.
    + left. vm_compute. lia.
Defined.

End CryptoExamples.

(** ** JavaScript numbers that hold integers *)

Section NumberFacts.
Import TransactionParser.

Lemma shl_add p n k : shl (shl p n) k = shl p (k + n).
Proof. unfold shl. rewrite Nat.iter_add. reflexivity. Qed.

Lemma iter_xO p d : Pos.iter xO p d = shl p (Pos.to_nat d).
Proof. unfold shl. apply Pos2Nat.inj_iter. Qed.

Lemma digits_shl p n :
  Zpos (digits2_pos (shl p n)) = Zpos (digits2_pos p) + Z.of_nat n.
Proof.
  induction n as [|n IH]; [cbn; lia|].
  change (shl p (S n)) with (xO (shl p n)). cbn [digits2_pos]. lia.
Qed.

Lemma Zpos_shl p n : Zpos (shl p n) = Zpos p * 2 ^ Z.of_nat n.
Proof.
  induction n as [|n IH]; [cbn; lia|].
  change (shl p (S n)) with (xO (shl p n)).
  rewrite Nat2Z.inj_succ, Z.pow_succ_r by lia. lia.
Qed.

(** A positive integer below 2^53 has at most 53 binary digits. *)
Lemma digits_safe p : Zpos p < 2 ^ 53 -> Zpos (digits2_pos p) <= 53.
Proof.
  intros Hp. destruct (Z.le_gt_cases (Zpos (digits2_pos p)) 53) as [Hle|Hgt]; [exact Hle|].
  exfalso.
  assert (forall q, 2 ^ Zpos (digits2_pos q) <= 2 * Zpos q) as Hsize.
  { induction q as [q IH|q IH|]; cbn [digits2_pos].
    - rewrite Pos2Z.inj_succ, Z.pow_succ_r by lia. lia.
    - rewrite Pos2Z.inj_succ, Z.pow_succ_r by lia. lia.
    - cbn. lia. }
  specialize (Hsize p).
  assert (2 ^ 54 <= 2 ^ Zpos (digits2_pos p)) by (apply Z.pow_le_mono_r; lia).
  lia.
Qed.

Lemma iter_pos_nat {A : Type} (f : A -> A) (p : positive) (x : A) :
  iter_pos f p x = Nat.iter (Pos.to_nat p) f x.
Proof.
  revert x. induction p as [p IH|p IH|]; intros x; cbn [iter_pos].
  - rewrite !IH, Pos2Nat.inj_xI, <- Nat.iter_add.
    replace (S (2 * Pos.to_nat p))%nat with (Pos.to_nat p + Pos.to_nat p + 1)%nat by lia.
    rewrite (Nat.iter_add (Pos.to_nat p + Pos.to_nat p) 1). reflexivity.
  - rewrite !IH, Pos2Nat.inj_xO, <- Nat.iter_add. f_equal. lia.
  - reflexivity.
Qed.

(** Shifting right a mantissa that ends in enough zeros loses nothing. *)
Lemma shr_exact (n j : nat) (p : positive) :
  Nat.iter n shr_1 {| shr_m := Zpos (shl p (n + j)); shr_r := false; shr_s := false |}
  = {| shr_m := Zpos (shl p j); shr_r := false; shr_s := false |}.
Proof.
  revert j. induction n as [|n IH]; intros j; [reflexivity|].
  cbn [Nat.iter nat_rect]. change (Nat.iter n shr_1 ?x) with (Nat.iter n shr_1 x).
  replace (S n + j)%nat with (n + S j)%nat by lia.
  unfold Nat.iter in IH. rewrite IH. reflexivity.
Qed.

(** A mantissa of 53 digits is kept as it is. *)
Lemma binary_round_aux_full (s : bool) (m : positive) (e : Z) :
  Zpos (digits2_pos m) = 53 -> -1074 <= e <= 971 ->
  binary_round_aux 53 1024 s (Zpos m) e loc_Exact = S754_finite s m e.
Proof.
  intros Hd He. unfold binary_round_aux, shr_fexp, fexp, emin. cbn [Zdigits2 shr_record_of_loc].
  rewrite Hd. replace (Z.max (53 + e - 53) (3 - 1024 - 53) - e) with 0 by lia.
  cbn [shr shr_m loc_of_shr_record round_nearest_even Zdigits2 shr_record_of_loc].
  rewrite Hd. replace (Z.max (53 + e - 53) (3 - 1024 - 53) - e) with 0 by lia.
  cbn [shr shr_m]. replace (e <=? 1024 - 53) with true by (symmetry; apply Z.leb_le; lia).
  reflexivity.
Qed.

(** Rounding [c * 2 ^ k] at exponent [- k], for [c] of at most 53 digits:
    the mantissa is [c] shifted to 53 digits. *)
Lemma binary_round_scaled (s : bool) (c : positive) (k : nat) :
  Zpos (digits2_pos c) <= 53 ->
  binary_round 53 1024 s (shl c k) (- Z.of_nat k)
  = S754_finite s (shl c (Z.to_nat (53 - Zpos (digits2_pos c)))) (Zpos (digits2_pos c) - 53).
Proof.
  intros Hd. unfold binary_round.
  assert (fexp 53 1024 (Zpos (digits2_pos (shl c k)) + - Z.of_nat k) = Zpos (digits2_pos c) - 53)
    as -> by (rewrite digits_shl; unfold fexp, emin; lia).
  unfold shl_align.
  destruct (Zpos (digits2_pos c) - 53 - - Z.of_nat k) as [|q|q] eqn:Hq.
  - replace k with (Z.to_nat (53 - Zpos (digits2_pos c))) at 1 2 by lia.
    replace (- Z.of_nat (Z.to_nat (53 - Zpos (digits2_pos c)))) with (Zpos (digits2_pos c) - 53) by lia.
    apply binary_round_aux_full; [rewrite digits_shl; lia | lia].
  - unfold binary_round_aux, shr_fexp. cbn [Zdigits2 shr_record_of_loc].
    assert (fexp 53 1024 (Zpos (digits2_pos (shl c k)) + - Z.of_nat k) - - Z.of_nat k = Zpos q)
      as -> by (rewrite digits_shl; unfold fexp, emin; lia).
    assert (iter_pos shr_1 q {| shr_m := Zpos (shl c k); shr_r := false; shr_s := false |}
            = {| shr_m := Zpos (shl c (Z.to_nat (53 - Zpos (digits2_pos c))));
                 shr_r := false; shr_s := false |}) as Hshift.
    { rewrite iter_pos_nat.
      replace k with (Pos.to_nat q + Z.to_nat (53 - Zpos (digits2_pos c)))%nat at 1 by lia.
      apply shr_exact. }
    cbn [shr]. rewrite Hshift. cbn [shr_m loc_of_shr_record round_nearest_even].
    replace (- Z.of_nat k + Zpos q) with (Zpos (digits2_pos c) - 53) by lia.
    unfold fexp, emin. cbn [Zdigits2 shr_record_of_loc]. rewrite digits_shl.
    replace (Z.max _ _ - _) with 0 by lia.
    cbn [shr shr_m]. replace (_ <=? 1024 - 53) with true by (symmetry; apply Z.leb_le; lia).
    reflexivity.
  - rewrite iter_xO, shl_add.
    replace (Pos.to_nat q + k)%nat with (Z.to_nat (53 - Zpos (digits2_pos c))) by lia.
    apply binary_round_aux_full; [rewrite digits_shl; lia | lia].
Qed.

Lemma of_Z_pos (p : positive) :
  Zpos p < 2 ^ 53 ->
  of_Z (Zpos p)
  = S754_finite false (shl p (Z.to_nat (53 - Zpos (digits2_pos p)))) (Zpos (digits2_pos p) - 53).
Proof.
  intros Hp. apply (binary_round_scaled false p 0), digits_safe, Hp.
Qed.

Lemma of_Z_neg (p : positive) :
  Zpos p < 2 ^ 53 ->
  of_Z (Zneg p)
  = S754_finite true (shl p (Z.to_nat (53 - Zpos (digits2_pos p)))) (Zpos (digits2_pos p) - 53).
Proof.
  intros Hp. apply (binary_round_scaled true p 0), digits_safe, Hp.
Qed.

(** The number of an integer below 2^53 in absolute value holds that
    integer. *)
Lemma integer_value_of_Z (z : Z) :
  Z.abs z < 2 ^ 53 -> integer_value (of_Z z) = Some z.
Proof.
  intros Hz.
  assert (forall s p, Zpos p < 2 ^ 53 ->
            integer_value (S754_finite s (shl p (Z.to_nat (53 - Zpos (digits2_pos p))))
                             (Zpos (digits2_pos p) - 53))
            = Some (cond_Zopp s (Zpos p))) as Hfin.
  { intros s p Hp. pose proof (digits_safe p Hp) as Hd. unfold integer_value.
    rewrite Zpos_shl, Z2Nat.id by lia.
    destruct (Z.leb_spec 0 (Zpos (digits2_pos p) - 53)) as [Hfull|Hpart].
    - replace (Zpos (digits2_pos p) - 53) with 0 by lia.
      replace (53 - Zpos (digits2_pos p)) with 0 by lia. rewrite Z.pow_0_r, !Z.mul_1_r.
      reflexivity.
    - replace (- (Zpos (digits2_pos p) - 53)) with (53 - Zpos (digits2_pos p)) by lia.
      rewrite Z.mod_mul, Z.div_mul by (apply Z.pow_nonzero; lia). reflexivity. }
  destruct z as [|p|p]; [reflexivity| |].
  - rewrite of_Z_pos by exact Hz. apply (Hfin false). exact Hz.
  - rewrite of_Z_neg by exact Hz. apply (Hfin true). exact Hz.
Qed.

(** The difference of two balances below 2^53 is exact. *)
Lemma sub_of_Z (a b : Z) :
  0 <= a < 2 ^ 53 -> 0 <= b < 2 ^ 53 ->
  SFsub 53 1024 (of_Z b) (of_Z a) = of_Z (b - a).
Proof.
  intros Ha Hb. destruct a as [|a|a]; [| |lia]; destruct b as [|b|b]; try lia.
  - reflexivity.
  - rewrite Z.sub_0_r. destruct (of_Z (Zpos b)) eqn:E; try reflexivity.
    rewrite of_Z_pos in E by lia. discriminate.
  - rewrite Z.sub_0_l. change (- Zpos a) with (Zneg a).
    rewrite of_Z_pos, of_Z_neg by lia. reflexivity.
  - pose proof (digits_safe a ltac:(lia)) as Hda. pose proof (digits_safe b ltac:(lia)) as Hdb.
    rewrite (of_Z_pos a), (of_Z_pos b) by lia. cbn [SFsub cond_Zopp].
    set (da := Zpos (digits2_pos a)) in *. set (db := Zpos (digits2_pos b)) in *.
    set (K := Z.to_nat (53 - Z.min da db)).
    assert (Z.min (db - 53) (da - 53) = - Z.of_nat K) as -> by lia.
    assert (fst (shl_align (shl b (Z.to_nat (53 - db))) (db - 53) (- Z.of_nat K)) = shl b K) as ->.
    { unfold shl_align. destruct (- Z.of_nat K - (db - 53)) as [|q|q] eqn:Hq; cbn [fst].
      - f_equal. lia.
      - lia.
      - rewrite iter_xO, shl_add. f_equal. lia. }
    assert (fst (shl_align (shl a (Z.to_nat (53 - da))) (da - 53) (- Z.of_nat K)) = shl a K) as ->.
    { unfold shl_align. destruct (- Z.of_nat K - (da - 53)) as [|q|q] eqn:Hq; cbn [fst].
      - f_equal. lia.
      - lia.
      - rewrite iter_xO, shl_add. f_equal. lia. }
    pose proof (Zpos_shl a K) as HaK. pose proof (Zpos_shl b K) as HbK.
    assert (0 < 2 ^ Z.of_nat K) as Hpow by (apply Z.pow_pos_nonneg; lia).
    destruct (Zpos b - Zpos a) as [|c|c] eqn:Hc.
    + replace (Zpos (shl b K) - Zpos (shl a K)) with 0 by nia. reflexivity.
    + pose proof (Zpos_shl c K) as HcK.
      replace (Zpos (shl b K) - Zpos (shl a K)) with (Zpos (shl c K)) by nia.
      cbn [binary_normalize]. rewrite binary_round_scaled by (apply digits_safe; lia).
      rewrite of_Z_pos by lia. reflexivity.
    + pose proof (Zpos_shl c K) as HcK.
      replace (Zpos (shl b K) - Zpos (shl a K)) with (Zneg (shl c K))
        by (change (Zneg (shl c K)) with (- Zpos (shl c K)); nia).
      cbn [binary_normalize]. rewrite binary_round_scaled by (apply digits_safe; lia).
      rewrite of_Z_neg by lia. reflexivity.
Qed.

(** [n <= 0] on the number of an integer below 2^53 in absolute value. *)
Lemma leb_of_Z (z : Z) :
  Z.abs z < 2 ^ 53 -> SFleb (of_Z z) (S754_zero false) = (z <=? 0).
Proof.
  intros Hz. destruct z as [|p|p]; [reflexivity| |].
  - rewrite of_Z_pos by exact Hz. reflexivity.
  - rewrite of_Z_neg by exact Hz. reflexivity.
Qed.

End NumberFacts.

(** ** parseTipTransaction *)

Section ParserFacts.
Import TransactionParser.

Lemma indexOf_None keys target :
  indexOf keys target = None <-> target ∉ keys.
Proof.
  induction keys as [|k keys IH]; simpl.
  - split; [intros _; apply not_elem_of_nil | reflexivity].
  - rewrite not_elem_of_cons. destruct (String.eqb_spec k target) as [->|Hne].
    + split; [discriminate | intros [Hc _]; contradiction].
    + destruct (indexOf keys target) eqn:Hi.
      * split; [discriminate|]. intros [_ Hn]. apply IH in Hn. discriminate.
      * split; [|reflexivity]. intros _. split; [congruence | apply IH; reflexivity].
Qed.

Lemma indexOf_Some keys target i :
  indexOf keys target = Some i ->
  keys !! i = Some target /\ forall j, (j < i)%nat -> keys !! j ≠ Some target.
Proof.
  revert i. induction keys as [|k keys IH]; simpl; intros i; [discriminate|].
  destruct (String.eqb_spec k target) as [->|Hne].
  - intros [= <-]. split; [reflexivity | intros j Hj; lia].
  - destruct (indexOf keys target) as [i'|] eqn:Hi; [|discriminate].
    intros [= <-]. destruct (IH i' eq_refl) as [Hk Hfirst]. split; [exact Hk|].
    intros [|j] Hj; simpl; [congruence | apply Hfirst; lia].
Qed.

Lemma indexOf_is_Some keys target :
  target ∈ keys -> exists i, indexOf keys target = Some i.
Proof.
  intros Hin. destruct (indexOf keys target) as [i|] eqn:Hi; [eauto|].
  apply indexOf_None in Hi. contradiction.
Qed.

Lemma greater_decreased m j :
  greater (preBalances m !! j) (postBalances m !! j) = true <-> decreased m j.
Proof.
  unfold greater, decreased.
  destruct (preBalances m !! j) as [a|], (postBalances m !! j) as [b|]; split;
    try discriminate; try (intros (? & ? & ? & ? & ?); discriminate).
  - intros Hlt. eauto.
  - intros (a' & b' & [= <-] & [= <-] & Hlt). exact Hlt.
Qed.

(** The sender loop entered at index [i]: it stops at the first account from
    [i] on that lost balance and is not the target, or ends with 'unknown'. *)
Lemma findSender_spec m targetIndex keys i :
  (exists j k, keys !! j = Some k
     /\ decreased m (i + j) /\ (i + j)%nat ≠ targetIndex
     /\ (forall j', (j' < j)%nat -> ~ (decreased m (i + j') /\ (i + j')%nat ≠ targetIndex))
     /\ findSender m targetIndex i keys = k)
  \/ ((forall j', (j' < length keys)%nat -> ~ (decreased m (i + j') /\ (i + j')%nat ≠ targetIndex))
      /\ findSender m targetIndex i keys = "unknown").
Proof.
  revert i. induction keys as [|k keys IH]; intros i; simpl.
  - right. split; [intros j' Hj'; lia | reflexivity].
  - destruct (greater _ _ && negb (i =? targetIndex)%nat) eqn:Hhit.
    + left. exists O, k. apply andb_true_iff in Hhit as [Hg Hne].
      apply greater_decreased in Hg. apply negb_true_iff, Nat.eqb_neq in Hne.
      rewrite Nat.add_0_r. repeat split; try assumption. intros j' Hj'; lia.
    + assert (~ (decreased m i /\ i ≠ targetIndex)) as Hmiss.
      { intros [Hd Hne]. apply greater_decreased in Hd. rewrite Hd in Hhit.
        apply Nat.eqb_neq in Hne. rewrite Hne in Hhit. discriminate. }
      destruct (IH (S i)) as [(j & k' & Hk & Hd & Hne & Hfirst & Hs)|[Hnone Hs]].
      * left. exists (S j), k'. replace (i + S j)%nat with (S i + j)%nat by lia.
        repeat split; try assumption.
        intros [|j'] Hj'; [rewrite Nat.add_0_r; exact Hmiss|].
        replace (i + S j')%nat with (S i + j')%nat by lia. apply Hfirst. lia.
      * right. split; [|exact Hs].
        intros [|j'] Hj'; [rewrite Nat.add_0_r; exact Hmiss|].
        replace (i + S j')%nat with (S i + j')%nat by lia. apply Hnone. lia.
Qed.

(** C4, as the code has it: on a transaction whose account list holds the
    target, [parseTipTransaction] returns null when the difference of the
    two balances at the target's position is zero or less, and an event
    whose [amountLamports] is that difference otherwise; it returns null
    when the target is not in the account list.  The difference is the one
    of two JavaScript numbers: it is exactly the delta [post - pre] when
    both balances are integers below 2^53. *)
Theorem parseTipTransaction_balance_delta :
  forall (t : Transaction) (m : Meta) (msg : Message) (target : string),
    meta t = Some m ->
    transaction t = Some msg ->
    (target ∉ accountKeys msg -> parseTipTransaction (Some t) target = Return None)
    /\ (target ∈ accountKeys msg ->
        exists targetIndex,
          indexOf (accountKeys msg) target = Some targetIndex
          /\ accountKeys msg !! targetIndex = Some target
          /\ (forall pre post : Z,
                0 <= pre < 2 ^ 53 -> 0 <= post < 2 ^ 53 ->
                preBalances m !! targetIndex = Some (of_Z pre) ->
                postBalances m !! targetIndex = Some (of_Z post) ->
                (post - pre <= 0 -> parseTipTransaction (Some t) target = Return None)
                /\ (0 < post - pre ->
                    exists tip, parseTipTransaction (Some t) target = Return (Some tip)
                                /\ amountLamports tip = of_Z (post - pre)
                                /\ integer_value (amountLamports tip) = Some (post - pre)))
          /\ (forall pre post : number,
                preBalances m !! targetIndex = Some pre ->
                postBalances m !! targetIndex = Some post ->
                (le_zero (SFsub 53 1024 post pre) = true ->
                 parseTipTransaction (Some t) target = Return None)
                /\ (le_zero (SFsub 53 1024 post pre) = false ->
                    exists tip, parseTipTransaction (Some t) target = Return (Some tip)
                                /\ amountLamports tip = SFsub 53 1024 post pre))).
Proof.
  intros t m msg target Hm Hmsg. unfold parseTipTransaction. rewrite Hm, Hmsg. split.
  - intros Hout. apply indexOf_None in Hout. rewrite Hout. reflexivity.
  - intros Hin. destruct (indexOf_is_Some _ _ Hin) as [i Hi]. exists i.
    rewrite Hi. split; [reflexivity|].
    split; [apply (indexOf_Some _ _ _ Hi)|]. split.
    + intros pre post Hsafe Hsafe' Hpre Hpost. rewrite Hpre, Hpost. cbn [minus].
      rewrite sub_of_Z by assumption. unfold le_zero.
      rewrite leb_of_Z by lia. split; intros Hdelta.
      * apply Z.leb_le in Hdelta. rewrite Hdelta. reflexivity.
      * apply Z.leb_gt in Hdelta. rewrite Hdelta. eexists. split; [reflexivity|].
        split; [reflexivity|]. apply integer_value_of_Z. lia.
    + intros pre post Hpre Hpost. rewrite Hpre, Hpost. cbn [minus].
      split; intros ->; [reflexivity|]. eexists. split; reflexivity.
Qed.

(** The example of the specification: a gain of 500000000 lamports. *)
Lemma parseTipTransaction_balance_delta_witness :
  exists tip, parseTipTransaction (Some Samples.gift) "target" = Return (Some tip)
              /\ amountLamports tip = of_Z 500000000
              /\ integer_value (amountLamports tip) = Some 500000000.
Proof.
  destruct (parseTipTransaction_balance_delta Samples.gift
              {| preBalances := map of_Z [2000000000; 100; 1];
                 postBalances := map of_Z [1499995000; 500000100; 1] |}
              {| accountKeys := ["payer"; "target"; MEMO_PROGRAM_ID];
                 instructions := [ {| programIdIndex := 2; data := "8sQ" |} ] |}
              "target" eq_refl eq_refl) as [_ Hin].
  destruct Hin as (i & Hi & _ & Hdelta & _).
  - apply list_elem_of_In. simpl. right. left. reflexivity.
  - vm_compute in Hi. injection Hi as <-.
    destruct (Hdelta 100 500000100 ltac:(lia) ltac:(lia) eq_refl eq_refl) as [_ Hpos].
    apply Hpos. lia.
Defined.

(** The target's balance goes from 1 to 9007199254740994 lamports, two
    integers that JavaScript numbers hold: the delta is 9007199254740993 and
    the event says 9007199254740992. *)
Lemma large_balance_delta_is_rounded :
  (exists m, meta Samples.whale = Some m
             /\ omap integer_value (preBalances m) = [9007199254745994; 1]
             /\ omap integer_value (postBalances m) = [0; 9007199254740994])
  /\ 9007199254740994 - 1 = 9007199254740993
  /\ exists tip, parseTipTransaction (Some Samples.whale) "target" = Return (Some tip)
                 /\ integer_value (amountLamports tip) = Some 9007199254740992.
Proof.
  split; [eexists; split; [reflexivity|]; split; vm_compute; reflexivity|].
  split; [reflexivity|]. eexists. split; vm_compute; reflexivity.
Qed.

(** C5: a transaction that passes the tests of the parser (its meta and
    message are there, the target is in the account list and its balance
    change is not zero or less) yields an event, and every event comes from
    such a transaction.  The [from] of the event is the key of the first
    account of the list, the target's position apart, whose balance went
    down; when there is none, the event is returned all the same and its
    [from] is 'unknown'. *)
Theorem parseTipTransaction_sender :
  forall (t : Transaction) (target : string),
    (forall m msg targetIndex,
       meta t = Some m -> transaction t = Some msg ->
       indexOf (accountKeys msg) target = Some targetIndex ->
       le_zero (minus (postBalances m !! targetIndex) (preBalances m !! targetIndex)) = false ->
       exists tip,
         parseTipTransaction (Some t) target = Return (Some tip)
         /\ ((exists j, first_decreased m (accountKeys msg) targetIndex j
                        /\ accountKeys msg !! j = Some (from tip))
             \/ ((forall j, (j < length (accountKeys msg))%nat ->
                            ~ (decreased m j /\ j ≠ targetIndex))
                 /\ from tip = "unknown")))
    /\ (forall tip,
          parseTipTransaction (Some t) target = Return (Some tip) ->
          exists m msg targetIndex,
            meta t = Some m /\ transaction t = Some msg
            /\ indexOf (accountKeys msg) target = Some targetIndex
            /\ le_zero (minus (postBalances m !! targetIndex) (preBalances m !! targetIndex))
               = false).
Proof.
  intros t target. split.
  - intros m msg i Hm Hmsg Hi Hchange. unfold parseTipTransaction.
    rewrite Hm, Hmsg, Hi, Hchange. eexists. split; [reflexivity|]. cbn [from].
    destruct (findSender_spec m i (accountKeys msg) O)
      as [(j & k & Hk & Hd & Hne & Hfirst & Hs)|[Hnone Hs]]; simpl in *.
    + left. exists j. rewrite Hs. split; [|exact Hk].
      repeat split; try assumption. apply lookup_lt_Some in Hk. exact Hk.
    + right. split; assumption.
  - intros tip. unfold parseTipTransaction.
    destruct (meta t) as [m|]; [|discriminate].
    destruct (transaction t) as [msg|]; [|discriminate].
    destruct (indexOf (accountKeys msg) target) as [i|] eqn:Hi; [|discriminate].
    destruct (le_zero _) eqn:Hchange; [discriminate|]. intros _.
    exists m, msg, i. repeat split; assumption.
Qed.

(** The payer of the specification's example, and a gain that no account
    paid for. *)
Lemma parseTipTransaction_sender_witness :
  (exists tip, parseTipTransaction (Some Samples.gift) "target" = Return (Some tip)
               /\ from tip = "payer")
  /\ (exists tip, parseTipTransaction (Some Samples.windfall) "target" = Return (Some tip)
                  /\ from tip = "unknown").
Proof.
  split.
  - destruct (parseTipTransaction_sender Samples.gift "target") as [Hyields _].
    destruct (Hyields
                {| preBalances := map of_Z [2000000000; 100; 1];
                   postBalances := map of_Z [1499995000; 500000100; 1] |}
                {| accountKeys := ["payer"; "target"; MEMO_PROGRAM_ID];
                   instructions := [ {| programIdIndex := 2; data := "8sQ" |} ] |}
                1%nat eq_refl eq_refl eq_refl eq_refl) as (tip & Hparse & _).
    exists tip. split; [exact Hparse|].
    vm_compute in Hparse. injection Hparse as <-. reflexivity.
  - destruct (parseTipTransaction_sender Samples.windfall "target") as [Hyields _].
    destruct (Hyields
                {| preBalances := map of_Z [5; 0]; postBalances := map of_Z [5; 100] |}
                {| accountKeys := ["faucet"; "target"]; instructions := [] |}
                1%nat eq_refl eq_refl eq_refl eq_refl) as (tip & Hparse & _).
    exists tip. split; [exact Hparse|].
    vm_compute in Hparse. injection Hparse as <-. reflexivity.
Defined.

End ParserFacts.

(** ** The indexer: emit, processTransaction, checkStreamerTips *)

Section IndexerFacts.
Context `{Runtime}.
Variable U : Type.
Import TipIndexer.

Local Abbreviation State := (TipIndexer.State U).
Local Abbreviation Handler := (TipIndexer.Handler U).

Lemma for_of_handlers (hs : list Handler) (data : TipData) (s : State) :
  for_of hs (fun handler => try_catch (call handler data) (fun _ => ret tt)) s
  = (Return tt, {| storage := storage s; eventHandlers := eventHandlers s;
                   world := handled hs data (world s); history := history s |}).
Proof.
  revert s. induction hs as [|h hs IH]; intros s; simpl.
  - destruct s; reflexivity.
  - unfold bind, try_catch, call at 1. destruct (h data (world s)) as [[[]|e] u]; simpl;
      rewrite IH; reflexivity.
Qed.

Lemma emit_spec (event : string) (data : TipData) (s : State) :
  emit event data s = (Return tt, after_emit event data s).
Proof.
  unfold emit, bind, modify, get. simpl. rewrite for_of_handlers. reflexivity.
Qed.

Lemma on_handlers (event : string) (hs : list Handler) (s : State) :
  let s' := fold_left (fun s handler => on event handler s) hs s in
  default [] (eventHandlers s' !! event) = default [] (eventHandlers s !! event) ++ hs
  /\ storage s' = storage s /\ world s' = world s /\ history s' = history s.
Proof.
  revert s. induction hs as [|h hs IH]; intros s; simpl.
  - rewrite app_nil_r. repeat split.
  - destruct (IH (on event h s)) as (Hh & Hs & Hw & Hi). simpl in *.
    rewrite Hh, Hs, Hw, Hi. unfold on; simpl. rewrite lookup_insert_eq. simpl.
    rewrite <- app_assoc. repeat split.
Qed.

(** C7: after the handlers [hs] have been registered with [on 'tip'] in this
    order (behind those already registered), [emit 'tip'] returns normally
    (no exception reaches the caller) and every registered handler has run
    on the same event data, in registration order, whether or not an earlier
    one threw. *)
Theorem emit_invokes_every_handler :
  forall (s0 : State) (hs : list Handler) (data : TipData),
    let s := fold_left (fun s handler => on "tip" handler s) hs s0 in
    let registered := default [] (eventHandlers s0 !! "tip") ++ hs in
    emit "tip" data s
    = (Return tt,
       {| storage := storage s0; eventHandlers := eventHandlers s;
          world := fold_left (fun u handler => snd (handler data u)) registered (world s0);
          history := history s0 ++ [Emitted "tip" data] |}).
Proof.
  intros s0 hs data s registered. rewrite emit_spec. unfold after_emit.
  destruct (on_handlers "tip" hs s0) as (Hh & Hs & Hw & Hi). fold s in Hh, Hs, Hw, Hi.
  rewrite Hh, Hs, Hw, Hi. reflexivity.
Qed.

Lemma or_absent_idemp (o : option string) : or_absent (or_absent o) = or_absent o.
Proof.
  unfold or_absent. destruct (truthy_opt o) eqn:Ht; [rewrite Ht|]; reflexivity.
Qed.

Lemma processTransaction_spec connection streamerId pubkey signature (s : State) :
  processTransaction connection streamerId pubkey signature s
  = (Return tt, after_process connection streamerId pubkey signature s).
Proof.
  unfold processTransaction, after_process, detect, try_catch, bind, lift, ret.
  destruct (getTransaction connection signature) as [[t|]|e]; try reflexivity.
  destruct (TransactionParser.meta t); try reflexivity.
  destruct (TransactionParser.parseTipTransaction (Some t) pubkey) as [[tip|]|e];
    try reflexivity.
  destruct (TransactionParser.extractMemo (Some t)) as [memo|e]; try reflexivity.
  rewrite emit_spec. reflexivity.
Qed.

Lemma for_of_signatures connection streamerId pubkey lastSeen (l : list string) (s : State) :
  for_of l (fun signature =>
    if same_signature signature lastSeen then ret tt
    else bind (processTransaction connection streamerId pubkey signature)
              (fun _ => updateLastSeen pubkey signature)) s
  = (Return tt,
     fold_left (fun s signature =>
                  after_update pubkey signature
                    (after_process connection streamerId pubkey signature s))
               (filter (fun signature => same_signature signature lastSeen = false) l) s).
Proof.
  revert s. induction l as [|sig l IH]; intros s; simpl; [reflexivity|].
  unfold bind at 1. destruct (same_signature sig lastSeen) eqn:Hsame.
  - rewrite filter_cons_False by (rewrite Hsame; discriminate). simpl. apply IH.
  - rewrite filter_cons_True by exact Hsame. simpl.
    unfold bind at 1. rewrite processTransaction_spec.
    unfold updateLastSeen, modify. rewrite IH. reflexivity.
Qed.

(** One cycle for one recipient, when the address is well formed and the
    ledger answers with [page]. *)
Lemma checkStreamerTips_spec connection limit streamerId streamerData (s : State) key page :
  let pubkey := MemoryAdapter.pubkey streamerData in
  let lastSeen := MemoryAdapter.getLastSeen pubkey (storage s) in
  PublicKey pubkey = Return key ->
  getSignaturesForAddress connection key lastSeen limit = Return page ->
  checkStreamerTips connection limit streamerId streamerData s
  = (Return tt,
     fold_left (fun s signature =>
                  after_update pubkey signature
                    (after_process connection streamerId pubkey signature s))
               (todo lastSeen page) s).
Proof.
  intros pubkey lastSeen Hkey Hpage.
  unfold checkStreamerTips, try_catch, bind at 1, getLastSeen.
  fold pubkey. fold lastSeen. unfold bind at 1, lift. rewrite Hkey.
  unfold bind at 1.
  assert (or_absent lastSeen = lastSeen) as ->.
  { unfold lastSeen, MemoryAdapter.getLastSeen. apply or_absent_idemp. }
  rewrite Hpage. rewrite for_of_signatures. reflexivity.
Qed.

(** A cycle that cannot start (ill-formed address, or the ledger call
    failed) changes nothing and throws nothing. *)
Lemma checkStreamerTips_failed_fetch connection limit streamerId streamerData (s : State) :
  let pubkey := MemoryAdapter.pubkey streamerData in
  let lastSeen := MemoryAdapter.getLastSeen pubkey (storage s) in
  (forall key page, PublicKey pubkey = Return key ->
     getSignaturesForAddress connection key lastSeen limit ≠ Return page) ->
  checkStreamerTips connection limit streamerId streamerData s = (Return tt, s).
Proof.
  intros pubkey lastSeen Hfail.
  unfold checkStreamerTips, try_catch, bind at 1, getLastSeen.
  fold pubkey. fold lastSeen. unfold bind at 1, lift.
  destruct (PublicKey pubkey) as [key|e] eqn:Hkey; [|reflexivity].
  unfold bind at 1.
  assert (or_absent lastSeen = lastSeen) as ->.
  { unfold lastSeen, MemoryAdapter.getLastSeen. apply or_absent_idemp. }
  destruct (getSignaturesForAddress connection key lastSeen limit) as [page|e] eqn:Hpage;
    [|reflexivity].
  exfalso. exact (Hfail key page eq_refl Hpage).
Qed.

Lemma fold_steps connection streamerId pubkey (l : list string) (s : State) :
  let s' := fold_left (fun s signature =>
                         after_update pubkey signature
                           (after_process connection streamerId pubkey signature s)) l s in
  history s' = history s ++ flat_map (steps connection streamerId pubkey) l
  /\ MemoryAdapter.lastSeen (storage s') !! pubkey
     = match last l with
       | Some signature => Some signature
       | None => MemoryAdapter.lastSeen (storage s) !! pubkey
       end
  /\ eventHandlers s' = eventHandlers s.
Proof.
  revert s. induction l as [|sig l IH]; intros s.
  - simpl. rewrite app_nil_r. repeat split.
  - destruct (IH (after_update pubkey sig (after_process connection streamerId pubkey sig s)))
      as (Hh & Hc & He).
    cbn [fold_left flat_map]. rewrite Hh, Hc, He, last_cons.
    unfold steps, after_process, after_update. split; [|split].
    + destruct (detect connection streamerId pubkey sig); simpl;
        rewrite <- ?app_assoc; reflexivity.
    + destruct (last l); [reflexivity|]. simpl. apply lookup_insert_eq.
    + destruct (detect connection streamerId pubkey sig); reflexivity.
Qed.

(** C1, as the code has it: in a cycle whose page is [page], every signature
    of the page other than the cursor read at the start gets the cursor
    written to it, right after the event for it (if any) was emitted, also
    when fetching or parsing its transaction failed (nothing is emitted for
    it then); the cycle ends with the cursor on the last of them and throws
    nothing. *)
Theorem checkStreamerTips_writes_cursor_after_emission :
  forall connection limit streamerId streamerData (s : State) key page,
    let pubkey := MemoryAdapter.pubkey streamerData in
    let lastSeen := MemoryAdapter.getLastSeen pubkey (storage s) in
    PublicKey pubkey = Return key ->
    getSignaturesForAddress connection key lastSeen limit = Return page ->
    exists s',
      checkStreamerTips connection limit streamerId streamerData s = (Return tt, s')
      /\ history s'
         = history s ++ flat_map (steps connection streamerId pubkey) (todo lastSeen page)
      /\ MemoryAdapter.lastSeen (storage s') !! pubkey
         = match last (todo lastSeen page) with
           | Some signature => Some signature
           | None => MemoryAdapter.lastSeen (storage s) !! pubkey
           end
      /\ (forall signature,
            signature ∈ todo lastSeen page -> CursorWritten pubkey signature ∈ history s')
      /\ (forall signature e,
            getTransaction connection signature = Throw e ->
            steps connection streamerId pubkey signature = [CursorWritten pubkey signature])
      /\ (forall signature t e,
            getTransaction connection signature = Return (Some t) ->
            TransactionParser.parseTipTransaction (Some t) pubkey = Throw e ->
            steps connection streamerId pubkey signature = [CursorWritten pubkey signature]).
Proof.
  intros connection limit streamerId streamerData s key page pubkey lastSeen Hkey Hpage.
  eexists. split; [apply (checkStreamerTips_spec _ _ _ _ _ key page Hkey Hpage)|].
  destruct (fold_steps connection streamerId pubkey (todo lastSeen page) s) as (Hh & Hc & _).
  fold pubkey lastSeen. split; [exact Hh|]. split; [exact Hc|]. split; [|split].
  - intros signature Hin. rewrite Hh. apply elem_of_app. right.
    apply list_elem_of_In, in_flat_map. exists signature.
    split; [apply list_elem_of_In; exact Hin|].
    unfold steps. destruct (detect _ _ _ _); simpl; tauto.
  - intros signature e Hthrow. unfold steps, detect. rewrite Hthrow. reflexivity.
  - intros signature t e Htx Hparse. unfold steps, detect. rewrite Htx, Hparse.
    destruct (TransactionParser.meta t); reflexivity.
Qed.

Lemma fold_streamers connection streamerId pubkey (l : list string) (s : State) :
  MemoryAdapter.streamers
    (storage (fold_left (fun s signature =>
                           after_update pubkey signature
                             (after_process connection streamerId pubkey signature s)) l s))
  = MemoryAdapter.streamers (storage s).
Proof.
  revert s. induction l as [|sig l IH]; intros s; [reflexivity|].
  cbn [fold_left]. rewrite IH. unfold after_update, after_process.
  destruct (detect connection streamerId pubkey sig); reflexivity.
Qed.

(** A cycle throws nothing and leaves the registry as it was. *)
Lemma checkStreamerTips_returns connection limit streamerId streamerData (s : State) :
  fst (checkStreamerTips connection limit streamerId streamerData s) = Return tt
  /\ MemoryAdapter.streamers
       (storage (snd (checkStreamerTips connection limit streamerId streamerData s)))
     = MemoryAdapter.streamers (storage s).
Proof.
  destruct (PublicKey (MemoryAdapter.pubkey streamerData)) as [key|e] eqn:Hkey.
  - destruct (getSignaturesForAddress connection key
                (MemoryAdapter.getLastSeen (MemoryAdapter.pubkey streamerData) (storage s)) limit)
      as [page|e] eqn:Hpage.
    + rewrite (checkStreamerTips_spec _ _ _ _ _ key page Hkey Hpage).
      split; [reflexivity | apply fold_streamers].
    + rewrite checkStreamerTips_failed_fetch; [split; reflexivity|].
      intros key' page'. rewrite Hkey. intros [= <-]. rewrite Hpage. discriminate.
  - rewrite checkStreamerTips_failed_fetch; [split; reflexivity|].
    intros key' page'. rewrite Hkey. discriminate.
Qed.

(** X2: one [poll] runs the cycle of every registered recipient, in the
    order of the registry, whatever happened in the cycles before it, and
    throws nothing. *)
Theorem poll_runs_every_recipient :
  forall connection limit (s : State),
    poll connection limit s
    = (Return tt,
       fold_left (fun s entry =>
                    snd (checkStreamerTips connection limit (fst entry) (snd entry) s))
                 (MemoryAdapter.getAllStreamers (storage s)) s).
Proof.
  intros connection limit s. unfold poll, try_catch, bind, get.
  generalize (MemoryAdapter.getAllStreamers (storage s)). intros l.
  revert s. induction l as [|entry l IH]; intros s; [reflexivity|].
  simpl. unfold bind at 1.
  destruct (checkStreamerTips_returns connection limit (fst entry) (snd entry) s) as [Hret _].
  destruct (checkStreamerTips connection limit (fst entry) (snd entry) s) as [r s1].
  simpl in Hret. subst r. apply IH.
Qed.

(** *** extractMemo inside processTransaction *)

Lemma is_memo_test keys ix programId :
  keys !! TransactionParser.programIdIndex ix = Some programId ->
  String.eqb programId TransactionParser.MEMO_PROGRAM_ID && truthy (TransactionParser.data ix)
  = true <-> is_memo keys ix.
Proof.
  intros Hk. unfold is_memo. rewrite Hk, andb_true_iff.
  destruct (String.eqb_spec programId TransactionParser.MEMO_PROGRAM_ID) as [->|Hne].
  - split; intros [_ Ht]; split; try reflexivity; exact Ht.
  - split; [intros [? _]; discriminate | intros [[= ?] _]; contradiction].
Qed.

Lemma scanInstructions_spec keys ixs :
  Forall (fun ix => (TransactionParser.programIdIndex ix < length keys)%nat) ixs ->
  exists r, TransactionParser.scanInstructions keys ixs = Return r /\ annotation keys ixs r.
Proof.
  induction ixs as [|ix ixs IH]; intros Hrange; simpl.
  - exists None. split; [reflexivity | constructor; constructor].
  - apply Forall_cons in Hrange as [Hix Hrange]. specialize (IH Hrange).
    destruct IH as (r & Hr & Hann).
    apply lookup_lt_is_Some in Hix as [programId Hk]. rewrite Hk.
    assert (~ is_memo keys ix \/ undecodable ix -> is_memo keys ix -> undecodable ix)
      as Hskip by (intros [Hn|Hu] Hm; [contradiction | exact Hu]).
    assert (~ is_memo keys ix \/ undecodable ix ->
            exists r', TransactionParser.scanInstructions keys ixs = Return r'
                       /\ annotation keys (ix :: ixs) r') as Hnext.
    { intros Hs. exists r. split; [exact Hr|]. inversion Hann; subst.
      - constructor. constructor; [apply (Hskip Hs) | assumption].
      - apply (annotation_first keys (ix :: skipped)); try assumption.
        constructor; [apply (Hskip Hs) | assumption]. }
    destruct (String.eqb programId TransactionParser.MEMO_PROGRAM_ID
              && truthy (TransactionParser.data ix)) eqn:Htest.
    + apply (is_memo_test keys ix programId Hk) in Htest.
      destruct (Bs58.decode (TransactionParser.data ix)) as [bytes|e] eqn:Hd.
      * eexists. split; [reflexivity|].
        apply (annotation_first keys [] ix ixs bytes); [constructor | exact Htest | exact Hd].
      * apply Hnext. right. exists e. exact Hd.
    + apply Hnext. left. intros Hm. apply (is_memo_test keys ix programId Hk) in Hm.
      rewrite Hm in Htest. discriminate.
Qed.

Lemma annotation_all_undecodable keys ixs r :
  annotation keys ixs r ->
  Forall (fun ix => is_memo keys ix -> undecodable ix) ixs ->
  r = None.
Proof.
  intros Hann Hall. inversion Hann as [|skipped ix rest bytes _ Hm Hd]; subst; [reflexivity|].
  apply Forall_app in Hall as [_ Hall]. apply Forall_cons in Hall as [Hix _].
  destruct (Hix Hm) as [e He]. congruence.
Qed.

(** C8, as the code has it: on a transaction whose instructions name
    existing account keys, [extractMemo] throws nothing.  A memo instruction
    whose payload does not decode is skipped: the result is the text of the
    first memo instruction that decodes, and null when none does.  Tip
    detection goes on: when the parser yields a tip, [processTransaction]
    emits the event with that annotation ([memo] left out when it is null or
    empty). *)
Theorem extractMemo_skips_undecodable_memo :
  forall (t : TransactionParser.Transaction) (msg : TransactionParser.Message),
    TransactionParser.transaction t = Some msg ->
    Forall (fun ix => (TransactionParser.programIdIndex ix
                       < length (TransactionParser.accountKeys msg))%nat)
           (TransactionParser.instructions msg) ->
    exists r,
      TransactionParser.extractMemo (Some t) = Return r
      /\ annotation (TransactionParser.accountKeys msg) (TransactionParser.instructions msg) r
      /\ (Forall (fun ix => is_memo (TransactionParser.accountKeys msg) ix -> undecodable ix)
                 (TransactionParser.instructions msg) -> r = None)
      /\ forall connection streamerId pubkey signature tip (s : State),
           getTransaction connection signature = Return (Some t) ->
           is_Some (TransactionParser.meta t) ->
           TransactionParser.parseTipTransaction (Some t) pubkey = Return (Some tip) ->
           processTransaction connection streamerId pubkey signature s
           = (Return tt,
              after_emit "tip"
                {| streamerId := streamerId;
                   streamerPubkey := pubkey;
                   from := TransactionParser.from tip;
                   amountLamports := TransactionParser.amountLamports tip;
                   amountSol := TransactionParser.amountSol tip;
                   txHash := signature;
                   slot := TransactionParser.tip_slot tip;
                   blockTime := TransactionParser.tip_blockTime tip;
                   memo := or_absent r |} s).
Proof.
  intros t msg Hmsg Hrange.
  destruct (scanInstructions_spec _ _ Hrange) as (r & Hr & Hann).
  assert (TransactionParser.extractMemo (Some t) = Return r) as Hextract.
  { unfold TransactionParser.extractMemo. rewrite Hmsg. exact Hr. }
  exists r. split; [exact Hextract|]. split; [exact Hann|].
  split; [apply annotation_all_undecodable; exact Hann|].
  intros connection streamerId pubkey signature tip s Htx [m Hm] Hparse.
  rewrite processTransaction_spec. unfold after_process, detect.
  rewrite Htx, Hm, Hparse, Hextract. reflexivity.
Qed.

(** *** Several cycles for one recipient *)

Lemma detect_txHash connection streamerId pubkey signature data :
  detect connection streamerId pubkey signature = Some data -> txHash data = signature.
Proof.
  unfold detect.
  destruct (getTransaction connection signature) as [[t|]|]; try discriminate.
  destruct (TransactionParser.meta t); try discriminate.
  destruct (TransactionParser.parseTipTransaction _ _) as [[tip|]|]; try discriminate.
  destruct (TransactionParser.extractMemo _); try discriminate.
  intros [= <-]. reflexivity.
Qed.

Lemma emitted_steps connection streamerId pubkey (l : list string) :
  emitted (flat_map (steps connection streamerId pubkey) l) `sublist_of` l.
Proof.
  induction l as [|sig l IH]; simpl; [constructor|].
  unfold emitted in *. rewrite flat_map_app. unfold steps at 1.
  destruct (detect connection streamerId pubkey sig) as [data|] eqn:Hd; simpl.
  - rewrite (detect_txHash _ _ _ _ _ Hd). apply sublist_skip. exact IH.
  - apply sublist_cons. exact IH.
Qed.

Lemma cycle_history connection limit streamerId streamerData (s : State) :
  history (snd (checkStreamerTips connection limit streamerId streamerData s))
  = history s
    ++ flat_map (steps connection streamerId (MemoryAdapter.pubkey streamerData))
         (worked connection limit streamerData s).
Proof.
  unfold worked.
  destruct (PublicKey (MemoryAdapter.pubkey streamerData)) as [key|e] eqn:Hkey.
  - destruct (getSignaturesForAddress connection key _ limit) as [page|e] eqn:Hpage.
    + rewrite (checkStreamerTips_spec _ _ _ _ _ key page Hkey Hpage). simpl.
      apply fold_steps.
    + rewrite checkStreamerTips_failed_fetch; [simpl; rewrite app_nil_r; reflexivity|].
      intros key' page'. rewrite Hkey. intros [= <-]. rewrite Hpage. discriminate.
  - rewrite checkStreamerTips_failed_fetch; [simpl; rewrite app_nil_r; reflexivity|].
    intros key' page'. rewrite Hkey. discriminate.
Qed.

Lemma cycles_history ledger limit streamerId streamerData (s : State) :
  exists ext,
    history (cycles ledger limit streamerId streamerData s) = history s ++ ext
    /\ emitted ext `sublist_of` processed ledger limit streamerId streamerData s.
Proof.
  revert s. induction ledger as [|connection later IH]; intros s; simpl.
  - exists []. rewrite app_nil_r. split; [reflexivity | constructor].
  - destruct (IH (snd (checkStreamerTips connection limit streamerId streamerData s)))
      as (ext & Hh & Hsub).
    rewrite Hh, cycle_history, <- app_assoc. eexists. split; [reflexivity|].
    unfold emitted. rewrite flat_map_app. apply sublist_app; [|exact Hsub].
    apply emitted_steps.
Qed.

(** What bounds the events of a run: over any number of cycles for one
    recipient, every emitted transaction id is one of the signatures the
    cycles worked on, in the same order and at most once for each time it
    was worked on; so a run that works on no signature twice emits no id
    twice. *)
Theorem no_signature_emitted_twice :
  forall ledger limit streamerId streamerData (s : State),
    NoDup (processed ledger limit streamerId streamerData s) ->
    exists ext,
      history (cycles ledger limit streamerId streamerData s) = history s ++ ext
      /\ emitted ext `sublist_of` processed ledger limit streamerId streamerData s
      /\ NoDup (emitted ext).
Proof.
  intros ledger limit streamerId streamerData s Hfresh.
  destruct (cycles_history ledger limit streamerId streamerData s) as (ext & Hh & Hsub).
  exists ext. split; [exact Hh|]. split; [exact Hsub|].
  eapply sublist_NoDup; [exact Hfresh | exact Hsub].
Qed.

(** *** A ledger that honours the bound *)

Lemma behind_split pre u post :
  u ∉ pre -> behind u (pre ++ u :: post) = Some post.
Proof.
  induction pre as [|x pre IH]; intros Hout; simpl.
  - rewrite String.eqb_refl. reflexivity.
  - apply not_elem_of_cons in Hout as [Hne Hout].
    destruct (String.eqb_spec x u) as [->|_]; [contradiction | apply IH; exact Hout].
Qed.

Lemma newest_is_suffix (n : nat) (l : list string) :
  exists front, l = front ++ rev (take n (rev l)).
Proof.
  exists (rev (drop n (rev l))).
  rewrite <- rev_app_distr, take_drop, rev_involutive. reflexivity.
Qed.

Lemma todo_keeps lastSeen (page : list string) :
  (forall u, lastSeen = Some u -> u ∉ page) -> todo lastSeen page = rev page.
Proof.
  intros Hout. unfold todo.
  assert (forall x, x ∈ rev page -> same_signature x lastSeen = false) as Hall.
  { intros x Hx. destruct lastSeen as [u|]; [|reflexivity]. simpl.
    destruct (String.eqb_spec x u) as [->|_]; [|reflexivity].
    exfalso. apply (Hout u eq_refl). apply list_elem_of_In, in_rev, list_elem_of_In. exact Hx. }
  induction (rev page) as [|x l IH]; [reflexivity|].
  rewrite filter_cons_True by (apply Hall; left).
  f_equal. apply IH. intros y Hy. apply Hall. right. exact Hy.
Qed.

(** One cycle against an honest ledger whose chain extends the one the
    cursor was caught up with: the signatures worked on are new, distinct,
    and the cursor is caught up again. *)
Lemma honest_cycle view limit streamerId streamerData (s : State) key prev seen :
  let pubkey := MemoryAdapter.pubkey streamerData in
  let s' := snd (checkStreamerTips (honest view) limit streamerId streamerData s) in
  let new := worked (honest view) limit streamerData s in
  PublicKey pubkey = Return key ->
  caught_up pubkey s prev seen ->
  prev `prefix_of` fst view -> NoDup (fst view) ->
  Forall (fun sig => truthy sig = true) (fst view) ->
  NoDup new /\ (forall x, x ∈ new -> x ∉ seen) /\ caught_up pubkey s' (fst view) (seen ++ new).
Proof.
  intros pubkey s' new Hkey Hcaught [ext Hext] Hnd Htruthy.
  destruct view as [chain txs]. simpl in Hext, Hnd, Htruthy.
  assert (exists front, chain = front ++ new
            /\ (forall x, x ∈ seen -> x ∈ front)
            /\ (new = [] -> caught_up pubkey s chain seen)) as (front & Hchain & Hseen & Hidle).
  { unfold new, worked, caught_up in *. fold pubkey. rewrite Hkey.
    cbn [honest getSignaturesForAddress fst]. unfold page_of.
    destruct (MemoryAdapter.getLastSeen pubkey (storage s)) as [u|] eqn:Hlast.
    - destruct Hcaught as (pre & post & Hprev & Hin).
      assert (chain = pre ++ u :: (post ++ ext)) as Hc
        by (rewrite Hext, Hprev, <- app_assoc; reflexivity).
      assert ((u ∉ pre) /\ (u ∉ post ++ ext)) as [Hpre Hpost].
      { rewrite Hc in Hnd. apply NoDup_app in Hnd as (_ & Hsep & Hnd).
        apply NoDup_cons in Hnd as [Hpost _]. split; [|exact Hpost].
        intros Hin'. apply (Hsep u Hin'). left. }
      rewrite Hc, behind_split by exact Hpre. cbn [from_option id].
      destruct (newest_is_suffix (Z.to_nat limit) (post ++ ext)) as [mid Hmid].
      rewrite todo_keeps.
      + exists (pre ++ u :: mid). split; [|split].
        * rewrite <- app_assoc. simpl. rewrite <- Hmid. reflexivity.
        * intros x Hx. apply Hin in Hx. apply elem_of_app in Hx as [Hx|Hx].
          -- apply elem_of_app. left. exact Hx.
          -- apply list_elem_of_singleton in Hx as ->. apply elem_of_app. right. left.
        * intros _. exists pre, (post ++ ext). split; [reflexivity | exact Hin].
      + intros u' [= <-] Hin'. apply Hpost.
        apply list_elem_of_In, in_rev, list_elem_of_In.
        eapply elem_of_sublist; [exact Hin' | apply sublist_take].
    - subst seen. destruct (newest_is_suffix (Z.to_nat limit) chain) as [front Hfront].
      rewrite todo_keeps by discriminate.
      exists front. split; [exact Hfront|]. split; [intros x Hx; inversion Hx | reflexivity]. }
  assert (NoDup new /\ forall x, x ∈ new -> x ∉ front) as [Hnew Hsep].
  { rewrite Hchain in Hnd. apply NoDup_app in Hnd as (_ & Hsep & Hnew).
    split; [exact Hnew|]. intros x Hx Hfront. exact (Hsep x Hfront Hx). }
  split; [exact Hnew|]. split; [intros x Hx Hs; exact (Hsep x Hx (Hseen x Hs))|].
  (* the cursor after the cycle *)
  assert (MemoryAdapter.lastSeen (storage s') !! pubkey
          = match last new with
            | Some sig => Some sig
            | None => MemoryAdapter.lastSeen (storage s) !! pubkey
            end) as Hcursor.
  { unfold s', new, worked. fold pubkey. rewrite Hkey. simpl.
    rewrite (checkStreamerTips_spec (honest (chain, txs)) limit streamerId streamerData s key
               (page_of chain (MemoryAdapter.getLastSeen pubkey (storage s)) limit) Hkey eq_refl).
    simpl. apply fold_steps. }
  destruct (last new) as [w|] eqn:Hlast.
  - apply last_Some in Hlast as [new' Hnew'].
    unfold caught_up, MemoryAdapter.getLastSeen. rewrite Hcursor. unfold or_absent. simpl.
    assert (truthy w = true) as ->.
    { rewrite Forall_forall in Htruthy. apply Htruthy. rewrite Hchain, Hnew'.
      apply elem_of_app. right. apply elem_of_app. right. left. }
    exists (front ++ new'), []. split.
    + rewrite Hchain, Hnew', <- app_assoc. reflexivity.
    + intros x Hx. apply elem_of_app in Hx as [Hx|Hx].
      * apply elem_of_app. left. apply elem_of_app. left. apply Hseen. exact Hx.
      * rewrite <- app_assoc, <- Hnew'. apply elem_of_app. right. exact Hx.
  - apply last_None in Hlast. rewrite Hlast, app_nil_r.
    specialize (Hidle Hlast). unfold caught_up, MemoryAdapter.getLastSeen in *.
    rewrite Hcursor. exact Hidle.
Qed.

Lemma honest_cycles views limit streamerId streamerData :
  forall (s : State) key prev seen,
    let pubkey := MemoryAdapter.pubkey streamerData in
    PublicKey pubkey = Return key ->
    caught_up pubkey s prev seen ->
    growing prev (map fst views) ->
    Forall (fun view => NoDup (fst view)) views ->
    Forall (fun view => Forall (fun sig => truthy sig = true) (fst view)) views ->
    NoDup (processed (map honest views) limit streamerId streamerData s)
    /\ forall x, x ∈ processed (map honest views) limit streamerId streamerData s -> x ∉ seen.
Proof.
  induction views as [|view views IH]; intros s key prev seen pubkey Hkey Hcaught Hgrow Hnd Htruthy.
  - simpl. split; [constructor | intros x Hx; inversion Hx].
  - simpl in Hgrow. destruct Hgrow as [Hprefix Hgrow].
    apply Forall_cons in Hnd as [Hnd1 Hnd]. apply Forall_cons in Htruthy as [Ht1 Htruthy].
    destruct (honest_cycle view limit streamerId streamerData s key prev seen
                Hkey Hcaught Hprefix Hnd1 Ht1) as (Hnew & Hfresh & Hcaught').
    destruct (IH _ key (fst view) _ Hkey Hcaught' Hgrow Hnd Htruthy) as (Hrest & Hlater).
    cbn [map processed]. split.
    + apply NoDup_app. split; [exact Hnew|]. split; [|exact Hrest].
      intros x Hx Hin. apply (Hlater x Hin). apply elem_of_app. right. exact Hx.
    + intros x Hx Hs. apply elem_of_app in Hx as [Hx|Hx].
      * exact (Hfresh x Hx Hs).
      * apply (Hlater x Hx). apply elem_of_app. left. exact Hs.
Qed.

(** X1: against a ledger that honours the bound, from a recipient without
    cursor: the chain of signatures grows from cycle to cycle, holds no
    signature twice and no empty one, and each page is made of the newest
    signatures behind the cursor.  Then no transaction id is emitted twice,
    over any number of cycles. *)
Theorem honest_ledger_never_emits_twice :
  forall views limit streamerId streamerData (s : State) key,
    PublicKey (MemoryAdapter.pubkey streamerData) = Return key ->
    MemoryAdapter.getLastSeen (MemoryAdapter.pubkey streamerData) (storage s) = None ->
    growing [] (map fst views) ->
    Forall (fun view => NoDup (fst view)) views ->
    Forall (fun view => Forall (fun sig => truthy sig = true) (fst view)) views ->
    exists ext,
      history (cycles (map honest views) limit streamerId streamerData s) = history s ++ ext
      /\ NoDup (emitted ext).
Proof.
  intros views limit streamerId streamerData s key Hkey Hnone Hgrow Hnd Htruthy.
  destruct (honest_cycles views limit streamerId streamerData s key [] [] Hkey) as [Hfresh _];
    try assumption.
  { unfold caught_up. rewrite Hnone. reflexivity. }
  destruct (cycles_history (map honest views) limit streamerId streamerData s)
    as (ext & Hh & Hsub).
  exists ext. split; [exact Hh|]. eapply sublist_NoDup; [exact Hfresh | exact Hsub].
Qed.

End IndexerFacts.

Section IndexerExamples.
Existing Instance Samples.ascii_runtime.
Import TipIndexer.

Lemma checkStreamerTips_writes_cursor_witness :
  exists s',
    checkStreamerTips (Samples.ledger ["s2"; "s1"]) 20 "alice" Samples.alice Samples.fresh
    = (Return tt, s')
    /\ map (fun o => match o with
                     | Emitted _ data => "emit " +:+ txHash data
                     | CursorWritten _ signature => "cursor " +:+ signature
                     end) (history s')
       = ["emit s1"; "cursor s1"; "emit s2"; "cursor s2"]
    /\ MemoryAdapter.lastSeen (storage s') !! Samples.address = Some "s2".
Proof.
  destruct (checkStreamerTips_writes_cursor_after_emission unit
              (Samples.ledger ["s2"; "s1"]) 20 "alice" Samples.alice Samples.fresh
              (repeat x00 32) ["s2"; "s1"])
    as (s' & Hrun & Hh & Hc & _).
  - vm_compute. reflexivity.
  - reflexivity.
  - exists s'. split; [exact Hrun|]. split.
    + rewrite Hh. vm_compute. reflexivity.
    + etransitivity; [exact Hc | vm_compute; reflexivity].
Defined.

(** The fetch of the transaction of "sigA" fails, and the cycle leaves the
    cursor on "sigA" all the same. *)
Lemma failed_fetch_advances_cursor :
  getTransaction Samples.failing_ledger "sigA" = Throw "failed to get transaction"
  /\ fst (checkStreamerTips Samples.failing_ledger 20 "alice" Samples.alice Samples.fresh)
     = Return tt
  /\ MemoryAdapter.getLastSeen Samples.address
       (storage (snd (checkStreamerTips Samples.failing_ledger 20 "alice"
                        Samples.alice Samples.fresh)))
     = Some "sigA".
Proof.
  split; [reflexivity|]. split; vm_compute; reflexivity.
Qed.

(** A transfer whose only memo instruction does not decode: the tip is
    emitted, without annotation. *)
Lemma extractMemo_skips_undecodable_witness :
  TransactionParser.extractMemo (Some (Samples.credit [Samples.broken_memo])) = Return None
  /\ map memo
       (flat_map (fun o => match o with Emitted _ data => [data] | CursorWritten _ _ => [] end)
          (history (snd (processTransaction
                           {| getSignaturesForAddress := fun _ _ _ => Return [];
                              getTransaction := fun _ =>
                                Return (Some (Samples.credit [Samples.broken_memo])) |}
                           "alice" Samples.address "s1" Samples.fresh))))
     = [None].
Proof.
  destruct (extractMemo_skips_undecodable_memo unit
              (Samples.credit [Samples.broken_memo])
              {| TransactionParser.accountKeys :=
                   ["payer"; Samples.address; TransactionParser.MEMO_PROGRAM_ID];
                 TransactionParser.instructions := [Samples.broken_memo] |}
              eq_refl)
    as (r & Hr & _ & Hnone & Hemit).
  - repeat constructor.
  - assert (r = None) as ->.
    { apply Hnone. repeat constructor. intros _. eexists. vm_compute. reflexivity. }
    split; [exact Hr|].
    erewrite Hemit; [vm_compute; reflexivity | reflexivity | eexists; reflexivity
                    | vm_compute; reflexivity].
Defined.

(** The first memo instruction does not decode and the second does:
    [extractMemo] returns the text of the second, not null. *)
Lemma extractMemo_returns_later_memo :
  Bs58.decode (TransactionParser.data Samples.broken_memo) = Throw "Non-base58 character"
  /\ TransactionParser.extractMemo
       (Some (Samples.credit [Samples.broken_memo; Samples.gg_memo]))
     = Return (Some "gg").
Proof.
  split; vm_compute; reflexivity.
Qed.

(** The first handler throws; [emit] returns normally and the second
    handler has run on the same event. *)
Lemma emit_invokes_every_handler_witness :
  fst (emit "tip" Samples.tip_s1
         (on "tip" Samples.logging_handler
            (on "tip" Samples.throwing_handler (Samples.fresh_over []))))
  = Return tt
  /\ world (snd (emit "tip" Samples.tip_s1
                   (on "tip" Samples.logging_handler
                      (on "tip" Samples.throwing_handler (Samples.fresh_over [])))))
     = ["first: s1"; "second: s1"].
Proof.
  pose proof (emit_invokes_every_handler (list string) (Samples.fresh_over [])
                [Samples.throwing_handler; Samples.logging_handler] Samples.tip_s1) as Hemit.
  simpl in Hemit. rewrite Hemit. split; reflexivity.
Defined.

(** Two cycles against a ledger that honours the bound: the chain grows from
    two signatures to three, and the three events come once each. *)
Lemma honest_ledger_never_emits_twice_witness :
  exists ext,
    history (cycles (map honest
                       [(["s1"; "s2"], fun _ => Return (Some (Samples.credit [])));
                        (["s1"; "s2"; "s3"], fun _ => Return (Some (Samples.credit [])))])
               20 "alice" Samples.alice Samples.fresh)
    = history Samples.fresh ++ ext
    /\ emitted ext = ["s1"; "s2"; "s3"]
    /\ NoDup (emitted ext).
Proof.
  destruct (honest_ledger_never_emits_twice unit
              [(["s1"; "s2"], fun _ => Return (Some (Samples.credit [])));
               (["s1"; "s2"; "s3"], fun _ => Return (Some (Samples.credit [])))]
              20 "alice" Samples.alice Samples.fresh (repeat x00 32))
    as (ext & Hh & Hnodup).
  - vm_compute. reflexivity.
  - reflexivity.
  - simpl. split; [exists ["s1"; "s2"]; reflexivity|]. split; [exists ["s3"]; reflexivity | exact I].
  - repeat constructor; rewrite ?list_elem_of_In; simpl; intuition discriminate.
  - repeat constructor.
  - exists ext. split; [exact Hh|]. split; [|exact Hnodup].
    vm_compute in Hh. subst ext. reflexivity.
Defined.

(** Two cycles whose pages share nothing but the cursor: three events. *)
Lemma no_signature_emitted_twice_witness :
  exists ext,
    history (cycles [Samples.ledger ["s2"; "s1"]; Samples.ledger ["s3"; "s2"]]
               20 "alice" Samples.alice Samples.fresh)
    = history Samples.fresh ++ ext
    /\ emitted ext = ["s1"; "s2"; "s3"]
    /\ NoDup (emitted ext).
Proof.
  destruct (no_signature_emitted_twice unit
              [Samples.ledger ["s2"; "s1"]; Samples.ledger ["s3"; "s2"]]
              20 "alice" Samples.alice Samples.fresh)
    as (ext & Hh & _ & Hnodup).
  - vm_compute. repeat constructor; rewrite ?list_elem_of_In; simpl; intuition discriminate.
  - exists ext. split; [exact Hh|]. split; [|exact Hnodup].
    vm_compute in Hh. subst ext. reflexivity.
Defined.

(** C2: a signature is emitted twice when a page overlaps an earlier one.
    After a first cycle on the page "s2", "s1" the cursor is "s2".  A second
    page "s3", "s2", "s1" brings "s1" again, which is not the cursor: the
    loop skips "s2" only, and the event of "s1" is emitted a second time.
    The same happens with a second page that holds "s1" alone. *)
Lemma overlapping_page_emits_twice :
  MemoryAdapter.getLastSeen Samples.address
    (storage (cycles [Samples.ledger ["s2"; "s1"]] 20 "alice" Samples.alice Samples.fresh))
  = Some "s2"
  /\ emitted (history (cycles [Samples.ledger ["s2"; "s1"]; Samples.ledger ["s3"; "s2"; "s1"]]
                         20 "alice" Samples.alice Samples.fresh))
     = ["s1"; "s2"; "s1"; "s3"]
  /\ emitted (history (cycles [Samples.ledger ["s2"; "s1"]; Samples.ledger ["s1"]]
                         20 "alice" Samples.alice Samples.fresh))
     = ["s1"; "s2"; "s1"].
Proof.
  split; [|split]; vm_compute; reflexivity.
Qed.

End IndexerExamples.

(** ** The broadcaster: handleMessage, shouldBroadcast, broadcastTip *)

Section BroadcasterFacts.
Variable TipData : Type.
Import WebSocketBroadcaster.

Local Abbreviation State := (WebSocketBroadcaster.State TipData).
Local Abbreviation ServerMsg := (WebSocketBroadcaster.ServerMsg TipData).

Lemma reached_test (b : State) (streamerId : string) (ws : nat) :
  match subscriptions b !! ws with
  | Some subs => bool_decide (streamerId ∈ subs) && (readyState b ws =? 1)
  | None => false
  end = true <-> reached b streamerId ws.
Proof.
  unfold reached, subscribed. destruct (subscriptions b !! ws) as [subs|].
  - rewrite andb_true_iff, bool_decide_eq_true, Z.eqb_eq. split.
    + intros [Hin Hopen]. eauto.
    + intros [(subs' & [= <-] & Hin) Hopen]. eauto.
  - split; [discriminate | intros [(subs' & Hs & _) _]; discriminate].
Qed.

Lemma shouldBroadcast_spec (b : State) (streamerId : string) (now : Z) :
  let r := shouldBroadcast streamerId now b in
  (fst r = true <-> Z.of_nat (length (live b streamerId now)) < maxAlertsPerWindow (options b))
  /\ recorded (snd r) streamerId
     = (if fst r then live b streamerId now ++ [now] else recorded b streamerId)
  /\ (forall other, other ≠ streamerId -> recorded (snd r) other = recorded b other)
  /\ options (snd r) = options b /\ clients (snd r) = clients b
  /\ readyState (snd r) = readyState b /\ subscriptions (snd r) = subscriptions b
  /\ wire (snd r) = wire b.
Proof.
  unfold shouldBroadcast, live, recorded.
  destruct (alertCounts b !! streamerId) as [counts|] eqn:Hc; simpl.
  - rewrite Hc. simpl.
    destruct (Z.geb_spec (Z.of_nat (length (filter (fun entry => now - entry < alertWindowMs (options b)) counts)))
                (maxAlertsPerWindow (options b))) as [Hge|Hlt]; simpl.
    + rewrite Hc. simpl. repeat split; try (intros; lia || discriminate).
    + rewrite lookup_insert_eq. simpl. repeat split; try (intros; lia || reflexivity).
      intros other Hne. rewrite lookup_insert_ne by congruence. reflexivity.
  - rewrite lookup_insert_eq. simpl.
    destruct (Z.geb_spec (Z.of_nat 0) (maxAlertsPerWindow (options b))) as [Hge|Hlt]; simpl.
    + rewrite lookup_insert_eq. simpl. repeat split; try (intros; lia || discriminate).
      intros other Hne. rewrite lookup_insert_ne by congruence. reflexivity.
    + rewrite lookup_insert_eq. simpl. repeat split; try (intros; lia || reflexivity).
      intros other Hne. rewrite !lookup_insert_ne by congruence. reflexivity.
Qed.

Lemma fanOut_spec (streamerId : string) (message : ServerMsg) (l : list nat) (b : State) :
  let b' := fanOut streamerId message l b in
  wire b' = wire b ++ map (fun ws => (ws, message)) (filter (reached b streamerId) l)
  /\ options b' = options b /\ clients b' = clients b /\ readyState b' = readyState b
  /\ subscriptions b' = subscriptions b /\ alertCounts b' = alertCounts b.
Proof.
  revert b. induction l as [|ws l IH]; intros b; simpl.
  - rewrite app_nil_r. repeat split.
  - set (b1 := match subscriptions b !! ws with
               | Some subs =>
                   if bool_decide (streamerId ∈ subs) && (readyState b ws =? 1)
                   then send ws message b else b
               | None => b
               end).
    assert (wire b1 = wire b ++ (if decide (reached b streamerId ws) then [(ws, message)] else [])
            /\ options b1 = options b /\ clients b1 = clients b
            /\ readyState b1 = readyState b /\ subscriptions b1 = subscriptions b
            /\ alertCounts b1 = alertCounts b) as (Hw & Ho & Hcl & Hr & Hs & Ha).
    { assert (b1 = if decide (reached b streamerId ws) then send ws message b else b)
        as ->.
      { unfold b1. destruct (decide (reached b streamerId ws)) as [Hyes|Hno].
        - apply reached_test in Hyes. destruct (subscriptions b !! ws); [|discriminate].
          rewrite Hyes. reflexivity.
        - destruct (subscriptions b !! ws) as [subs|] eqn:Hsub; [|reflexivity].
          destruct (bool_decide _ && _) eqn:Htest; [|reflexivity].
          exfalso. apply Hno. apply reached_test. rewrite Hsub. exact Htest. }
      destruct (decide (reached b streamerId ws)); simpl;
        rewrite ?app_nil_r; repeat split. }
    destruct (IH b1) as (Hw' & Ho' & Hcl' & Hr' & Hs' & Ha').
    rewrite Hw', Ho', Hcl', Hr', Hs', Ha', Hw, Ho, Hcl, Hr, Hs, Ha.
    split; [|repeat split].
    rewrite <- app_assoc. f_equal.
    assert (filter (reached b1 streamerId) l = filter (reached b streamerId) l) as ->.
    { apply list_filter_iff. intros x. unfold reached, subscribed. rewrite Hs, Hr. reflexivity. }
    destruct (decide (reached b streamerId ws)) as [Hyes|Hno].
    + rewrite filter_cons_True by exact Hyes. reflexivity.
    + rewrite filter_cons_False by exact Hno. reflexivity.
Qed.

(** What one [broadcastTip] does: the rate check, then one copy of the
    message to each reached connection, in the order of [wss.clients]. *)
Lemma broadcastTip_spec (streamerId : string) (tipData : TipData) (now : Z) (b : State) :
  let allowed := fst (shouldBroadcast streamerId now b) in
  let b' := broadcastTip streamerId tipData now b in
  wire b'
  = wire b ++ (if allowed
               then map (fun ws => (ws, Tip streamerId tipData))
                        (filter (reached b streamerId) (clients b))
               else [])
  /\ recorded b' streamerId
     = (if allowed then live b streamerId now ++ [now] else recorded b streamerId)
  /\ options b' = options b /\ clients b' = clients b
  /\ readyState b' = readyState b /\ subscriptions b' = subscriptions b.
Proof.
  unfold broadcastTip.
  destruct (shouldBroadcast_spec b streamerId now) as (_ & Hrec & _ & Ho & Hcl & Hr & Hs & Hw).
  destruct (shouldBroadcast streamerId now b) as [allowed b1]. simpl in *.
  destruct allowed; simpl.
  - destruct (fanOut_spec streamerId (Tip streamerId tipData) (clients b1) b1)
      as (Hw' & Ho' & Hcl' & Hr' & Hs' & Ha').
    unfold recorded in *. rewrite Hw', Ho', Hcl', Hr', Hs', Ha', Hw, Ho, Hcl, Hr, Hs, Hrec.
    split; [|repeat split]. f_equal. f_equal.
    apply list_filter_iff. intros x. unfold reached, subscribed. rewrite Hs, Hr. reflexivity.
  - rewrite app_nil_r. repeat split; assumption.
Qed.

Lemma inbox_app (ws : nat) (w1 w2 : list (nat * ServerMsg)) :
  inbox ws (w1 ++ w2) = inbox ws w1 ++ inbox ws w2.
Proof. unfold inbox. apply omap_app. Qed.

Lemma inbox_others (ws : nat) (message : ServerMsg) (l : list nat) :
  ws ∉ l -> inbox ws (map (fun ws' => (ws', message)) l) = [].
Proof.
  induction l as [|x l IH]; intros Hout; [reflexivity|].
  apply not_elem_of_cons in Hout as [Hne Hout]. unfold inbox in *. simpl.
  rewrite decide_False by congruence. apply IH. exact Hout.
Qed.

Lemma inbox_once (ws : nat) (message : ServerMsg) (l : list nat) :
  NoDup l -> ws ∈ l -> inbox ws (map (fun ws' => (ws', message)) l) = [message].
Proof.
  induction l as [|x l IH]; intros Hnd Hin; [inversion Hin|].
  apply NoDup_cons in Hnd as [Hx Hnd]. unfold inbox in *. simpl.
  destruct (decide (x = ws)) as [->|Hne].
  - f_equal. apply (inbox_others ws message l Hx).
  - apply elem_of_cons in Hin as [->|Hin]; [contradiction|]. apply IH; assumption.
Qed.

(** C9: whatever [broadcastTip] sends for [streamerId] goes to connections
    whose subscription set holds [streamerId]; a connection whose set does
    not hold it (one subscribed to another recipient only, say) is sent
    nothing by that call. *)
Theorem broadcastTip_reaches_only_subscribers :
  forall (b : State) (streamerId : string) (tipData : TipData) (now : Z),
    exists sent,
      wire (broadcastTip streamerId tipData now b) = wire b ++ sent
      /\ (forall ws message,
            (ws, message) ∈ sent ->
            message = Tip streamerId tipData
            /\ subscribed b ws streamerId /\ readyState b ws = 1 /\ ws ∈ clients b)
      /\ (forall ws other,
            subscribed b ws other -> ~ subscribed b ws streamerId ->
            inbox ws (wire (broadcastTip streamerId tipData now b))
            = inbox ws (wire b)).
Proof.
  intros b streamerId tipData now.
  destruct (broadcastTip_spec streamerId tipData now b) as (Hw & _).
  eexists. split; [exact Hw|].
  assert (forall ws message,
            (ws, message) ∈ (if fst (shouldBroadcast streamerId now b)
                             then map (fun ws => (ws, Tip streamerId tipData))
                                      (filter (reached b streamerId) (clients b))
                             else []) ->
            message = Tip streamerId tipData
            /\ subscribed b ws streamerId /\ readyState b ws = 1 /\ ws ∈ clients b) as Honly.
  { intros ws message Hin.
    destruct (fst (shouldBroadcast streamerId now b)); [|inversion Hin].
    apply list_elem_of_fmap in Hin as (ws' & [= -> ->] & Hin).
    apply list_elem_of_filter in Hin as [[Hsub Hopen] Hcl]. repeat split; assumption. }
  split; [exact Honly|].
  intros ws other _ Hnot. rewrite Hw, inbox_app.
  rewrite <- (app_nil_r (inbox ws (wire b))) at 2. f_equal.
  destruct (fst (shouldBroadcast streamerId now b)); [|reflexivity].
  apply inbox_others. intros Hin.
  apply list_elem_of_filter in Hin as [[Hsub _] _]. contradiction.
Qed.

(** C10: a message whose [action || type] is 'subscribe' and whose
    [streamer] is a non-empty string is obeyed whatever the name is (the
    broadcaster consults nothing but its own table): the name joins the
    subscription set of the connection and a [subscribed] reply is sent on
    it, nothing else changes.  With [streamer] missing or empty the message
    changes nothing: no reply, no subscription, the connection as it was. *)
Theorem handleMessage_subscribe_unchecked :
  forall (b : State) (ws : nat) (msg : ClientMsg),
    or_else (action msg) (type msg) = Some "subscribe" ->
    (forall name,
       streamer msg = Some name -> truthy name = true ->
       let b' := handleMessage ws msg b in
       subscriptions b' !! ws = Some (default ∅ (subscriptions b !! ws) ∪ {[name]})
       /\ subscribed b' ws name
       /\ (forall ws', ws' ≠ ws -> subscriptions b' !! ws' = subscriptions b !! ws')
       /\ wire b' = wire b ++ [(ws, Subscribed name)]
       /\ readyState b' = readyState b /\ clients b' = clients b
       /\ alertCounts b' = alertCounts b /\ options b' = options b)
    /\ (truthy_opt (streamer msg) = false -> handleMessage ws msg b = b).
Proof.
  intros b ws msg Hkind. unfold handleMessage. rewrite Hkind. split.
  - intros name Hname Htruthy. rewrite Hname, Htruthy.
    assert (forall subs : gset string, name ∈ subs ∪ {[name]}) as Hin by set_solver.
    destruct (subscriptions b !! ws) as [subs|] eqn:Hsub;
      cbn [send set_subscriptions subscriptions wire readyState clients alertCounts options].
    + rewrite Hsub. cbn [from_option id]. rewrite lookup_insert_eq.
      repeat split; try reflexivity.
      * exists (subs ∪ {[name]}).
        cbn [send set_subscriptions subscriptions]. rewrite lookup_insert_eq.
        split; [reflexivity | apply Hin].
      * intros ws' Hne. rewrite lookup_insert_ne by congruence. reflexivity.
    + rewrite !lookup_insert_eq. cbn [from_option id].
      repeat split; try reflexivity.
      * exists (∅ ∪ {[name]}).
        cbn [send set_subscriptions subscriptions]. rewrite lookup_insert_eq.
        split; [reflexivity | apply Hin].
      * intros ws' Hne. rewrite !lookup_insert_ne by congruence. reflexivity.
  - intros Hfalsy. destruct (streamer msg) as [name|]; [|reflexivity].
    simpl in Hfalsy. rewrite Hfalsy. reflexivity.
Qed.

Lemma reached_preserved (b b' : State) (streamerId : string) (ws : nat) :
  subscriptions b' = subscriptions b -> readyState b' = readyState b ->
  reached b streamerId ws -> reached b' streamerId ws.
Proof.
  unfold reached, subscribed. intros -> ->. tauto.
Qed.

(** A burst: while every event of [events] sees exactly [acc] as the live
    timestamps and the events are within one window of each other, a
    reached connection receives the first [budget - length acc] of them and
    none of the rest. *)
Lemma publishAll_burst (streamerId : string) (ws : nat) (events : list (Z * TipData)) :
  forall (b : State) (acc : list Z),
    NoDup (clients b) -> ws ∈ clients b -> reached b streamerId ws ->
    (forall e, e ∈ events -> live b streamerId (fst e) = acc) ->
    within (alertWindowMs (options b)) (map fst events) ->
    inbox ws (wire (publishAll streamerId events b))
    = inbox ws (wire b)
      ++ map (fun e => Tip streamerId (snd e))
           (take (Z.to_nat (maxAlertsPerWindow (options b)) - length acc) events).
Proof.
  induction events as [|e rest IH]; intros b acc Hnd Hcl Hreach Hlive Hwithin.
  - simpl. rewrite take_nil, app_nil_r. reflexivity.
  - cbn [publishAll]. destruct Hwithin as [Hnear Hwithin].
    destruct (broadcastTip_spec streamerId (snd e) (fst e) b) as (Hw & Hrec & Ho & Hc & Hr & Hs).
    destruct (shouldBroadcast_spec b streamerId (fst e)) as (Hrule & _).
    set (b1 := broadcastTip streamerId (snd e) (fst e) b) in *.
    assert (live b streamerId (fst e) = acc) as Hacc by (apply Hlive; left).
    rewrite Hacc in Hrule, Hrec.
    destruct (fst (shouldBroadcast streamerId (fst e) b)) eqn:Hallowed.
    + assert (Z.of_nat (length acc) < maxAlertsPerWindow (options b)) as Hroom
        by (apply Hrule; reflexivity).
      rewrite (IH b1 (acc ++ [fst e])).
      * rewrite Hw, Ho, inbox_app, length_app. simpl.
        rewrite (inbox_once ws _ (filter (reached b streamerId) (clients b))).
        -- replace (Z.to_nat (maxAlertsPerWindow (options b)) - length acc)%nat
             with (S (Z.to_nat (maxAlertsPerWindow (options b)) - (length acc + 1)))%nat by lia.
           rewrite <- app_assoc. reflexivity.
        -- apply NoDup_filter. exact Hnd.
        -- apply list_elem_of_filter. split; assumption.
      * rewrite Hc. exact Hnd.
      * rewrite Hc. exact Hcl.
      * apply (reached_preserved b b1); assumption.
      * intros e' Hin. unfold live. rewrite Ho, Hrec, filter_app.
        assert (live b streamerId (fst e') = acc) as Hacc' by (apply Hlive; right; exact Hin).
        f_equal.
        -- rewrite <- Hacc' at 1. unfold live. rewrite list_filter_filter.
           rewrite <- Hacc'. unfold live. apply list_filter_iff. intros x. tauto.
        -- rewrite filter_cons_True; [reflexivity|].
           rewrite Forall_forall in Hnear. apply Hnear.
           apply list_elem_of_fmap. exists e'. split; [reflexivity | exact Hin].
      * rewrite Ho. exact Hwithin.
    + assert (~ Z.of_nat (length acc) < maxAlertsPerWindow (options b)) as Hfull
        by (intros Hlt; apply Hrule in Hlt; discriminate).
      rewrite (IH b1 acc).
      * rewrite Hw, Ho, app_nil_r.
        replace (Z.to_nat (maxAlertsPerWindow (options b)) - length acc)%nat with O by lia.
        reflexivity.
      * rewrite Hc. exact Hnd.
      * rewrite Hc. exact Hcl.
      * apply (reached_preserved b b1); assumption.
      * intros e' Hin. unfold live. rewrite Ho, Hrec. apply Hlive. right. exact Hin.
      * rewrite Ho. exact Hwithin.
Qed.

(** C3: with budget [maxAlertsPerWindow] and window [alertWindowMs], a
    publish for [streamerId] at clock reading [now] is delivered exactly
    when fewer than the budget of the recorded timestamps are less than a
    window old; a delivered publish records [now] behind the pruned list and
    a dropped one records and sends nothing.  A burst of events within one
    window, none of the earlier timestamps being live, reaches a subscribed
    open connection with its first [budget] events only.  Once every recorded
    timestamp is a window old, a publish is delivered (the budget being
    positive). *)
Theorem rate_limit_sliding_window :
  forall (b : State) (streamerId : string),
    let budget := maxAlertsPerWindow (options b) in
    let window := alertWindowMs (options b) in
    (forall (now : Z) (tipData : TipData),
       let allowed := fst (shouldBroadcast streamerId now b) in
       let b' := broadcastTip streamerId tipData now b in
       (allowed = true <-> Z.of_nat (length (live b streamerId now)) < budget)
       /\ wire b'
          = wire b ++ (if allowed
                       then map (fun ws => (ws, Tip streamerId tipData))
                                (filter (reached b streamerId) (clients b))
                       else [])
       /\ recorded b' streamerId
          = (if allowed then live b streamerId now ++ [now] else recorded b streamerId))
    /\ (forall (events : list (Z * TipData)) (ws : nat),
          NoDup (clients b) -> ws ∈ clients b -> reached b streamerId ws ->
          (forall e, e ∈ events -> live b streamerId (fst e) = []) ->
          within window (map fst events) ->
          inbox ws (wire (publishAll streamerId events b))
          = inbox ws (wire b)
            ++ map (fun e => Tip streamerId (snd e)) (take (Z.to_nat budget) events))
    /\ (forall now : Z,
          0 < budget ->
          Forall (fun entry => window <= now - entry) (recorded b streamerId) ->
          fst (shouldBroadcast streamerId now b) = true).
Proof.
  intros b streamerId budget window. split; [|split].
  - intros now tipData allowed b'.
    destruct (shouldBroadcast_spec b streamerId now) as (Hrule & _).
    destruct (broadcastTip_spec streamerId tipData now b) as (Hw & Hrec & _).
    split; [exact Hrule|]. split; assumption.
  - intros events ws Hnd Hcl Hreach Hlive Hwithin.
    rewrite (publishAll_burst streamerId ws events b [] Hnd Hcl Hreach Hlive Hwithin).
    simpl. rewrite Nat.sub_0_r. reflexivity.
  - intros now Hpos Hold.
    destruct (shouldBroadcast_spec b streamerId now) as (Hrule & _).
    apply Hrule. unfold live.
    assert (filter (fun entry => now - entry < alertWindowMs (options b))
                   (recorded b streamerId) = []) as ->.
    { induction Hold as [|entry l Hentry _ IH]; [reflexivity|].
      rewrite filter_cons_False by (fold window; lia). exact IH. }
    simpl. fold budget. lia.
Qed.

End BroadcasterFacts.

Section BroadcasterExamples.
Import WebSocketBroadcaster.

Lemma studio_reaches_alice : reached Samples.studio "alice" 1%nat.
Proof.
  split; [|reflexivity]. exists {["alice"]}. split; [reflexivity | set_solver].
Qed.

Lemma studio_clients_distinct : NoDup (clients Samples.studio).
Proof.
  apply NoDup_cons. split; [|apply NoDup_singleton].
  intros Hin. apply list_elem_of_singleton in Hin. discriminate.
Qed.

(** The example of the specification: budget 2, window 10 s, three events
    within one second; two are delivered, and a publish ten seconds later
    goes through. *)
Lemma rate_limit_sliding_window_witness :
  inbox 1%nat
    (wire (publishAll "alice" [(0, "t1"); (300, "t2"); (900, "t3")] Samples.studio))
  = [Tip "alice" "t1"; Tip "alice" "t2"]
  /\ fst (shouldBroadcast "alice" 10300
            (publishAll "alice" [(0, "t1"); (300, "t2"); (900, "t3")] Samples.studio))
     = true.
Proof.
  split.
  - destruct (rate_limit_sliding_window string Samples.studio "alice") as (_ & Hburst & _).
    rewrite Hburst.
    + reflexivity.
    + exact studio_clients_distinct.
    + left.
    + exact studio_reaches_alice.
    + intros e _. reflexivity.
    + simpl. repeat constructor; simpl; lia.
  - destruct (rate_limit_sliding_window string
                (publishAll "alice" [(0, "t1"); (300, "t2"); (900, "t3")] Samples.studio)
                "alice") as (_ & _ & Hlater).
    apply Hlater.
    + vm_compute. reflexivity.
    + vm_compute. repeat constructor; discriminate.
Defined.

(** Connection 2 is subscribed to "bob" only: a tip for "alice" adds
    nothing to what it was sent, while connection 1 receives it. *)
Lemma broadcastTip_reaches_only_subscribers_witness :
  inbox 2%nat (wire (broadcastTip "alice" "t1" 0 Samples.studio))
  = inbox 2%nat (wire Samples.studio)
  /\ inbox 1%nat (wire (broadcastTip "alice" "t1" 0 Samples.studio))
     = [Tip "alice" "t1"].
Proof.
  split; [|reflexivity].
  destruct (broadcastTip_reaches_only_subscribers string Samples.studio "alice" "t1" 0)
    as (sent & _ & _ & Hquiet).
  apply (Hquiet 2%nat "bob").
  - exists {["bob"]}. split; [reflexivity | set_solver].
  - intros (subs & Hsubs & Hin).
    assert (subscriptions Samples.studio !! 2%nat = Some ({["bob"]} : gset string)) as Hbob
      by reflexivity.
    rewrite Hbob in Hsubs. injection Hsubs as <-.
    apply elem_of_singleton in Hin. discriminate.
Defined.

(** A name no registry knows is subscribed and acknowledged; an empty name
    leaves the broadcaster as it was. *)
Lemma handleMessage_subscribe_unchecked_witness :
  subscribed
    (handleMessage 3%nat
       {| action := Some "subscribe"; type := None; streamer := Some "nobody" |}
       Samples.studio) 3%nat "nobody"
  /\ wire (handleMessage 3%nat
             {| action := Some "subscribe"; type := None; streamer := Some "nobody" |}
             Samples.studio)
     = [(3%nat, Subscribed "nobody")]
  /\ handleMessage 3%nat
       {| action := None; type := Some "subscribe"; streamer := Some "" |} Samples.studio
     = Samples.studio.
Proof.
  destruct (handleMessage_subscribe_unchecked string Samples.studio 3%nat
              {| action := Some "subscribe"; type := None; streamer := Some "nobody" |}
              eq_refl) as [Hadd _].
  destruct (Hadd "nobody" eq_refl eq_refl) as (_ & Hsub & _ & Hwire & _).
  split; [exact Hsub|]. split; [exact Hwire|].
  apply (handleMessage_subscribe_unchecked string Samples.studio 3%nat
           {| action := None; type := Some "subscribe"; streamer := Some "" |} eq_refl).
  reflexivity.
Defined.

End BroadcasterExamples.

(** ** arrayToBase58 against bs58.decode *)

Section EncoderFacts.
Import PhantomWalletAdapter.

Lemma charAt_digit d : (d < 58)%N -> Bs58.digit (charAt d) = Some d.
Proof.
  intros Hd.
  assert (forallb (fun k => match Bs58.digit (charAt (N.of_nat k)) with
                            | Some d' => N.eqb d' (N.of_nat k)
                            | None => false
                            end) (seq 0 58) = true) as Hall by (vm_compute; reflexivity).
  rewrite forallb_forall in Hall. specialize (Hall (N.to_nat d)).
  rewrite N2Nat.id in Hall.
  destruct (Bs58.digit (charAt d)) as [d'|].
  - f_equal. apply N.eqb_eq. apply Hall. apply in_seq. lia.
  - discriminate Hall. apply in_seq. lia.
Qed.

Lemma value_snoc ds d : Bs58.value (ds ++ [d]) = (Bs58.value ds * 58 + d)%N.
Proof. unfold Bs58.value. rewrite fold_left_app. reflexivity. Qed.

(** The middle loop writes [num] in base 58, most significant digit first
    and without a leading zero digit, in front of what was there. *)
Lemma digitsLoop_spec fuel :
  forall num encoded tail,
    (num < 58 ^ N.of_nat fuel)%N ->
    Bs58.digits encoded = Some tail ->
    exists ds,
      Bs58.digits (digitsLoop fuel num encoded) = Some (ds ++ tail)
      /\ Bs58.value ds = num
      /\ head ds ≠ Some 0%N
      /\ String.length (digitsLoop fuel num encoded) = (length ds + String.length encoded)%nat.
Proof.
  induction fuel as [|fuel IH]; intros num encoded tail Hnum Htail.
  - simpl in Hnum. assert (num = 0%N) as -> by lia.
    exists []. simpl. repeat split; [exact Htail | discriminate].
  - cbn [digitsLoop]. destruct (N.ltb_spec 0 num) as [Hpos|Hzero].
    + assert (num mod 58 < 58)%N as Hmod by (apply N.mod_lt; discriminate).
      destruct (IH (num / 58)%N (String (charAt (num mod 58)%N) encoded) ((num mod 58)%N :: tail))
        as (ds & Hds & Hval & Hhead & Hlen).
      * rewrite Nat2N.inj_succ, N.pow_succ_r' in Hnum.
        apply N.Div0.div_lt_upper_bound. exact Hnum.
      * simpl. rewrite (charAt_digit _ Hmod), Htail. reflexivity.
      * exists (ds ++ [(num mod 58)%N]). rewrite <- app_assoc. split; [exact Hds|].
        split; [rewrite value_snoc, Hval; symmetry; rewrite N.mul_comm; apply N.div_mod; discriminate|].
        split.
        -- destruct ds as [|d ds]; [|exact Hhead]. simpl in *. intros [= Hd].
           rewrite (N.div_mod num 58) in Hpos by discriminate. unfold Bs58.value in Hval.
           simpl in Hval. lia.
        -- rewrite Hlen, length_app. simpl. lia.
    + assert (num = 0%N) as -> by lia.
      exists []. simpl. repeat split; [exact Htail | discriminate].
Qed.

(** More fuel than [2 * length array] changes nothing: the loop has ended. *)
Lemma digitsLoop_more fuel : forall num encoded extra,
  (num < 58 ^ N.of_nat fuel)%N ->
  digitsLoop (fuel + extra) num encoded = digitsLoop fuel num encoded.
Proof.
  induction fuel as [|fuel IH]; intros num encoded extra Hnum.
  - simpl in Hnum. assert (num = 0%N) as -> by lia. destruct extra; reflexivity.
  - cbn [Nat.add digitsLoop]. destruct (0 <? num)%N; [|reflexivity].
    apply IH. rewrite Nat2N.inj_succ, N.pow_succ_r' in Hnum.
    apply N.Div0.div_lt_upper_bound. exact Hnum.
Qed.

Lemma toNumber_bound array : (toNumber array < 256 ^ N.of_nat (length array))%N.
Proof.
  unfold toNumber.
  assert (forall acc, (fold_left (fun num b => num * 256 + N_of_ascii (ascii_of_byte b)) array acc
                       < (acc + 1) * 256 ^ N.of_nat (length array))%N) as Hgen.
  { induction array as [|b array IH]; intros acc; simpl length.
    - simpl. lia.
    - cbn [fold_left]. specialize (IH (acc * 256 + N_of_ascii (ascii_of_byte b))%N).
      rewrite Nat2N.inj_succ, N.pow_succ_r'.
      eapply N.lt_le_trans; [exact IH|].
      rewrite N.mul_assoc. apply N.mul_le_mono_r.
      pose proof (N_ascii_bounded (ascii_of_byte b)). lia. }
  specialize (Hgen 0%N). rewrite N.add_0_l, N.mul_1_l in Hgen. exact Hgen.
Qed.

Lemma toNumber_fuel array : (toNumber array < 58 ^ N.of_nat (2 * length array))%N.
Proof.
  eapply N.lt_le_trans; [apply toNumber_bound|].
  rewrite Nat2N.inj_mul, N.pow_mul_r. apply N.pow_le_mono_l. simpl. lia.
Qed.

Lemma digitsLoop_fuel array extra :
  digitsLoop (2 * length array + extra) (toNumber array) ""
  = digitsLoop (2 * length array) (toNumber array) "".
Proof. apply digitsLoop_more, toNumber_fuel. Qed.

Lemma byte_value_zero b : N_of_ascii (ascii_of_byte b) = 0%N -> b = x00.
Proof.
  intros Hb. rewrite <- (byte_of_ascii_of_byte b), <- (ascii_N_embedding (ascii_of_byte b)), Hb.
  reflexivity.
Qed.

Lemma bytes_value_cons b l :
  bytes_value (b :: l)
  = (N_of_ascii (ascii_of_byte b) * 256 ^ N.of_nat (length l) + bytes_value l)%N.
Proof.
  unfold bytes_value at 1. cbn [fold_left]. rewrite bytes_value_app. lia.
Qed.

Lemma bytes_value_snoc l b :
  bytes_value (l ++ [b]) = (bytes_value l * 256 + N_of_ascii (ascii_of_byte b))%N.
Proof. unfold bytes_value. rewrite fold_left_app. reflexivity. Qed.

(** A byte string that does not begin with a zero writes a number of at
    least [256 ^ (length - 1)]. *)
Lemma bytes_value_lower b l :
  b ≠ x00 -> (256 ^ N.of_nat (length l) <= bytes_value (b :: l))%N.
Proof.
  intros Hb. rewrite bytes_value_cons.
  assert (N_of_ascii (ascii_of_byte b) ≠ 0%N) as Hpos
    by (intros Hz; apply Hb, byte_value_zero, Hz).
  nia.
Qed.

(** [be_bytes] gives back a byte string without leading zero from the
    number it writes, as soon as the fuel covers its length. *)
Lemma be_bytes_canonical l :
  forall acc fuel,
    head l ≠ Some x00 -> (length l <= fuel)%nat ->
    Bs58.be_bytes fuel (bytes_value l) acc = l ++ acc.
Proof.
  induction l as [|b l IH] using rev_ind; intros acc fuel Hhead Hfuel.
  - destruct fuel; reflexivity.
  - rewrite length_app in Hfuel. simpl in Hfuel.
    destruct fuel as [|fuel]; [lia|]. cbn [Bs58.be_bytes].
    rewrite bytes_value_snoc.
    pose proof (N_ascii_bounded (ascii_of_byte b)) as Hb.
    assert (bytes_value l * 256 + N_of_ascii (ascii_of_byte b) ≠ 0)%N as Hpos.
    { destruct l as [|b' l'].
      - simpl in Hhead. unfold bytes_value. simpl. intros Hz.
        apply Hhead. f_equal. apply byte_value_zero. exact Hz.
      - simpl in Hhead. assert (b' ≠ x00) as Hb' by congruence.
        pose proof (bytes_value_lower b' l' Hb') as Hlow.
        assert (0 < 256 ^ N.of_nat (length l'))%N by (apply N.neq_0_lt_0, N.pow_nonzero; discriminate). lia. }
    destruct (N.eqb_spec (bytes_value l * 256 + N_of_ascii (ascii_of_byte b)) 0) as [Hz|_];
      [contradiction|].
    replace ((bytes_value l * 256 + N_of_ascii (ascii_of_byte b)) / 256)%N with (bytes_value l)
      by (apply N.div_unique with (r := N_of_ascii (ascii_of_byte b)); lia).
    replace ((bytes_value l * 256 + N_of_ascii (ascii_of_byte b)) mod 256)%N
      with (N_of_ascii (ascii_of_byte b))
      by (apply N.mod_unique with (q := bytes_value l); lia).
    unfold Bs58.byte_of_N. rewrite ascii_N_embedding, byte_of_ascii_of_byte.
    rewrite IH.
    + rewrite <- app_assoc. reflexivity.
    + destruct l; [discriminate | exact Hhead].
    + lia.
Qed.

(** The array is some zeros and a rest that does not begin with a zero; the
    last loop puts as many '1' in front. *)
Lemma leadingOnes_spec array encoded :
  exists z rest,
    array = repeat x00 z ++ rest /\ head rest ≠ Some x00
    /\ leadingOnes array encoded = Nat.iter z (String "1"%char) encoded.
Proof.
  induction array as [|b array IH]; simpl.
  - exists O, []. repeat split. discriminate.
  - destruct (Byte.eqb b x00) eqn:Hb.
    + apply Byte.byte_dec_bl in Hb. subst b.
      destruct IH as (z & rest & Harr & Hhead & Hones).
      exists (S z), rest. simpl. rewrite <- Harr, Hones. repeat split. exact Hhead.
    + exists O, (b :: array). repeat split. simpl. intros [= ->]. discriminate.
Qed.

Lemma ones_digits z encoded ds :
  Bs58.digits encoded = Some ds ->
  Bs58.digits (Nat.iter z (String "1"%char) encoded) = Some (repeat 0%N z ++ ds)
  /\ String.length (Nat.iter z (String "1"%char) encoded) = (z + String.length encoded)%nat.
Proof.
  intros Hds. induction z as [|z [IHd IHl]]; [split; [exact Hds | reflexivity]|].
  rewrite Nat.iter_succ. split.
  - change (Bs58.digits (String "1"%char (Nat.iter z (String "1"%char) encoded)))
      with (match Bs58.digits (Nat.iter z (String "1"%char) encoded) with
            | Some ds' => Some (0%N :: ds')
            | None => None
            end).
    rewrite IHd. reflexivity.
  - cbn [String.length]. rewrite IHl. reflexivity.
Qed.

Lemma zeroes_repeat z ds :
  head ds ≠ Some 0%N -> Bs58.zeroes (repeat 0%N z ++ ds) = z.
Proof.
  intros Hhead. induction z as [|z IH]; simpl; [|rewrite IH; reflexivity].
  destruct ds as [|[|p] ds]; try reflexivity. contradiction Hhead. reflexivity.
Qed.

Lemma value_repeat z ds : Bs58.value (repeat 0%N z ++ ds) = Bs58.value ds.
Proof. induction z as [|z IH]; [reflexivity|]. unfold Bs58.value in *. simpl. exact IH. Qed.

(** What [arrayToBase58] writes, [bs58.decode] reads back. *)
Lemma decode_arrayToBase58 (array : list byte) :
  Bs58.decode (arrayToBase58 array) = Return array.
Proof.
  unfold arrayToBase58.
  destruct (leadingOnes_spec array (digitsLoop (2 * length array) (toNumber array) ""))
    as (z & rest & Harr & Hhead & ->).
  destruct (digitsLoop_spec (2 * length array) (toNumber array) "" [] (toNumber_fuel array) eq_refl)
    as (ds & Hds & Hval & Hnz & Hlen).
  rewrite app_nil_r in Hds.
  destruct (ones_digits z _ ds Hds) as [Hall Hlen'].
  unfold Bs58.decode. rewrite Hall, Hlen', Hlen, zeroes_repeat, value_repeat, Hval by exact Hnz.
  assert (toNumber array = bytes_value rest) as Hnum.
  { change (toNumber array) with (bytes_value array). rewrite Harr. apply bytes_value_zeroes. }
  rewrite Hnum, be_bytes_canonical; [rewrite app_nil_r, <- Harr; reflexivity | exact Hhead |].
  destruct rest as [|b rest]; [simpl; lia|].
  assert (b ≠ x00) as Hb by (simpl in Hhead; congruence).
  pose proof (bytes_value_lower b rest Hb) as Hlow.
  assert (Forall (fun d => (d < 58)%N) ds) as Hbound.
  { destruct (digits_bound _ _ Hds) as [Hall' _]. exact Hall'. }
  pose proof (value_bound ds 0 Hbound) as Hup. fold (Bs58.value ds) in Hup.
  rewrite Hval, Hnum, N.add_0_l, N.mul_1_l in Hup.
  assert (58 ^ N.of_nat (length ds) <= 256 ^ N.of_nat (length ds))%N as Hle
    by (apply N.pow_le_mono_l; lia).
  assert (N.of_nat (length rest) < N.of_nat (length ds))%N as Hlt.
  { apply (N.pow_lt_mono_r_iff 256); lia. }
  simpl. lia.
Qed.

(** X3: the round trip through [arrayToBase58] and [bs58.decode] gives the
    array again, whatever its length and its leading zeros; the text is made
    of characters of the alphabet only, and two arrays with the same text
    are the same array. *)
Theorem arrayToBase58_decode :
  forall array : list byte,
    Bs58.decode (arrayToBase58 array) = Return array
    /\ is_base58 (arrayToBase58 array)
    /\ (forall array', arrayToBase58 array' = arrayToBase58 array -> array' = array).
Proof.
  intros array. split; [apply decode_arrayToBase58|]. split.
  - apply decode_returns_iff. exists array. apply decode_arrayToBase58.
  - intros array' Hsame. pose proof (decode_arrayToBase58 array') as Hback.
    rewrite Hsame, decode_arrayToBase58 in Hback. congruence.
Qed.

End EncoderFacts.

(** ** The registry: register over a storage backend *)

Section RegistryFacts.
Context `{Runtime}.
Import PhantomWalletAdapter.

Lemma verifySignature_returns message signature pubkey :
  exists b, Crypto.verifySignature message signature pubkey = Return b.
Proof.
  unfold Crypto.verifySignature, Crypto.nacl_sign_detached_verify.
  destruct (Bs58.decode signature) as [sig|]; simpl; [|eauto].
  destruct (Bs58.decode pubkey) as [key|]; simpl; [|eauto].
  destruct (negb _); simpl; [eauto|]. destruct (negb _); simpl; eauto.
Qed.

(** X4: a signature and a key written by [arrayToBase58] reach the
    primitive as the very bytes that were encoded: [verifySignature] answers
    what the primitive answers on them when they are 64 and 32 bytes long,
    and false for any other length. *)
Theorem verifySignature_of_encoded :
  forall (message : string) (sig key : list byte),
    Crypto.verifySignature message (arrayToBase58 sig) (arrayToBase58 key)
    = Return (Nat.eqb (length sig) 64 && Nat.eqb (length key) 32
              && crypto_sign_open (utf8_encode message) sig key).
Proof.
  intros message sig key.
  unfold Crypto.verifySignature, Crypto.nacl_sign_detached_verify.
  rewrite !decode_arrayToBase58. simpl.
  unfold Crypto.crypto_sign_BYTES, Crypto.crypto_sign_PUBLICKEYBYTES.
  destruct (Nat.eqb (length sig) 64); simpl; [|reflexivity].
  destruct (Nat.eqb (length key) 32); reflexivity.
Qed.

Section AnyStorage.
Context {S : Type} (storage : StorageAdapter.t S).

(** X5: over any storage backend, [register] throws nothing.  It answers
    success only when the four fields are non-empty, the signature verifies
    and the backend stored the record; with a missing field or a signature
    that does not verify it leaves the storage as it was; an exception of
    the backend becomes the failure 'Storage error'. *)
Theorem register_gate :
  forall (now : Z) (streamerId pubkey message signature : string) (s : S),
    exists r s',
      StreamerRegistry.register storage now streamerId pubkey message signature s
      = (Return r, s')
      /\ (r = StreamerRegistry.Success ->
          complete streamerId pubkey message signature
          /\ Crypto.verifySignature message signature pubkey = Return true
          /\ StorageAdapter.registerStreamer now streamerId pubkey message s = (Return tt, s'))
      /\ (~ complete streamerId pubkey message signature ->
          r = StreamerRegistry.Failure "Missing required fields" /\ s' = s)
      /\ (complete streamerId pubkey message signature ->
          Crypto.verifySignature message signature pubkey = Return false ->
          r = StreamerRegistry.Failure "Invalid signature" /\ s' = s)
      /\ (complete streamerId pubkey message signature ->
          Crypto.verifySignature message signature pubkey = Return true ->
          forall e s1,
            StorageAdapter.registerStreamer now streamerId pubkey message s = (Throw e, s1) ->
            r = StreamerRegistry.Failure "Storage error" /\ s' = s1).
Proof.
  intros now streamerId pubkey message signature s.
  unfold StreamerRegistry.register, complete.
  destruct (truthy streamerId), (truthy pubkey), (truthy message), (truthy signature); simpl;
    try (eexists _, _; split; [reflexivity|];
         repeat split; try discriminate; try reflexivity; intuition discriminate).
  unfold bind, lift, try_catch, ret.
  destruct (verifySignature_returns message signature pubkey) as [[|] Hv]; rewrite Hv; simpl.
  - destruct (StorageAdapter.registerStreamer now streamerId pubkey message s)
      as [[[]|e] s1] eqn:Hstore.
    + eexists _, _. split; [reflexivity|].
      split; [intros _; repeat split; reflexivity|].
      split; [intros Hmiss; exfalso; apply Hmiss; repeat split; reflexivity|].
      split; [intros _ [=]|]. intros _ _ e s2 [=].
    + eexists _, _. split; [reflexivity|].
      split; [intros [=]|].
      split; [intros Hmiss; exfalso; apply Hmiss; repeat split; reflexivity|].
      split; [intros _ [=]|]. intros _ _ e' s2 [= _ <-]. split; reflexivity.
  - eexists _, _. split; [reflexivity|].
    split; [intros [=]|].
    split; [intros Hmiss; exfalso; apply Hmiss; repeat split; reflexivity|].
    split; [intros _ _; split; reflexivity|]. intros _ [=].
Qed.

End AnyStorage.

(** *** The in-memory backend *)

Lemma map_get_set {V : Type} (key key' : string) (value : V) (entries : list (string * V)) :
  StorageAdapter.map_get key' (StorageAdapter.map_set key value entries)
  = if String.eqb key key' then Some value else StorageAdapter.map_get key' entries.
Proof.
  induction entries as [|[k v] entries IH]; simpl.
  - destruct (String.eqb key key'); reflexivity.
  - destruct (String.eqb_spec k key) as [->|Hk]; simpl.
    + destruct (String.eqb key key'); reflexivity.
    + rewrite IH. destruct (String.eqb_spec key key') as [<-|Hk'].
      * destruct (String.eqb_spec k key); [contradiction | reflexivity].
      * reflexivity.
Qed.

Lemma map_set_keys {V : Type} (key : string) (value : V) (entries : list (string * V)) :
  map fst (StorageAdapter.map_set key value entries)
  = if decide (key ∈ map fst entries) then map fst entries else map fst entries ++ [key].
Proof.
  induction entries as [|[k v] entries IH].
  - cbn [StorageAdapter.map_set map]. destruct (decide (key ∈ [])) as [Hin|_]; [|reflexivity].
    inversion Hin.
  - cbn [StorageAdapter.map_set map fst].
    destruct (String.eqb_spec k key) as [->|Hk]; cbn [map fst].
    + destruct (decide (key ∈ key :: map fst entries)) as [_|Hout]; [reflexivity|].
      exfalso. apply Hout. left.
    + rewrite IH. destruct (decide (key ∈ map fst entries)) as [Hin|Hout];
        destruct (decide (key ∈ k :: map fst entries)) as [Hin'|Hout']; try reflexivity.
      * exfalso. apply Hout'. right. exact Hin.
      * exfalso. apply elem_of_cons in Hin' as [->|Hin']; contradiction.
Qed.

Lemma map_set_NoDup {V : Type} (key : string) (value : V) (entries : list (string * V)) :
  NoDup (map fst entries) -> NoDup (map fst (StorageAdapter.map_set key value entries)).
Proof.
  intros Hnd. rewrite map_set_keys. destruct (decide (key ∈ map fst entries)) as [Hin|Hout].
  - exact Hnd.
  - apply NoDup_app. split; [exact Hnd|]. split; [|apply NoDup_singleton].
    intros x Hx Hx'. apply list_elem_of_singleton in Hx'. subst x. contradiction.
Qed.

(** [register] on the in-memory backend, case by case. *)
Lemma memory_register_cases now streamerId pubkey message signature (a : MemoryAdapter.t) :
  StreamerRegistry.register StorageAdapter.memory now streamerId pubkey message signature a
  = if truthy streamerId && truthy pubkey && truthy message && truthy signature
    then match Crypto.verifySignature message signature pubkey with
         | Return true =>
             (Return StreamerRegistry.Success,
              snd (StorageAdapter.memory_registerStreamer now streamerId pubkey message a))
         | _ => (Return (StreamerRegistry.Failure "Invalid signature"), a)
         end
    else (Return (StreamerRegistry.Failure "Missing required fields"), a).
Proof.
  unfold StreamerRegistry.register.
  destruct (truthy streamerId), (truthy pubkey), (truthy message), (truthy signature);
    try reflexivity.
  simpl. unfold bind, lift, try_catch, ret.
  destruct (verifySignature_returns message signature pubkey) as [[|] Hv]; rewrite Hv;
    reflexivity.
Qed.

(** X6: on the in-memory backend, a successful [register] is what
    [getStreamer] answers with from then on: the record holds the key, the
    message and the clock reading of this call, whatever was stored for the
    id before (the last registration wins).  The records of the other ids
    and the cursors are untouched, and the id keeps its place in the
    registry if it was known, or goes to its end. *)
Theorem memory_register_then_getStreamer :
  forall now streamerId pubkey message signature (a a' : MemoryAdapter.t),
    StreamerRegistry.register StorageAdapter.memory now streamerId pubkey message signature a
    = (Return StreamerRegistry.Success, a') ->
    fst (StreamerRegistry.getStreamer StorageAdapter.memory streamerId a')
    = Return (Some {| MemoryAdapter.pubkey := pubkey;
                      MemoryAdapter.message := message;
                      MemoryAdapter.registeredAt := now |})
    /\ (forall other, other ≠ streamerId ->
          fst (StreamerRegistry.getStreamer StorageAdapter.memory other a')
          = fst (StreamerRegistry.getStreamer StorageAdapter.memory other a))
    /\ MemoryAdapter.lastSeen a' = MemoryAdapter.lastSeen a
    /\ map fst (MemoryAdapter.getAllStreamers a')
       = if decide (streamerId ∈ map fst (MemoryAdapter.getAllStreamers a))
         then map fst (MemoryAdapter.getAllStreamers a)
         else map fst (MemoryAdapter.getAllStreamers a) ++ [streamerId].
Proof.
  intros now streamerId pubkey message signature a a'. rewrite memory_register_cases.
  destruct (truthy streamerId && truthy pubkey && truthy message && truthy signature);
    [|discriminate].
  destruct (Crypto.verifySignature message signature pubkey) as [[|]|]; try discriminate.
  intros [= <-]. simpl. unfold StorageAdapter.memory_getStreamer. simpl.
  split; [rewrite map_get_set, String.eqb_refl; reflexivity|].
  split; [|split; [reflexivity | apply map_set_keys]].
  intros other Hne. rewrite map_get_set.
  destruct (String.eqb_spec streamerId other) as [->|_]; [contradiction | reflexivity].
Qed.

(** X7: whatever [register] calls were made on an in-memory backend that
    started empty, no id is listed twice by [getAllStreamers] (so a poll
    runs one cycle per registered id). *)
Theorem registry_ids_unique :
  forall calls : list (Z * string * string * string * string),
    NoDup (map fst (MemoryAdapter.getAllStreamers (registrations calls MemoryAdapter.empty))).
Proof.
  intros calls. unfold registrations.
  assert (forall a, NoDup (map fst (MemoryAdapter.streamers a)) ->
            NoDup (map fst (MemoryAdapter.streamers
              (fold_left (fun a call =>
                 match call with
                 | (now, streamerId, pubkey, message, signature) =>
                     snd (StreamerRegistry.register StorageAdapter.memory
                            now streamerId pubkey message signature a)
                 end) calls a)))) as Hinv.
  { induction calls as [|[[[[now streamerId] pubkey] message] signature] calls IH];
      intros a Hnd; [exact Hnd|].
    cbn [fold_left]. apply IH. rewrite memory_register_cases.
    destruct (truthy streamerId && truthy pubkey && truthy message && truthy signature);
      [|exact Hnd].
    destruct (Crypto.verifySignature message signature pubkey) as [[|]|]; try exact Hnd.
    simpl. apply map_set_NoDup. exact Hnd. }
  apply Hinv. constructor.
Qed.

(** X8: [register] binds the proof to no streamer id: a key, message and
    signature accepted for one id are accepted for every other non-empty
    id, at any time and on any state of the in-memory backend. *)
Theorem register_accepts_proof_for_any_id :
  forall now streamerId pubkey message signature (a a' : MemoryAdapter.t),
    StreamerRegistry.register StorageAdapter.memory now streamerId pubkey message signature a
    = (Return StreamerRegistry.Success, a') ->
    forall now' streamerId' (b : MemoryAdapter.t),
      truthy streamerId' = true ->
      fst (StreamerRegistry.register StorageAdapter.memory now' streamerId'
             pubkey message signature b)
      = Return StreamerRegistry.Success
      /\ fst (StreamerRegistry.getStreamer StorageAdapter.memory streamerId'
                (snd (StreamerRegistry.register StorageAdapter.memory now' streamerId'
                        pubkey message signature b)))
         = Return (Some {| MemoryAdapter.pubkey := pubkey;
                           MemoryAdapter.message := message;
                           MemoryAdapter.registeredAt := now' |}).
Proof.
  intros now streamerId pubkey message signature a a'. rewrite memory_register_cases.
  destruct (truthy streamerId) eqn:Hid; [|discriminate]. simpl.
  destruct (truthy pubkey && truthy message && truthy signature) eqn:Hrest; [|discriminate].
  destruct (Crypto.verifySignature message signature pubkey) as [[|]|] eqn:Hv;
    try discriminate.
  intros _ now' streamerId' b Hid'. rewrite memory_register_cases, Hid'. simpl.
  rewrite Hrest, Hv. simpl. split; [reflexivity|].
  unfold StorageAdapter.memory_getStreamer. simpl.
  rewrite map_get_set, String.eqb_refl. reflexivity.
Qed.

End RegistryFacts.

(** ** The broadcaster: closing, subscribing, budgets *)

Section BroadcasterLifeFacts.
Variable TipData : Type.
Import WebSocketBroadcaster.

Local Abbreviation State := (WebSocketBroadcaster.State TipData).

Lemma onClose_spec (ws : nat) (b : State) :
  (forall name, ~ subscribed (onClose ws b) ws name)
  /\ (forall ws', ws' ≠ ws -> subscriptions (onClose ws b) !! ws' = subscriptions b !! ws')
  /\ wire (onClose ws b) = wire b /\ alertCounts (onClose ws b) = alertCounts b
  /\ options (onClose ws b) = options b /\ clients (onClose ws b) = clients b
  /\ readyState (onClose ws b) = readyState b.
Proof.
  unfold onClose, set_subscriptions, subscribed. cbn [subscriptions wire alertCounts options
    clients readyState]. split; [|split; [|repeat split]].
  - intros name (subs & Hs & _). rewrite lookup_delete_eq in Hs. discriminate.
  - intros ws' Hne. apply lookup_delete_ne. congruence.
Qed.

Lemma broadcastTip_unsubscribed (streamerId : string) (tipData : TipData) (now : Z)
  (ws : nat) (b : State) :
  ~ subscribed b ws streamerId ->
  inbox ws (wire (broadcastTip streamerId tipData now b)) = inbox ws (wire b).
Proof.
  intros Hnot. destruct (broadcastTip_spec TipData streamerId tipData now b) as (Hw & _).
  rewrite Hw, inbox_app.
  rewrite <- (app_nil_r (inbox ws (wire b))) at 2. f_equal.
  destruct (fst (shouldBroadcast streamerId now b)); [|reflexivity].
  apply inbox_others. intros Hin.
  apply list_elem_of_filter in Hin as [[Hsub _] _]. contradiction.
Qed.

(** X9: once a connection has closed, it has no subscription left, the
    other connections keep theirs, and no publish, for any recipient and in
    any number, sends anything on it. *)
Theorem onClose_silences_connection :
  forall (b : State) (ws : nat),
    (forall name, ~ subscribed (onClose ws b) ws name)
    /\ (forall ws' name, ws' ≠ ws ->
          (subscribed (onClose ws b) ws' name <-> subscribed b ws' name))
    /\ (forall (tips : list (string * TipData * Z)),
          inbox ws (wire (fold_left (fun b tip =>
                                       match tip with
                                       | (streamerId, tipData, now) =>
                                           broadcastTip streamerId tipData now b
                                       end) tips (onClose ws b)))
          = inbox ws (wire b)).
Proof.
  intros b ws. destruct (onClose_spec ws b) as (Hnone & Hothers & Hwire & _).
  split; [exact Hnone|]. split.
  - intros ws' name Hne. unfold subscribed. rewrite (Hothers ws' Hne). reflexivity.
  - intros tips. rewrite <- Hwire.
    assert (forall b0 : State, (forall name, ~ subscribed b0 ws name) ->
              inbox ws (wire (fold_left (fun b tip =>
                                           match tip with
                                           | (streamerId, tipData, now) =>
                                               broadcastTip streamerId tipData now b
                                           end) tips b0))
              = inbox ws (wire b0)) as Hquiet.
    { induction tips as [|[[streamerId tipData] now] tips IH]; intros b0 Hb0; [reflexivity|].
      cbn [fold_left]. rewrite IH.
      - apply broadcastTip_unsubscribed, Hb0.
      - intros name. destruct (broadcastTip_spec TipData streamerId tipData now b0)
          as (_ & _ & _ & _ & _ & Hs).
        unfold subscribed. rewrite Hs. apply Hb0. }
    apply Hquiet, Hnone.
Qed.

(** What a [subscribe] message with a non-empty name does. *)
Lemma handleMessage_subscribe (b : State) (ws : nat) (msg : ClientMsg) (name : string) :
  or_else (action msg) (type msg) = Some "subscribe" ->
  streamer msg = Some name -> truthy name = true ->
  let b' := handleMessage ws msg b in
  subscriptions b' = <[ws := default ∅ (subscriptions b !! ws) ∪ {[name]}]> (subscriptions b)
  /\ wire b' = wire b ++ [(ws, Subscribed name)]
  /\ readyState b' = readyState b /\ clients b' = clients b
  /\ alertCounts b' = alertCounts b /\ options b' = options b.
Proof.
  intros Hkind Hname Htruthy. unfold handleMessage. rewrite Hkind, Hname, Htruthy.
  destruct (subscriptions b !! ws) as [subs|] eqn:Hsub;
    cbn [send set_subscriptions subscriptions wire readyState clients alertCounts options].
  - rewrite Hsub. repeat split.
  - rewrite lookup_insert_eq. cbn [from_option id]. rewrite insert_insert_eq. repeat split.
Qed.

Ltac crack kind :=
  destruct kind as [|[[] [] [] [] [] [] [] []] kind]; try reflexivity.

(** The [switch] of [handleMessage] as two comparisons. *)
Lemma switch_kind {A : Type} (kind : string) (x y z : A) :
  match kind with
  | "subscribe" => x
  | "ping" => y
  | _ => z
  end = if String.eqb kind "subscribe" then x else if String.eqb kind "ping" then y else z.
Proof.
  do 10 (crack kind).
Qed.

Lemma handleMessage_switch (b : State) (ws : nat) (msg : ClientMsg) :
  handleMessage ws msg b
  = match or_else (action msg) (type msg) with
    | Some kind =>
        if String.eqb kind "subscribe" then
          match streamer msg with
          | Some name =>
              if truthy name
              then send ws (Subscribed name)
                     (set_subscriptions
                        (<[ws := default ∅ (subscriptions b !! ws) ∪ {[name]}]>
                           (subscriptions b)) b)
              else b
          | None => b
          end
        else if String.eqb kind "ping" then send ws Pong b else b
    | None => b
    end.
Proof.
  unfold handleMessage. destruct (or_else (action msg) (type msg)) as [kind|]; [|reflexivity].
  etransitivity; [apply switch_kind|].
  destruct (String.eqb kind "subscribe"); [|reflexivity].
  destruct (streamer msg) as [name|]; [|reflexivity].
  destruct (truthy name); [|reflexivity].
  destruct (subscriptions b !! ws) as [subs|] eqn:Hsub;
    cbn [send set_subscriptions subscriptions wire readyState clients alertCounts options].
  - rewrite Hsub. reflexivity.
  - rewrite lookup_insert_eq. cbn [from_option id]. rewrite insert_insert_eq. reflexivity.
Qed.

(** Any inbound message leaves the rate records, the options, the clients
    and the ready states alone, and takes no subscription away. *)
Lemma handleMessage_keeps (b : State) (ws : nat) (msg : ClientMsg) :
  alertCounts (handleMessage ws msg b) = alertCounts b
  /\ options (handleMessage ws msg b) = options b
  /\ clients (handleMessage ws msg b) = clients b
  /\ readyState (handleMessage ws msg b) = readyState b
  /\ (forall ws' name, subscribed b ws' name -> subscribed (handleMessage ws msg b) ws' name).
Proof.
  rewrite handleMessage_switch.
  destruct (or_else (action msg) (type msg)) as [kind|]; [|repeat split; tauto].
  destruct (String.eqb kind "subscribe").
  - destruct (streamer msg) as [name|]; [|repeat split; tauto].
    destruct (truthy name); [|repeat split; tauto].
    cbn [send set_subscriptions subscriptions wire readyState clients alertCounts options].
    repeat split.
    intros ws' name' (subs & Hsubs & Hin). unfold subscribed.
    cbn [send set_subscriptions subscriptions].
    destruct (decide (ws = ws')) as [<-|Hne].
    + rewrite lookup_insert_eq, Hsubs. eexists. split; [reflexivity|].
      apply elem_of_union. left. exact Hin.
    + rewrite lookup_insert_ne by exact Hne. eauto.
  - destruct (String.eqb kind "ping"); repeat split; tauto.
Qed.

(** X10: a connection that is open and among the clients subscribes to a
    name and a tip for that name is published while the budget has room:
    the connection is sent the acknowledgement and then the tip, once each,
    also when it had never been seen before and whatever else it is
    subscribed to. *)
Theorem subscribe_then_publish_delivers :
  forall (b : State) (ws : nat) (name : string) (tipData : TipData) (now : Z),
    truthy name = true ->
    NoDup (clients b) -> ws ∈ clients b -> readyState b ws = 1 ->
    Z.of_nat (length (live b name now)) < maxAlertsPerWindow (options b) ->
    inbox ws (wire (broadcastTip name tipData now (handleMessage ws (subscribe_msg name) b)))
    = inbox ws (wire b) ++ [Subscribed name; Tip name tipData].
Proof.
  intros b ws name tipData now Htruthy Hnd Hcl Hopen Hroom.
  destruct (handleMessage_subscribe b ws (subscribe_msg name) name eq_refl eq_refl Htruthy)
    as (Hs & Hw & Hr & Hc & Ha & Ho).
  set (b1 := handleMessage ws (subscribe_msg name) b) in *.
  destruct (broadcastTip_spec TipData name tipData now b1) as (Hw' & _).
  destruct (shouldBroadcast_spec TipData b1 name now) as (Hrule & _).
  assert (fst (shouldBroadcast name now b1) = true) as Hallowed.
  { apply Hrule. unfold live, recorded. rewrite Ha, Ho. exact Hroom. }
  rewrite Hw', Hallowed, Hw, !inbox_app, <- app_assoc. f_equal.
  assert (inbox ws [(ws, @Subscribed TipData name)] = [Subscribed name]) as ->.
  { unfold inbox. simpl. rewrite decide_True by reflexivity. reflexivity. }
  simpl. f_equal. apply inbox_once.
  - apply NoDup_filter. rewrite Hc. exact Hnd.
  - apply list_elem_of_filter. split; [|rewrite Hc; exact Hcl].
    split; [|rewrite Hr; exact Hopen].
    unfold subscribed. rewrite Hs, lookup_insert_eq. eexists. split; [reflexivity|].
    apply elem_of_union. right. apply elem_of_singleton. reflexivity.
Qed.

(** X11: a subscription table only grows under inbound messages: whatever
    message arrives on whatever connection, every subscription that was
    there is still there (there is no way to unsubscribe but closing); and
    the same [subscribe] twice leaves the table as after the first. *)
Theorem subscriptions_only_grow :
  forall (b : State) (ws : nat) (msg : ClientMsg),
    (forall ws' name, subscribed b ws' name -> subscribed (handleMessage ws msg b) ws' name)
    /\ subscriptions (handleMessage ws msg (handleMessage ws msg b))
       = subscriptions (handleMessage ws msg b).
Proof.
  intros b ws msg. split; [apply handleMessage_keeps|].
  rewrite (handleMessage_switch (handleMessage ws msg b)), (handleMessage_switch b).
  destruct (or_else (action msg) (type msg)) as [kind|]; [|reflexivity].
  destruct (String.eqb kind "subscribe").
  - destruct (streamer msg) as [name|]; [|reflexivity].
    destruct (truthy name); [|reflexivity].
    cbn [send set_subscriptions subscriptions]. rewrite lookup_insert_eq.
    cbn [from_option id]. rewrite insert_insert_eq. f_equal.
    apply set_eq. intros x. rewrite !elem_of_union. tauto.
  - destruct (String.eqb kind "ping"); reflexivity.
Qed.

Lemma broadcastTip_recorded_other (streamerId other : string) (tipData : TipData) (now : Z)
  (b : State) :
  other ≠ streamerId -> recorded (broadcastTip streamerId tipData now b) other = recorded b other.
Proof.
  intros Hne. unfold broadcastTip.
  destruct (shouldBroadcast_spec TipData b streamerId now) as (_ & _ & Hother & _).
  destruct (shouldBroadcast streamerId now b) as [allowed b1]. simpl in Hother.
  destruct allowed; simpl; [|apply Hother; exact Hne].
  destruct (fanOut_spec TipData streamerId (Tip streamerId tipData) (clients b1) b1)
    as (_ & _ & _ & _ & _ & Ha).
  unfold recorded in *. rewrite Ha. apply Hother. exact Hne.
Qed.

(** X12: the budgets of two recipients do not touch: a publish for one,
    delivered or dropped, leaves the timestamps recorded for any other
    recipient as they were, and so the answer of the rate check for it. *)
Theorem budgets_are_per_recipient :
  forall (b : State) (streamerId other : string) (tipData : TipData) (now later : Z),
    other ≠ streamerId ->
    recorded (broadcastTip streamerId tipData now b) other = recorded b other
    /\ fst (shouldBroadcast other later (broadcastTip streamerId tipData now b))
       = fst (shouldBroadcast other later b).
Proof.
  intros b streamerId other tipData now later Hne.
  pose proof (broadcastTip_recorded_other streamerId other tipData now b Hne) as Hrec.
  split; [exact Hrec|].
  destruct (broadcastTip_spec TipData streamerId tipData now b) as (_ & _ & Ho & _).
  destruct (shouldBroadcast_spec TipData b other later) as (Hrule & _).
  destruct (shouldBroadcast_spec TipData (broadcastTip streamerId tipData now b) other later)
    as (Hrule' & _).
  unfold live in Hrule'. rewrite Hrec, Ho in Hrule'. fold (live b other later) in Hrule'.
  destruct (fst (shouldBroadcast other later b)),
    (fst (shouldBroadcast other later (broadcastTip streamerId tipData now b)));
    try reflexivity.
  - apply (proj2 Hrule'), (proj1 Hrule). reflexivity.
  - symmetry. apply (proj2 Hrule), (proj1 Hrule'). reflexivity.
Qed.

(** X13: the rate records stay small: on a broadcaster that was constructed
    with the options [o], whatever messages, closings and publishes happen,
    no recipient ever has more recorded timestamps than the budget. *)
Theorem recorded_within_budget :
  forall (o : UserOptions) (happenings : list (Happening TipData)) (streamerId : string),
    Z.of_nat (length (recorded (fold_left happen happenings (constructor TipData o)) streamerId))
    <= Z.max 0 (maxAlertsPerWindow (resolve o)).
Proof.
  intros o happenings streamerId.
  assert (forall b : State,
            options b = resolve o ->
            (forall id, Z.of_nat (length (recorded b id)) <= Z.max 0 (maxAlertsPerWindow (resolve o))) ->
            forall id, Z.of_nat (length (recorded (fold_left happen happenings b) id))
                       <= Z.max 0 (maxAlertsPerWindow (resolve o))) as Hinv.
  { induction happenings as [|h happenings IH]; intros b Ho Hb id; [apply Hb|].
    cbn [fold_left]. apply IH.
    - destruct h as [ws msg|ws|sid tipData now]; cbn [happen].
      + destruct (handleMessage_keeps b ws msg) as (_ & Ho' & _). rewrite Ho'. exact Ho.
      + exact Ho.
      + destruct (broadcastTip_spec TipData sid tipData now b) as (_ & _ & Ho' & _).
        rewrite Ho'. exact Ho.
    - intros id'. destruct h as [ws msg|ws|sid tipData now]; cbn [happen].
      + destruct (handleMessage_keeps b ws msg) as (Ha & _).
        unfold recorded. rewrite Ha. apply Hb.
      + apply Hb.
      + destruct (decide (id' = sid)) as [->|Hne].
        * destruct (broadcastTip_spec TipData sid tipData now b) as (_ & Hrec & _).
          destruct (shouldBroadcast_spec TipData b sid now) as (Hrule & _).
          rewrite Hrec. destruct (fst (shouldBroadcast sid now b)); [|apply Hb].
          rewrite length_app. cbn [length].
          assert (Z.of_nat (length (live b sid now)) < maxAlertsPerWindow (options b)) as Hlt
            by (apply Hrule; reflexivity).
          rewrite Ho in Hlt. lia.
        * rewrite broadcastTip_recorded_other by exact Hne. apply Hb. }
  apply Hinv; [reflexivity|]. intros id. unfold recorded. simpl.
  rewrite lookup_empty. simpl. lia.
Qed.

End BroadcasterLifeFacts.

Section RegistryExamples.
Existing Instance Samples.echo_runtime.

(** "alice" registers the address with a signature the runtime accepts, at
    clock reading 5: the registry then answers with that record. *)
Lemma memory_register_then_getStreamer_witness :
  fst (StreamerRegistry.getStreamer StorageAdapter.memory "alice"
         (snd (StreamerRegistry.register StorageAdapter.memory 5 "alice" Samples.address
                 "Link streamer alice" Samples.seal MemoryAdapter.empty)))
  = Return (Some {| MemoryAdapter.pubkey := Samples.address;
                    MemoryAdapter.message := "Link streamer alice";
                    MemoryAdapter.registeredAt := 5 |}).
Proof.
  apply (memory_register_then_getStreamer 5 "alice" Samples.address "Link streamer alice"
           Samples.seal MemoryAdapter.empty).
  vm_compute. reflexivity.
Defined.

(** The proof "alice" registered with is accepted for "mallory" as well, on
    a registry that already holds "alice". *)
Lemma register_accepts_proof_for_any_id_witness :
  fst (StreamerRegistry.register StorageAdapter.memory 9 "mallory" Samples.address
         "Link streamer alice" Samples.seal
         {| MemoryAdapter.streamers := [("alice", Samples.alice)];
            MemoryAdapter.lastSeen := ∅ |})
  = Return StreamerRegistry.Success.
Proof.
  apply (register_accepts_proof_for_any_id 5 "alice" Samples.address "Link streamer alice"
           Samples.seal MemoryAdapter.empty
           (snd (StreamerRegistry.register StorageAdapter.memory 5 "alice" Samples.address
                   "Link streamer alice" Samples.seal MemoryAdapter.empty))).
  - vm_compute. reflexivity.
  - reflexivity.
Defined.

End RegistryExamples.

Section BroadcasterLifeExamples.
Import WebSocketBroadcaster.

(** Connection 2 of the studio, subscribed to "bob", subscribes to "alice"
    as well and is sent the acknowledgement and the next tip for "alice". *)
Lemma subscribe_then_publish_delivers_witness :
  inbox 2%nat
    (wire (broadcastTip "alice" "t1" 0
             (handleMessage 2%nat (subscribe_msg "alice") Samples.studio)))
  = [Subscribed "alice"; Tip "alice" "t1"].
Proof.
  apply (subscribe_then_publish_delivers string Samples.studio 2%nat "alice" "t1" 0).
  - reflexivity.
  - exact studio_clients_distinct.
  - right. left.
  - reflexivity.
  - vm_compute. reflexivity.
Defined.

(** A publish for "alice" leaves the records of "bob" as they were. *)
Lemma budgets_are_per_recipient_witness :
  recorded (broadcastTip "alice" "t1" 0 Samples.studio) "bob" = recorded Samples.studio "bob"
  /\ fst (shouldBroadcast "bob" 5 (broadcastTip "alice" "t1" 0 Samples.studio))
     = fst (shouldBroadcast "bob" 5 Samples.studio).
Proof.
  apply (budgets_are_per_recipient string Samples.studio "alice" "bob" "t1" 0 5).
  discriminate.
Defined.

End BroadcasterLifeExamples.

(** ** The parser and the memo on unusual transactions *)

Section ParserEdgeFacts.
Import TransactionParser.

(** X14: when the balance arrays do not reach the target's position,
    [parseTipTransaction] returns an event all the same, and its amounts are
    NaN.  Whatever event it returns, the [amountLamports] is the difference
    of the two reads as JavaScript numbers and is not zero or less,
    [amountSol] is the quotient of that number by 10^9 as a double (not the
    exact fraction), and slot and block time are those of the
    transaction. *)
Theorem parseTipTransaction_amount :
  forall (t : Transaction) (target : string),
    (forall m msg targetIndex,
       meta t = Some m -> transaction t = Some msg ->
       indexOf (accountKeys msg) target = Some targetIndex ->
       preBalances m !! targetIndex = None \/ postBalances m !! targetIndex = None ->
       exists tip,
         parseTipTransaction (Some t) target = Return (Some tip)
         /\ amountLamports tip = NaN /\ amountSol tip = NaN)
    /\ (forall tip,
          parseTipTransaction (Some t) target = Return (Some tip) ->
          exists m msg targetIndex,
            meta t = Some m /\ transaction t = Some msg
            /\ indexOf (accountKeys msg) target = Some targetIndex
            /\ amountLamports tip
               = minus (postBalances m !! targetIndex) (preBalances m !! targetIndex)
            /\ SFleb (amountLamports tip) (S754_zero false) = false
            /\ amountSol tip = SFdiv 53 1024 (amountLamports tip) (of_Z 1000000000)
            /\ tip_slot tip = slot t /\ tip_blockTime tip = blockTime t).
Proof.
  intros t target. split.
  - intros m msg i Hm Hmsg Hi Hmissing. unfold parseTipTransaction. rewrite Hm, Hmsg, Hi.
    assert (minus (postBalances m !! i) (preBalances m !! i) = NaN) as ->.
    { destruct Hmissing as [-> | ->]; [destruct (postBalances m !! i)|]; reflexivity. }
    cbn [le_zero]. eexists. split; [reflexivity|]. split; reflexivity.
  - intros tip. unfold parseTipTransaction.
    destruct (meta t) as [m|]; [|discriminate].
    destruct (transaction t) as [msg|]; [|discriminate].
    destruct (indexOf (accountKeys msg) target) as [i|] eqn:Hi; [|discriminate].
    destruct (le_zero _) eqn:Hchange; [discriminate|]. intros [= <-].
    exists m, msg, i. cbn [amountLamports amountSol tip_slot tip_blockTime].
    repeat split; try reflexivity; [exact Hi | exact Hchange].
Qed.

End ParserEdgeFacts.

Section MemoEdgeFacts.
Context `{Runtime}.
Variable U : Type.
Import TransactionParser TipIndexer PhantomWalletAdapter.

Local Abbreviation State := (TipIndexer.State U).

(** The loop of [extractMemo] passes the instructions that are in range and
    are no memo that decodes. *)
Lemma scanInstructions_skips keys skipped ixs :
  Forall (fun ix => (programIdIndex ix < length keys)%nat
                    /\ (is_memo keys ix -> undecodable ix)) skipped ->
  scanInstructions keys (skipped ++ ixs) = scanInstructions keys ixs.
Proof.
  induction skipped as [|ix skipped IH]; intros Hall; [reflexivity|].
  apply Forall_cons in Hall as [[Hrange Hskip] Hall]. cbn [app scanInstructions].
  apply lookup_lt_is_Some in Hrange as [programId Hk]. rewrite Hk.
  destruct (String.eqb programId MEMO_PROGRAM_ID && truthy (data ix)) eqn:Htest;
    [|apply IH; exact Hall].
  apply (is_memo_test keys ix programId Hk) in Htest.
  destruct (Hskip Htest) as [e He]. rewrite He. apply IH. exact Hall.
Qed.

Lemma arrayToBase58_truthy (bytes : list byte) :
  bytes ≠ [] -> truthy (arrayToBase58 bytes) = true.
Proof.
  intros Hne. destruct (arrayToBase58 bytes) eqn:Htext; [|reflexivity].
  pose proof (decode_arrayToBase58 bytes) as Hback. rewrite Htext in Hback.
  vm_compute in Hback. congruence.
Qed.

(** X15: [extractMemo] reads back what was written in base 58: when the
    first memo instruction that decodes carries the text [arrayToBase58]
    writes for a non-empty byte string, the memo is the UTF-8 reading of
    those very bytes. *)
Theorem extractMemo_reads_encoded_memo :
  forall (t : Transaction) (msg : Message) skipped ix rest (bytes : list byte),
    transaction t = Some msg ->
    instructions msg = skipped ++ ix :: rest ->
    Forall (fun ix' => (programIdIndex ix' < length (accountKeys msg))%nat
                       /\ (is_memo (accountKeys msg) ix' -> undecodable ix')) skipped ->
    accountKeys msg !! programIdIndex ix = Some MEMO_PROGRAM_ID ->
    data ix = arrayToBase58 bytes ->
    bytes ≠ [] ->
    extractMemo (Some t) = Return (Some (utf8_toString bytes)).
Proof.
  intros t msg skipped ix rest bytes Hmsg Hixs Hskipped Hprogram Hdata Hne.
  unfold extractMemo. rewrite Hmsg, Hixs, scanInstructions_skips by exact Hskipped.
  cbn [scanInstructions]. rewrite Hprogram, String.eqb_refl, Hdata.
  rewrite arrayToBase58_truthy by exact Hne. cbn [andb].
  rewrite decode_arrayToBase58. reflexivity.
Qed.

(** X16: an instruction whose program index names no account key, met
    before any memo that decodes, makes [extractMemo] throw, and
    [processTransaction] then emits nothing for the transaction, whether or
    not the parser finds a tip in it: it returns normally and leaves the
    indexer as it was, and the cycle writes the cursor past the signature. *)
Theorem processTransaction_drops_tip_on_stray_instruction :
  forall connection streamerId pubkey signature (t : Transaction) (msg : Message)
         skipped ix rest (s : State),
    getTransaction connection signature = Return (Some t) ->
    transaction t = Some msg ->
    instructions msg = skipped ++ ix :: rest ->
    Forall (fun ix' => (programIdIndex ix' < length (accountKeys msg))%nat
                       /\ (is_memo (accountKeys msg) ix' -> undecodable ix')) skipped ->
    (length (accountKeys msg) <= programIdIndex ix)%nat ->
    (exists e, extractMemo (Some t) = Throw e)
    /\ processTransaction connection streamerId pubkey signature s = (Return tt, s)
    /\ steps connection streamerId pubkey signature = [CursorWritten pubkey signature].
Proof.
  intros connection streamerId pubkey signature t msg skipped ix rest s
    Htx Hmsg Hixs Hskipped Hstray.
  assert (exists e, extractMemo (Some t) = Throw e) as [e He].
  { unfold extractMemo. rewrite Hmsg, Hixs, scanInstructions_skips by exact Hskipped.
    cbn [scanInstructions]. rewrite (lookup_ge_None_2 _ _ Hstray). eauto. }
  assert (detect connection streamerId pubkey signature = None) as Hnone.
  { unfold detect. rewrite Htx. destruct (meta t); [|reflexivity].
    destruct (parseTipTransaction (Some t) pubkey) as [[tip|]|]; try reflexivity.
    rewrite He. reflexivity. }
  split; [eauto|]. split.
  - rewrite processTransaction_spec. unfold after_process. rewrite Hnone. reflexivity.
  - unfold steps. rewrite Hnone. reflexivity.
Qed.

(** *** More signatures than the limit *)

Lemma take_rev_nil {A : Type} (n : nat) (l : list A) :
  (0 < n)%nat -> take n (rev l) = [] -> l = [].
Proof.
  intros Hn Hnil. destruct n as [|n]; [lia|].
  destruct (rev l) as [|x r] eqn:Hr; [|discriminate].
  apply (f_equal (@rev A)) in Hr. rewrite rev_involutive in Hr. exact Hr.
Qed.

(** What one cycle against a ledger that honours the bound works on: the
    newest signatures behind the cursor, at most [limit] of them. *)
Lemma honest_worked view limit streamerData (s : State) key prev seen :
  let pubkey := MemoryAdapter.pubkey streamerData in
  let new := worked (honest view) limit streamerData s in
  PublicKey pubkey = Return key ->
  caught_up pubkey s prev seen ->
  prev `prefix_of` fst view -> NoDup (fst view) ->
  exists newer,
    new = rev (take (Z.to_nat limit) (rev newer))
    /\ match MemoryAdapter.getLastSeen pubkey (storage s) with
       | Some u => exists pre, fst view = pre ++ u :: newer
       | None => fst view = newer
       end.
Proof.
  intros pubkey new Hkey Hcaught [ext Hext] Hnd.
  destruct view as [chain txs]. simpl in Hext, Hnd.
  unfold new, worked, caught_up in *. fold pubkey. rewrite Hkey.
  cbn [honest getSignaturesForAddress fst]. unfold page_of.
  destruct (MemoryAdapter.getLastSeen pubkey (storage s)) as [u|] eqn:Hlast.
  - destruct Hcaught as (pre & post & Hprev & Hin).
    assert (chain = pre ++ u :: (post ++ ext)) as Hc
      by (rewrite Hext, Hprev, <- app_assoc; reflexivity).
    assert ((u ∉ pre) /\ (u ∉ post ++ ext)) as [Hpre Hpost].
    { rewrite Hc in Hnd. apply NoDup_app in Hnd as (_ & Hsep & Hnd).
      apply NoDup_cons in Hnd as [Hpost _]. split; [|exact Hpost].
      intros Hin'. apply (Hsep u Hin'). left. }
    exists (post ++ ext). rewrite Hc, behind_split by exact Hpre. cbn [from_option id].
    split; [|exists pre; reflexivity].
    apply todo_keeps. intros u' [= <-] Hin'. apply Hpost.
    apply list_elem_of_In, in_rev, list_elem_of_In.
    eapply elem_of_sublist; [exact Hin' | apply sublist_take].
  - exists chain. split; [|reflexivity]. apply todo_keeps. discriminate.
Qed.

(** After one cycle with a positive limit against such a ledger, the cursor
    is on the newest signature of the chain: the whole chain is behind it. *)
Lemma honest_cycle_newest view limit streamerId streamerData (s : State) key prev seen :
  let pubkey := MemoryAdapter.pubkey streamerData in
  let s' := snd (checkStreamerTips (honest view) limit streamerId streamerData s) in
  PublicKey pubkey = Return key ->
  caught_up pubkey s prev seen ->
  prev `prefix_of` fst view -> NoDup (fst view) ->
  Forall (fun sig => truthy sig = true) (fst view) ->
  0 < limit ->
  caught_up pubkey s' (fst view) (fst view).
Proof.
  intros pubkey s' Hkey Hcaught Hprefix Hnd Htruthy Hlimit.
  destruct (honest_worked view limit streamerData s key prev seen Hkey Hcaught Hprefix Hnd)
    as (newer & Hnew & Hchain).
  fold pubkey in Hnew, Hchain.
  set (new := worked (honest view) limit streamerData s) in *.
  assert (MemoryAdapter.lastSeen (storage s') !! pubkey
          = match last new with
            | Some sig => Some sig
            | None => MemoryAdapter.lastSeen (storage s) !! pubkey
            end) as Hcursor.
  { unfold s', new, worked. fold pubkey. rewrite Hkey.
    cbn [honest getSignaturesForAddress].
    rewrite (checkStreamerTips_spec U (honest view) limit streamerId streamerData s key
               (page_of (fst view) (MemoryAdapter.getLastSeen pubkey (storage s)) limit)
               Hkey eq_refl).
    cbn [snd]. apply fold_steps. }
  destruct (newest_is_suffix (Z.to_nat limit) newer) as [mid Hmid]. rewrite <- Hnew in Hmid.
  destruct (last new) as [w|] eqn:Hlast.
  - apply last_Some in Hlast as [new' Hnew'].
    unfold caught_up, MemoryAdapter.getLastSeen. rewrite Hcursor. unfold or_absent.
    assert (exists pre0, fst view = pre0 ++ new' ++ [w]) as [pre0 Hview].
    { destruct (MemoryAdapter.getLastSeen pubkey (storage s)) as [u|].
      - destruct Hchain as [pre Hpre]. exists (pre ++ u :: mid).
        rewrite Hpre, Hmid, Hnew', <- app_assoc. reflexivity.
      - exists mid. rewrite Hchain, Hmid, Hnew'. reflexivity. }
    assert (truthy w = true) as Hw.
    { rewrite Forall_forall in Htruthy. apply Htruthy. rewrite Hview.
      apply elem_of_app. right. apply elem_of_app. right. left. }
    cbn [truthy_opt]. rewrite Hw.
    exists (pre0 ++ new'), []. split.
    + rewrite Hview, <- app_assoc. reflexivity.
    + intros x Hx. rewrite <- app_assoc, <- Hview. exact Hx.
  - apply last_None in Hlast.
    assert (newer = []) as Hnone.
    { apply (take_rev_nil (Z.to_nat limit)); [lia|].
      rewrite Hlast in Hnew. apply (f_equal (@rev string)) in Hnew.
      rewrite rev_involutive in Hnew. symmetry. exact Hnew. }
    rewrite Hnone in Hchain. unfold caught_up, MemoryAdapter.getLastSeen in *. rewrite Hcursor.
    destruct (or_absent (MemoryAdapter.lastSeen (storage s) !! pubkey)) as [u|].
    + destruct Hchain as [pre Hpre]. exists pre, []. split; [exact Hpre|].
      intros x Hx. rewrite <- Hpre. exact Hx.
    + exact Hchain.
Qed.

(** X17: a backlog longer than the limit is cut for good.  Against a
    ledger that honours the bound, the first of several cycles with a
    positive limit works on the newest signatures behind the cursor only,
    at most [limit] of them; whatever else the chain held then is never
    emitted, in that cycle or in any later one. *)
Theorem backlog_beyond_limit_never_emitted :
  forall view views limit streamerId streamerData (s : State) key prev seen,
    let pubkey := MemoryAdapter.pubkey streamerData in
    let first := worked (honest view) limit streamerData s in
    PublicKey pubkey = Return key ->
    caught_up pubkey s prev seen ->
    growing prev (map fst (view :: views)) ->
    Forall (fun view => NoDup (fst view)) (view :: views) ->
    Forall (fun view => Forall (fun sig => truthy sig = true) (fst view)) (view :: views) ->
    0 < limit ->
    (length first <= Z.to_nat limit)%nat
    /\ (exists older, fst view = older ++ first)
    /\ exists ext,
         history (cycles (map honest (view :: views)) limit streamerId streamerData s)
         = history s ++ ext
         /\ forall x, x ∈ fst view -> x ∈ emitted ext -> x ∈ first.
Proof.
  intros view views limit streamerId streamerData s key prev seen pubkey first
    Hkey Hcaught Hgrow Hnd Htruthy Hlimit.
  cbn [map growing] in Hgrow. destruct Hgrow as [Hprefix Hgrow].
  apply Forall_cons in Hnd as [Hnd1 Hnd]. apply Forall_cons in Htruthy as [Ht1 Htruthy].
  destruct (honest_worked view limit streamerData s key prev seen Hkey Hcaught Hprefix Hnd1)
    as (newer & Hnew & Hchain).
  fold pubkey in Hchain. fold first in Hnew.
  split; [|split].
  - rewrite Hnew, length_rev, length_take. lia.
  - destruct (newest_is_suffix (Z.to_nat limit) newer) as [mid Hmid]. rewrite <- Hnew in Hmid.
    destruct (MemoryAdapter.getLastSeen pubkey (storage s)) as [u|].
    + destruct Hchain as [pre Hpre]. exists (pre ++ u :: mid).
      rewrite Hpre, Hmid, <- app_assoc. reflexivity.
    + exists mid. rewrite Hchain. exact Hmid.
  - pose proof (honest_cycle_newest view limit streamerId streamerData s key prev seen
                  Hkey Hcaught Hprefix Hnd1 Ht1 Hlimit) as Hnewest.
    destruct (honest_cycles U views limit streamerId streamerData _ key (fst view) (fst view)
                Hkey Hnewest Hgrow Hnd Htruthy) as [_ Hlater].
    destruct (cycles_history U (map honest (view :: views)) limit streamerId streamerData s)
      as (ext & Hh & Hsub).
    exists ext. split; [exact Hh|]. intros x Hold Hx.
    cbn [map processed] in Hsub.
    assert (x ∈ worked (honest view) limit streamerData s
                ++ processed (map honest views) limit streamerId streamerData
                     (snd (checkStreamerTips (honest view) limit streamerId streamerData s)))
      as Hin by (eapply elem_of_sublist; [exact Hx | exact Hsub]).
    apply elem_of_app in Hin as [Hin|Hin]; [exact Hin|].
    exfalso. exact (Hlater x Hin Hold).
Qed.

End MemoEdgeFacts.

Section EdgeExamples.
Existing Instance Samples.ascii_runtime.
Import TransactionParser TipIndexer.

(** The balance arrays of [Samples.truncated] hold one entry and the target
    is the second account: the event has no amount.  A gain of one lamport
    is 4835703278458517 * 2^-82 SOL, the double nearest to 10^-9. *)
Lemma parseTipTransaction_amount_witness :
  (exists tip, parseTipTransaction (Some Samples.truncated) "target" = Return (Some tip)
               /\ TransactionParser.amountLamports tip = NaN
               /\ TransactionParser.amountSol tip = NaN)
  /\ (exists tip, parseTipTransaction (Some Samples.dust) "target" = Return (Some tip)
                  /\ integer_value (TransactionParser.amountLamports tip) = Some 1
                  /\ TransactionParser.amountSol tip
                     = S754_finite false 4835703278458517 (-82)).
Proof.
  split.
  - destruct (parseTipTransaction_amount Samples.truncated "target") as [Hmissing _].
    apply (Hmissing
             {| preBalances := map of_Z [5000000]; postBalances := map of_Z [3995000] |}
             {| accountKeys := ["payer"; "target"]; instructions := [] |}
             1%nat eq_refl eq_refl eq_refl).
    left. reflexivity.
  - destruct (parseTipTransaction_amount Samples.dust "target") as [_ Hany].
    assert (exists tip,
              parseTipTransaction (Some Samples.dust) "target" = Return (Some tip))
      as [tip Hparse] by (eexists; vm_compute; reflexivity).
    destruct (Hany tip Hparse) as (m & msg & i & _ & _ & _ & _ & _ & Hsol & _).
    exists tip. split; [exact Hparse|]. rewrite Hsol.
    vm_compute in Hparse. injection Hparse as <-. split; vm_compute; reflexivity.
Defined.

(** The memo "8sQ" behind a memo instruction that does not decode: the
    text of the bytes 103, 103. *)
Lemma extractMemo_reads_encoded_memo_witness :
  extractMemo (Some (Samples.credit [Samples.broken_memo; Samples.gg_memo]))
  = Return (Some "gg").
Proof.
  etransitivity.
  - apply (extractMemo_reads_encoded_memo
             (Samples.credit [Samples.broken_memo; Samples.gg_memo])
             {| accountKeys := ["payer"; Samples.address; MEMO_PROGRAM_ID];
                instructions := [Samples.broken_memo; Samples.gg_memo] |}
             [Samples.broken_memo] Samples.gg_memo [] [x67; x67]).
    + reflexivity.
    + reflexivity.
    + repeat constructor. intros _. eexists. vm_compute. reflexivity.
    + reflexivity.
    + vm_compute. reflexivity.
    + discriminate.
  - reflexivity.
Defined.

(** The parser finds a tip in the transfer, and its stray instruction makes
    [processTransaction] emit nothing. *)
Lemma processTransaction_drops_tip_on_stray_instruction_witness :
  (exists tip, parseTipTransaction (Some (Samples.credit [Samples.stray])) Samples.address
               = Return (Some tip))
  /\ processTransaction
       {| getSignaturesForAddress := fun _ _ _ => Return [];
          getTransaction := fun _ => Return (Some (Samples.credit [Samples.stray])) |}
       "alice" Samples.address "s1" Samples.fresh
     = (Return tt, Samples.fresh).
Proof.
  split; [eexists; vm_compute; reflexivity|].
  apply (processTransaction_drops_tip_on_stray_instruction unit
           {| getSignaturesForAddress := fun _ _ _ => Return [];
              getTransaction := fun _ => Return (Some (Samples.credit [Samples.stray])) |}
           "alice" Samples.address "s1" (Samples.credit [Samples.stray])
           {| accountKeys := ["payer"; Samples.address; MEMO_PROGRAM_ID];
              instructions := [Samples.stray] |}
           [] Samples.stray [] Samples.fresh).
  - reflexivity.
  - reflexivity.
  - reflexivity.
  - constructor.
  - simpl. lia.
Defined.

(** Three signatures wait and the limit is 2: the first cycle works on "s2"
    and "s3", and "s1" is never emitted, also after "s4" has come. *)
Lemma backlog_beyond_limit_never_emitted_witness :
  exists ext,
    history (cycles (map honest
                       [(["s1"; "s2"; "s3"], fun _ => Return (Some (Samples.credit [])));
                        (["s1"; "s2"; "s3"; "s4"], fun _ => Return (Some (Samples.credit [])))])
               2 "alice" Samples.alice Samples.fresh)
    = history Samples.fresh ++ ext
    /\ emitted ext = ["s2"; "s3"; "s4"]
    /\ forall x, x ∈ ["s1"; "s2"; "s3"] -> x ∈ emitted ext -> x ∈ ["s2"; "s3"].
Proof.
  destruct (backlog_beyond_limit_never_emitted unit
              (["s1"; "s2"; "s3"], fun _ => Return (Some (Samples.credit [])))
              [(["s1"; "s2"; "s3"; "s4"], fun _ => Return (Some (Samples.credit [])))]
              2 "alice" Samples.alice Samples.fresh (repeat x00 32) [] [])
    as (_ & _ & ext & Hh & Hold).
  - vm_compute. reflexivity.
  - reflexivity.
  - simpl. split; [exists ["s1"; "s2"; "s3"]; reflexivity|].
    split; [exists ["s4"]; reflexivity | exact I].
  - repeat constructor; rewrite ?list_elem_of_In; simpl; intuition discriminate.
  - repeat constructor.
  - lia.
  - exists ext. split; [exact Hh|]. split; [|exact Hold].
    vm_compute in Hh. subst ext. reflexivity.
Defined.

End EdgeExamples.

(** ** The SDK: from the indexer to the overlays *)

Section SdkFacts.
Context `{Runtime}.
Variable Date_now : nat -> Z.
Import TipIndexer SolanaTipSDK.

Local Abbreviation State := (TipIndexer.State World).
Local Abbreviation relay := (SolanaTipSDK.relay Date_now).

Lemma detect_streamerId connection streamerId pubkey signature data :
  detect connection streamerId pubkey signature = Some data ->
  TipIndexer.streamerId data = streamerId.
Proof.
  unfold detect.
  destruct (getTransaction connection signature) as [[t|]|]; try discriminate.
  destruct (TransactionParser.meta t); try discriminate.
  destruct (TransactionParser.parseTipTransaction _ _) as [[tip|]|]; try discriminate.
  destruct (TransactionParser.extractMemo _); try discriminate.
  intros [= <-]. reflexivity.
Qed.

Lemma detected_streamerId connection streamerId pubkey signatures :
  Forall (fun data => TipIndexer.streamerId data = streamerId)
         (detected connection streamerId pubkey signatures).
Proof.
  unfold detected. induction signatures as [|sig l IH]; cbn -[detect]; [constructor|].
  destruct (detect connection streamerId pubkey sig) as [data|] eqn:Hd; [|exact IH].
  constructor; [apply (detect_streamerId _ _ _ _ _ Hd) | exact IH].
Qed.

(** With the relay as the only handler, the loop of a cycle hands every
    detected event to it, in order. *)
Lemma relay_fold connection streamerId pubkey (l : list string) (s : State) :
  eventHandlers s !! "tip" = Some [relay] ->
  world (fold_left (fun s signature =>
                      after_update pubkey signature
                        (after_process connection streamerId pubkey signature s)) l s)
  = fold_left (fun w data => snd (relay data w))
              (detected connection streamerId pubkey l) (world s).
Proof.
  revert s. unfold detected. induction l as [|sig l IH]; intros s Hh; [reflexivity|].
  cbn -[detect after_update after_process relay]. rewrite IH.
  - unfold after_process. destruct (detect connection streamerId pubkey sig) as [data|];
      [|reflexivity].
    cbn [fold_left after_update after_emit world]. rewrite Hh. reflexivity.
  - unfold after_process. destruct (detect connection streamerId pubkey sig); exact Hh.
Qed.

(** Once the server is there, the relay is [broadcastTip] with the next
    reading of the clock. *)
Lemma relay_publishAll streamerId (tips : list TipData) (w : World) :
  listening w = true ->
  Forall (fun data => TipIndexer.streamerId data = streamerId) tips ->
  let w' := fold_left (fun w data => snd (relay data w)) tips w in
  broadcaster w'
  = publishAll streamerId (combine (readings Date_now (reads w) (length tips)) tips)
      (broadcaster w)
  /\ listening w' = true /\ reads w' = (reads w + length tips)%nat.
Proof.
  revert w. induction tips as [|data tips IH]; intros w Hon Hall.
  - cbn. rewrite Nat.add_0_r. repeat split. exact Hon.
  - apply Forall_cons in Hall as [Hid Hall].
    assert (snd (relay data w)
            = {| broadcaster :=
                   WebSocketBroadcaster.broadcastTip streamerId data
                     (Date_now (reads w)) (broadcaster w);
                 listening := true; reads := S (reads w) |}) as Hstep.
    { unfold SolanaTipSDK.relay, SolanaTipSDK.broadcastTip. rewrite Hon, Hid. reflexivity. }
    cbn [fold_left length]. cbv zeta. rewrite Hstep.
    destruct (IH {| broadcaster :=
                      WebSocketBroadcaster.broadcastTip streamerId data
                        (Date_now (reads w)) (broadcaster w);
                    listening := true; reads := S (reads w) |} eq_refl Hall)
      as (Hb & Hl & Hr).
    cbn [broadcaster reads] in Hb, Hr. rewrite Hb, Hl, Hr.
    split; [|split; [reflexivity | lia]].
    unfold readings. cbn [seq map combine publishAll fst snd]. reflexivity.
Qed.

Lemma combine_fst {A B : Type} (l : list A) (l' : list B) :
  length l = length l' -> map fst (combine l l') = l.
Proof.
  revert l'. induction l as [|x l IH]; intros [|y l'] Hlen; try discriminate; [reflexivity|].
  cbn. f_equal. apply IH. cbn in Hlen. lia.
Qed.

Lemma combine_take_snd {A B C : Type} (f : B -> C) (n : nat) (l : list A) (l' : list B) :
  length l = length l' ->
  map (fun e => f (snd e)) (take n (combine l l')) = map f (take n l').
Proof.
  revert n l'. induction l as [|x l IH]; intros n [|y l'] Hlen; try discriminate.
  - destruct n; reflexivity.
  - destruct n as [|n]; [reflexivity|]. cbn. f_equal. apply IH. cbn in Hlen. lia.
Qed.

(** X18: from the ledger to the overlay.  In an SDK whose server is
    there, one cycle for a recipient hands every tip it detects to
    [broadcastTip], oldest first, each with the next reading of the clock.
    When these readings are within one window and nothing was recorded for
    the recipient, an open connection subscribed to the recipient receives
    the oldest [maxAlertsPerWindow] tips of the page and none of the others,
    while the cycle ends with the cursor on the newest signature of the
    page. *)
Theorem sdk_cycle_delivers_within_budget :
  forall connection limit streamerId streamerData (s : State) key page (ws : nat),
    let pubkey := MemoryAdapter.pubkey streamerData in
    let lastSeen := MemoryAdapter.getLastSeen pubkey (storage s) in
    let b := broadcaster (world s) in
    let tips := detected connection streamerId pubkey (todo lastSeen page) in
    let s' := snd (checkStreamerTips connection limit streamerId streamerData s) in
    eventHandlers s !! "tip" = Some [relay] ->
    listening (world s) = true ->
    PublicKey pubkey = Return key ->
    getSignaturesForAddress connection key lastSeen limit = Return page ->
    NoDup (WebSocketBroadcaster.clients b) -> ws ∈ WebSocketBroadcaster.clients b ->
    reached b streamerId ws ->
    recorded b streamerId = [] ->
    within (WebSocketBroadcaster.alertWindowMs (WebSocketBroadcaster.options b))
           (readings Date_now (reads (world s)) (length tips)) ->
    broadcaster (world s')
    = publishAll streamerId
        (combine (readings Date_now (reads (world s)) (length tips)) tips) b
    /\ inbox ws (WebSocketBroadcaster.wire (broadcaster (world s')))
       = inbox ws (WebSocketBroadcaster.wire b)
         ++ map (WebSocketBroadcaster.Tip streamerId)
              (take (Z.to_nat (WebSocketBroadcaster.maxAlertsPerWindow
                                 (WebSocketBroadcaster.options b))) tips)
    /\ MemoryAdapter.lastSeen (storage s') !! pubkey
       = match last (todo lastSeen page) with
         | Some signature => Some signature
         | None => MemoryAdapter.lastSeen (storage s) !! pubkey
         end.
Proof.
  intros connection limit streamerId streamerData s key page ws pubkey lastSeen b tips s'
    Hh Hon Hkey Hpage Hnd Hcl Hreach Hrec Hwithin.
  assert (s' = fold_left (fun s signature =>
                            after_update pubkey signature
                              (after_process connection streamerId pubkey signature s))
                         (todo lastSeen page) s) as Hs'.
  { unfold s'. rewrite (checkStreamerTips_spec World _ _ _ _ _ key page Hkey Hpage).
    reflexivity. }
  assert (length (readings Date_now (reads (world s)) (length tips)) = length tips) as Hlen.
  { unfold readings. rewrite length_map, length_seq. reflexivity. }
  destruct (relay_publishAll streamerId tips (world s) Hon
              (detected_streamerId connection streamerId pubkey (todo lastSeen page)))
    as (Hb & _ & _).
  assert (broadcaster (world s')
          = publishAll streamerId
              (combine (readings Date_now (reads (world s)) (length tips)) tips) b) as Hworld.
  { rewrite Hs', relay_fold by exact Hh. exact Hb. }
  split; [exact Hworld|]. split.
  - rewrite Hworld.
    rewrite (publishAll_burst TipData streamerId ws _ b [] Hnd Hcl Hreach).
    + cbn [length]. rewrite Nat.sub_0_r, combine_take_snd by exact Hlen. reflexivity.
    + intros e _. unfold live. rewrite Hrec. reflexivity.
    + rewrite combine_fst by exact Hlen. exact Hwithin.
  - rewrite Hs'. apply fold_steps.
Qed.

End SdkFacts.

Section SdkStartFacts.
Context `{Runtime}.
Variable Date_now : nat -> Z.
Import TipIndexer SolanaTipSDK.

Local Abbreviation State := (TipIndexer.State World).
Local Abbreviation relay := (SolanaTipSDK.relay Date_now).

(** Without its server, the relay sends nothing, whatever it is handed. *)
Lemma relay_unheard (tips : list TipData) (w : World) :
  listening w = false ->
  let w' := fold_left (fun w data => snd (relay data w)) tips w in
  WebSocketBroadcaster.wire (broadcaster w') = WebSocketBroadcaster.wire (broadcaster w)
  /\ WebSocketBroadcaster.subscriptions (broadcaster w')
     = WebSocketBroadcaster.subscriptions (broadcaster w)
  /\ listening w' = false /\ reads w' = (reads w + length tips)%nat.
Proof.
  revert w. induction tips as [|data tips IH]; intros w Hoff.
  - cbn. rewrite Nat.add_0_r. repeat split. exact Hoff.
  - destruct (shouldBroadcast_spec TipData (broadcaster w) (streamerId data)
                (Date_now (reads w))) as (_ & _ & _ & _ & _ & _ & Hs & Hw).
    assert (exists b1, snd (relay data w)
                       = {| broadcaster := b1; listening := false; reads := S (reads w) |}
                       /\ WebSocketBroadcaster.wire b1 = WebSocketBroadcaster.wire (broadcaster w)
                       /\ WebSocketBroadcaster.subscriptions b1
                          = WebSocketBroadcaster.subscriptions (broadcaster w))
      as (b1 & Hstep & Hw1 & Hs1).
    { unfold SolanaTipSDK.relay, SolanaTipSDK.broadcastTip. rewrite Hoff.
      destruct (WebSocketBroadcaster.shouldBroadcast (streamerId data) (Date_now (reads w))
                  (broadcaster w)) as [allowed b1].
      exists b1. cbn [snd] in *. repeat split; assumption. }
    cbn [fold_left length]. cbv zeta. rewrite Hstep.
    destruct (IH {| broadcaster := b1; listening := false; reads := S (reads w) |} eq_refl)
      as (Hw' & Hs' & Hl & Hr).
    cbn [broadcaster reads] in Hw', Hs', Hr. rewrite Hw', Hs', Hl, Hr, Hw1, Hs1.
    repeat split. lia.
Qed.

(** X19: an SDK that was constructed and whose [initWebSocket] has not
    run yet loses what it detects.  One cycle throws nothing, emits the
    events of its page, sends nothing to anyone, and leaves the cursor on
    the newest signature of the page, so that a later cycle does not bring
    these tips back once the server is there. *)
Theorem sdk_tips_before_initWebSocket_are_lost :
  forall storage websocket connection limit streamerId streamerData key page,
    let pubkey := MemoryAdapter.pubkey streamerData in
    let lastSeen := MemoryAdapter.getLastSeen pubkey storage in
    PublicKey pubkey = Return key ->
    getSignaturesForAddress connection key lastSeen limit = Return page ->
    exists s s',
      constructor Date_now (Some storage) websocket = Return s
      /\ checkStreamerTips connection limit streamerId streamerData s = (Return tt, s')
      /\ history s' = flat_map (steps connection streamerId pubkey) (todo lastSeen page)
      /\ WebSocketBroadcaster.wire (broadcaster (world s')) = []
      /\ WebSocketBroadcaster.subscriptions (broadcaster (world s')) = ∅
      /\ MemoryAdapter.lastSeen (TipIndexer.storage s') !! pubkey
         = match last (todo lastSeen page) with
           | Some signature => Some signature
           | None => MemoryAdapter.lastSeen storage !! pubkey
           end.
Proof.
  intros storage websocket connection limit streamerId streamerData key page pubkey lastSeen
    Hkey Hpage.
  set (s := TipIndexer.on "tip" relay
              {| TipIndexer.storage := storage;
                 eventHandlers := ∅;
                 world :=
                   {| broadcaster :=
                        WebSocketBroadcaster.constructor TipIndexer.TipData websocket;
                      listening := false;
                      reads := O |};
                 history := [] |}).
  exists s. eexists. split; [reflexivity|].
  assert (eventHandlers s !! "tip" = Some [relay]) as Hh.
  { unfold s, TipIndexer.on. cbn [eventHandlers].
    rewrite lookup_insert_eq, lookup_empty. reflexivity. }
  split; [apply (checkStreamerTips_spec World _ _ _ _ s key page Hkey Hpage)|].
  destruct (fold_steps World connection streamerId pubkey (todo lastSeen page) s)
    as (Hhist & Hcursor & _).
  split; [exact Hhist|].
  rewrite (relay_fold Date_now) by exact Hh.
  destruct (relay_unheard (detected connection streamerId pubkey (todo lastSeen page))
              (world s) eq_refl) as (Hw & Hs & _).
  split; [exact Hw|]. split; [exact Hs | exact Hcursor].
Qed.

End SdkStartFacts.

Section SdkExamples.
Existing Instance Samples.ascii_runtime.
Import TipIndexer SolanaTipSDK.

(** Three tips on one page and a budget of 2: the overlay of "alice" is
    sent the two oldest, and the cursor is on the newest signature. *)
Lemma sdk_cycle_delivers_within_budget_witness :
  inbox 1%nat
    (WebSocketBroadcaster.wire
       (broadcaster (world (snd (checkStreamerTips (Samples.ledger ["s3"; "s2"; "s1"]) 20
                                   "alice" Samples.alice Samples.stage)))))
  = map (WebSocketBroadcaster.Tip "alice")
        (take 2 (detected (Samples.ledger ["s3"; "s2"; "s1"]) "alice" Samples.address
                   ["s1"; "s2"; "s3"]))
  /\ MemoryAdapter.lastSeen
       (storage (snd (checkStreamerTips (Samples.ledger ["s3"; "s2"; "s1"]) 20
                        "alice" Samples.alice Samples.stage))) !! Samples.address
     = Some "s3".
Proof.
  destruct (sdk_cycle_delivers_within_budget Samples.clock
              (Samples.ledger ["s3"; "s2"; "s1"]) 20 "alice" Samples.alice Samples.stage
              (repeat x00 32) ["s3"; "s2"; "s1"] 1%nat)
    as (_ & Hinbox & Hcursor).
  - reflexivity.
  - reflexivity.
  - vm_compute. reflexivity.
  - reflexivity.
  - apply NoDup_singleton.
  - left.
  - split; [|reflexivity]. exists {["alice"]}. split; [reflexivity | set_solver].
  - reflexivity.
  - vm_compute. repeat constructor; discriminate.
  - split; [exact Hinbox | exact Hcursor].
Defined.

(** The same page on an SDK that has no server yet: nothing is sent and
    the cursor is on "s3". *)
Lemma sdk_tips_before_initWebSocket_are_lost_witness :
  exists s s',
    constructor Samples.clock
      (Some {| MemoryAdapter.streamers := [("alice", Samples.alice)];
               MemoryAdapter.lastSeen := ∅ |})
      {| WebSocketBroadcaster.user_pingInterval := None;
         WebSocketBroadcaster.user_maxAlertsPerWindow := None;
         WebSocketBroadcaster.user_alertWindowMs := None |}
    = Return s
    /\ checkStreamerTips (Samples.ledger ["s3"; "s2"; "s1"]) 20 "alice" Samples.alice s
       = (Return tt, s')
    /\ emitted (history s') = ["s1"; "s2"; "s3"]
    /\ WebSocketBroadcaster.wire (broadcaster (world s')) = []
    /\ MemoryAdapter.lastSeen (storage s') !! Samples.address = Some "s3".
Proof.
  destruct (sdk_tips_before_initWebSocket_are_lost Samples.clock
              {| MemoryAdapter.streamers := [("alice", Samples.alice)];
                 MemoryAdapter.lastSeen := ∅ |}
              {| WebSocketBroadcaster.user_pingInterval := None;
                 WebSocketBroadcaster.user_maxAlertsPerWindow := None;
                 WebSocketBroadcaster.user_alertWindowMs := None |}
              (Samples.ledger ["s3"; "s2"; "s1"]) 20 "alice" Samples.alice
              (repeat x00 32) ["s3"; "s2"; "s1"])
    as (s & s' & Hs & Hrun & Hhist & Hwire & _ & Hcursor).
  - vm_compute. reflexivity.
  - reflexivity.
  - exists s, s'. split; [exact Hs|]. split; [exact Hrun|].
    split; [rewrite Hhist; vm_compute; reflexivity|]. split; [exact Hwire | exact Hcursor].
Defined.

End SdkExamples.

(** ** The overlay client: reconnecting, and talking to the broadcaster *)

Section OverlayFacts.
Variable Payload U : Type.
Import OverlayClient.

Local Abbreviation State := (OverlayClient.State Payload U).
Local Abbreviation Handler := (OverlayClient.Handler Payload U).
Local Abbreviation Data := (OverlayClient.Data Payload).
Local Abbreviation Incident := (Incident Payload).

Lemma client_for_of_handlers (hs : list Handler) (data : Data) (s : State) :
  for_of hs (fun handler => try_catch (call Payload U handler data) (fun _ => ret tt)) s
  = (Return tt,
     set_world Payload U (fold_left (fun u handler => snd (handler data u)) hs (world s)) s).
Proof.
  revert s. induction hs as [|h hs IH]; intros s; cbn [for_of fold_left].
  - destruct s; reflexivity.
  - unfold bind. unfold try_catch at 1. unfold call at 1.
    destruct (h data (world s)) as [[[]|e] u]; cbn [snd ret]; rewrite IH; reflexivity.
Qed.

(** [emit] returns normally; it adds the call to the history and runs the
    handlers of the event on their own state, and leaves the rest of the
    client as it was. *)
Lemma client_emit_spec (event : string) (data : Data) (s : State) :
  emit event data s
  = (Return tt,
     set_world Payload U
       (fold_left (fun u handler => snd (handler data u))
                  (default [] (eventHandlers s !! event)) (world s))
       (observe Payload U (event, data) s)).
Proof.
  unfold emit, bind, modify, get. cbn [fst snd]. rewrite client_for_of_handlers. reflexivity.
Qed.

Ltac crack3 kind :=
  destruct kind as [|[[] [] [] [] [] [] [] []] kind]; try reflexivity.

(** The [switch] of the client's [handleMessage] as comparisons. *)
Lemma client_switch {A : Type} (kind : string) (x y z : A) :
  match kind with
  | "subscribed" => x
  | "tip" => y
  | "pong" => z
  | _ => z
  end = if String.eqb kind "subscribed" then x else if String.eqb kind "tip" then y else z.
Proof.
  do 11 (crack3 kind).
Qed.

Lemma client_handleMessage_spec (data : ServerJson Payload) (s : State) :
  handleMessage data s
  = match type data with
    | Some kind =>
        if String.eqb kind "subscribed" then emit "subscribed" (OfStreamer (streamer data)) s
        else if String.eqb kind "tip" then emit "tip" (OfPayload (payload data)) s
        else (Return tt, s)
    | None => (Return tt, s)
    end.
Proof.
  unfold handleMessage. destruct (type data) as [kind|]; [|reflexivity].
  rewrite (client_switch kind (emit "subscribed" (OfStreamer (streamer data)))
             (emit "tip" (OfPayload (payload data))) (ret tt)).
  destruct (String.eqb kind "subscribed"); [reflexivity|].
  destruct (String.eqb kind "tip"); reflexivity.
Qed.

Lemma times_emitted_other (event other : string) (data : Data) (h : list (string * Data)) :
  other ≠ event -> times_emitted event (h ++ [(other, data)]) = times_emitted event h.
Proof.
  intros Hne. unfold times_emitted. rewrite filter_app, length_app.
  rewrite filter_cons_False by exact Hne. cbn. lia.
Qed.

Lemma times_emitted_same (event : string) (data : Data) (h : list (string * Data)) :
  times_emitted event (h ++ [(event, data)]) = S (times_emitted event h).
Proof.
  unfold times_emitted. rewrite filter_app, length_app.
  rewrite filter_cons_True by reflexivity. cbn. lia.
Qed.

Lemma emit_reconnect_view (event : string) (data : Data) (s : State) :
  event ≠ "maxReconnectReached" -> reconnect_view (snd (emit event data s)) = reconnect_view s.
Proof.
  intros Hne. rewrite client_emit_spec. unfold reconnect_view.
  cbn [snd set_world observe reconnectAttempts timeouts history].
  rewrite times_emitted_other by exact Hne. reflexivity.
Qed.

Lemma stopHeartbeat_reconnect_view (s : State) :
  reconnect_view (snd (stopHeartbeat s)) = reconnect_view s.
Proof. unfold stopHeartbeat. destruct (pingInterval s); reflexivity. Qed.

(** Nothing but a [close] event touches the counter, the timers or the
    count of 'maxReconnectReached'. *)
Lemma befall_other (c : State) (i : Incident) :
  i ≠ Closed -> reconnect_view (befall c i) = reconnect_view c.
Proof.
  intros Hne. destruct i as [|error|data| | |]; cbn [befall].
  - contradiction.
  - apply emit_reconnect_view. discriminate.
  - unfold onmessage, try_catch. destruct data as [d|]; [|reflexivity].
    rewrite client_handleMessage_spec. destruct (type d) as [kind|]; [|reflexivity].
    destruct (String.eqb kind "subscribed").
    + rewrite client_emit_spec. cbn [snd]. rewrite <- (emit_reconnect_view "subscribed"
        (OfStreamer (streamer d)) c) by discriminate.
      rewrite client_emit_spec. reflexivity.
    + destruct (String.eqb kind "tip"); [|reflexivity].
      rewrite client_emit_spec. cbn [snd]. rewrite <- (emit_reconnect_view "tip"
        (OfPayload (payload d)) c) by discriminate.
      rewrite client_emit_spec. reflexivity.
  - unfold heartbeat. destruct (is_open c); reflexivity.
  - reflexivity.
  - unfold disconnect, bind, modify.
    pose proof (stopHeartbeat_reconnect_view c) as Hstop.
    destruct (stopHeartbeat c) as [[[]|e] c1] eqn:Hc1; cbn [snd] in *; exact Hstop.
Qed.

(** A [close] event: one more attempt and its timer while the counter is
    below the cap, 'maxReconnectReached' and no timer once it is there. *)
Lemma befall_closed (c : State) :
  reconnect_view (befall c Closed)
  = if reconnectAttempts c >=? maxReconnectAttempts
    then (reconnectAttempts c, timeouts c,
          S (times_emitted "maxReconnectReached" (history c)))
    else (reconnectAttempts c + 1,
          timeouts c ++ [reconnectDelay * (reconnectAttempts c + 1)],
          times_emitted "maxReconnectReached" (history c)).
Proof.
  cbn [befall]. unfold onclose, bind at 1, modify. unfold bind at 1.
  pose proof (stopHeartbeat_reconnect_view (set_connected Payload U false c)) as Hstop.
  assert (fst (stopHeartbeat (set_connected Payload U false c)) = Return tt) as Hret
    by (unfold stopHeartbeat; destruct (pingInterval _); reflexivity).
  destruct (stopHeartbeat (set_connected Payload U false c)) as [r c1]. cbn [fst snd] in *.
  subst r. unfold bind at 1.
  pose proof (emit_reconnect_view "disconnected" Undefined c1) as Hemit.
  rewrite client_emit_spec in *. cbn [snd] in Hemit.
  set (c2 := set_world Payload U _ _) in *.
  assert (reconnect_view c2 = reconnect_view c) as Hview
    by (rewrite Hemit by discriminate; exact Hstop).
  clearbody c2.
  pose proof (f_equal (fun v => fst (fst v)) Hview) as Ha.
  pose proof (f_equal (fun v => snd (fst v)) Hview) as Ht.
  pose proof (f_equal snd Hview) as He.
  cbn [fst snd reconnect_view] in Ha, Ht, He.
  unfold reconnect. rewrite Ha.
  destruct (reconnectAttempts c >=? maxReconnectAttempts).
  - rewrite client_emit_spec. unfold reconnect_view.
    cbn [snd set_world observe reconnectAttempts timeouts history].
    rewrite times_emitted_same, ?Ha, ?Ht, ?He. reflexivity.
  - unfold reconnect_view.
    cbn [snd setTimeout set_reconnectAttempts reconnectAttempts timeouts history].
    rewrite ?Ha, ?Ht, ?He. reflexivity.
Qed.

Lemma reconnect_view_eq (s : State) (a : Z) (t : list Z) (e : nat) :
  reconnect_view s = (a, t, e) ->
  reconnectAttempts s = a /\ timeouts s = t
  /\ times_emitted "maxReconnectReached" (history s) = e.
Proof. unfold reconnect_view. intros [= -> -> ->]. repeat split. Qed.

Lemma run_reconnect (incidents : list Incident) :
  forall (c : State) (a : nat),
    reconnectAttempts c = Z.of_nat a -> (a <= 10)%nat ->
    reconnect_view (fold_left befall incidents c)
    = (Z.of_nat (min (a + closes incidents) 10),
       timeouts c ++ map (fun k => 2000 * Z.of_nat k)
                         (seq (S a) (min (a + closes incidents) 10 - a)),
       (times_emitted "maxReconnectReached" (history c) + (a + closes incidents - 10))%nat).
Proof.
  induction incidents as [|i incidents IH]; intros c a Ha Hcap.
  - cbn [fold_left closes]. unfold reconnect_view. rewrite Ha.
    replace (min (a + 0) 10) with a by lia.
    replace (a - a)%nat with O by lia. replace (a + 0 - 10)%nat with O by lia.
    cbn. rewrite app_nil_r, Nat.add_0_r. reflexivity.
  - cbn [fold_left].
    assert (i = Closed \/ i ≠ Closed) as [->|Hother]
      by (destruct i; (left; reflexivity) || (right; discriminate)).
    + pose proof (befall_closed c) as Hstep.
      unfold maxReconnectAttempts, reconnectDelay in Hstep. rewrite Ha in Hstep.
      cbn [closes].
      destruct (Z.geb_spec (Z.of_nat a) 10) as [Hfull|Hroom];
        apply reconnect_view_eq in Hstep as (H1 & H2 & H3).
      * assert (a = 10%nat) as -> by lia.
        rewrite (IH (befall c Closed) 10%nat) by (rewrite ?H1; lia).
        rewrite H2, H3.
        replace (min (10 + S (closes incidents)) 10) with 10%nat by lia.
        replace (min (10 + closes incidents) 10) with 10%nat by lia.
        f_equal. lia.
      * rewrite (IH (befall c Closed) (S a)) by (rewrite ?H1; lia).
        rewrite H2, H3.
        replace (S a + closes incidents)%nat with (a + S (closes incidents))%nat by lia.
        set (m := min (a + S (closes incidents)) 10).
        replace (m - a)%nat with (S (m - S a)) by (unfold m; lia).
        cbn [seq map]. rewrite <- app_assoc. cbn [app].
        repeat f_equal. lia.
    + pose proof (befall_other c i Hother) as Hstep.
      apply reconnect_view_eq in Hstep as (H1 & H2 & H3).
      rewrite (IH (befall c i) a) by (rewrite ?H1; assumption).
      rewrite H2, H3.
      assert (closes (i :: incidents) = closes incidents) as ->
        by (destruct i; try reflexivity; contradiction).
      reflexivity.
Qed.

(** What [onopen] does on a client whose socket is open. *)
Lemma onopen_spec (c : State) :
  reconnectAttempts (snd (onopen c)) = 0
  /\ timeouts (snd (onopen c)) = timeouts c
  /\ history (snd (onopen c)) = history c ++ [("connected", Undefined)]
  /\ streamerId (snd (onopen c)) = streamerId c
  /\ eventHandlers (snd (onopen c)) = eventHandlers c
  /\ sent (snd (onopen c))
     = sent c ++ (if is_open c
                  then [{| WebSocketBroadcaster.action := Some "subscribe";
                           WebSocketBroadcaster.type := None;
                           WebSocketBroadcaster.streamer := Some (streamerId c) |}]
                  else []).
Proof.
  unfold onopen, bind, modify, get, subscribe, startHeartbeat.
  cbn [fst snd set_reconnectAttempts set_connected streamerId].
  assert (is_open (set_reconnectAttempts Payload U 0 (set_connected Payload U true c)) = is_open c)
    as -> by reflexivity.
  destruct (is_open c); unfold modify; rewrite client_emit_spec; cbn; rewrite ?app_nil_r;
    repeat split.
Qed.

(** X20: the client reconnects with a linear back-off and gives up after
    ten attempts.  After an [open] event, whatever happens until the next
    one: the [n]-th [close] event starts one timer of [2000 * n]
    milliseconds as long as [n] is at most 10, and every later [close] event
    starts none and emits 'maxReconnectReached'.  No other event, message
    or tick starts a timer, and a call of [disconnect] does not stop the
    client from reconnecting on the [close] event that follows. *)
Theorem reconnect_backs_off_and_gives_up :
  forall (c : State) (incidents : list Incident),
    let c' := fold_left befall incidents (snd (onopen c)) in
    let n := closes incidents in
    reconnectAttempts c' = Z.of_nat (min n 10)
    /\ timeouts c' = timeouts c ++ map (fun k => 2000 * Z.of_nat k) (seq 1 (min n 10))
    /\ times_emitted "maxReconnectReached" (history c')
       = (times_emitted "maxReconnectReached" (history c) + (n - 10))%nat.
Proof.
  intros c incidents c' n.
  destruct (onopen_spec c) as (Ha & Ht & Hh & _).
  pose proof (run_reconnect incidents (snd (onopen c)) O Ha ltac:(lia)) as Hrun.
  apply reconnect_view_eq in Hrun as (H1 & H2 & H3). fold c' in H1, H2, H3.
  rewrite H1, H2, H3, Ht, Hh, times_emitted_other by discriminate.
  cbn [Nat.add]. rewrite Nat.sub_0_r. repeat split.
Qed.

End OverlayFacts.

Section HandshakeFacts.
Variable Payload U TipData : Type.
Variable json : string -> TipData -> Payload.
Import WebSocketBroadcaster.

Local Abbreviation Client := (OverlayClient.State Payload U).

(** A message of the server reaches the handlers of its kind: the client
    emits 'subscribed' with the name, 'tip' with the payload as it is read
    from the text, and nothing for a 'pong'. *)
Lemma onmessage_parse (m : ServerMsg TipData) (c : Client) :
  OverlayClient.history (snd (OverlayClient.onmessage (Some (OverlayClient.parse json m)) c))
  = OverlayClient.history c
    ++ match m with
       | Subscribed name => [("subscribed", OverlayClient.OfStreamer (Some name))]
       | Pong => []
       | Tip streamerId tipData =>
           [("tip", OverlayClient.OfPayload (Some (json streamerId tipData)))]
       end.
Proof.
  unfold OverlayClient.onmessage, try_catch. rewrite client_handleMessage_spec.
  destruct m as [name| |streamerId tipData]; cbn [OverlayClient.parse OverlayClient.type].
  - cbn [String.eqb Ascii.eqb Bool.eqb]. rewrite client_emit_spec. reflexivity.
  - cbn [String.eqb Ascii.eqb Bool.eqb]. cbn. rewrite app_nil_r. reflexivity.
  - cbn [String.eqb Ascii.eqb Bool.eqb]. rewrite client_emit_spec. reflexivity.
Qed.

Lemma receive_history (messages : list (ServerMsg TipData)) (c : Client) :
  OverlayClient.history (receive json c messages)
  = OverlayClient.history c
    ++ flat_map (fun m => match m with
                          | Subscribed name =>
                              [("subscribed", OverlayClient.OfStreamer (Some name))]
                          | Pong => []
                          | Tip streamerId tipData =>
                              [("tip", OverlayClient.OfPayload (Some (json streamerId tipData)))]
                          end) messages.
Proof.
  revert c. unfold receive. induction messages as [|m messages IH]; intros c.
  - cbn. rewrite app_nil_r. reflexivity.
  - cbn [fold_left flat_map]. rewrite IH, onmessage_parse, <- app_assoc. reflexivity.
Qed.

End HandshakeFacts.

Section SdkHandshake.
Variable U : Type.
Import WebSocketBroadcaster.

Local Abbreviation Client := (OverlayClient.State JSON.Payload U).
Local Abbreviation Server := (WebSocketBroadcaster.State TipIndexer.TipData).

(** X21: the client and the broadcaster of the SDK understand each other,
    up to what JSON carries.  A client made for a non-empty streamer id
    whose socket opens sends one message; the broadcaster that gets it on
    an open connection of its own subscribes the connection to that id and,
    at the next tip published for the id within the budget, has sent the
    acknowledgement and the tip on the connection; the client that is
    handed these two emits 'subscribed' with its id and then 'tip' with the
    tip object as JSON gives it back: the strings, the slot and the block
    time as they were, [streamerId] the one of the tip object, and each of
    the two amounts as it was when it is a finite number other than minus
    zero, zero for minus zero, and null (absent) for [NaN] or an infinity. *)
Theorem overlay_handshake :
  forall (c : Client) (b : Server) (conn : nat) (tipData : TipIndexer.TipData) (now : Z),
    let id := OverlayClient.streamerId c in
    OverlayClient.ws c = Some OverlayClient.OPEN -> truthy id = true ->
    NoDup (clients b) -> conn ∈ clients b -> readyState b conn = 1 ->
    Z.of_nat (length (live b id now)) < maxAlertsPerWindow (options b) ->
    exists msg replies payload,
      OverlayClient.sent (snd (OverlayClient.onopen c)) = OverlayClient.sent c ++ [msg]
      /\ subscribed (handleMessage conn msg b) conn id
      /\ inbox conn (wire (broadcastTip id tipData now (handleMessage conn msg b)))
         = inbox conn (wire b) ++ replies
      /\ OverlayClient.history (receive JSON.payload (snd (OverlayClient.onopen c)) replies)
         = OverlayClient.history c
           ++ [("connected", OverlayClient.Undefined);
               ("subscribed", OverlayClient.OfStreamer (Some id));
               ("tip", OverlayClient.OfPayload (Some payload))]
      /\ JSON.streamerId payload = TipIndexer.streamerId tipData
      /\ JSON.streamerPubkey payload = TipIndexer.streamerPubkey tipData
      /\ JSON.from payload = TipIndexer.from tipData
      /\ JSON.txHash payload = TipIndexer.txHash tipData
      /\ JSON.slot payload = TipIndexer.slot tipData
      /\ JSON.blockTime payload = TipIndexer.blockTime tipData
      /\ JSON.memo payload = TipIndexer.memo tipData
      /\ Forall (fun field : (TransactionParser.number * option TransactionParser.number) =>
                   match fst field with
                   | S754_nan | S754_infinity _ => snd field = None
                   | S754_zero _ => snd field = Some (S754_zero false)
                   | S754_finite _ _ _ => snd field = Some (fst field)
                   end)
           [(TipIndexer.amountLamports tipData, JSON.amountLamports payload);
            (TipIndexer.amountSol tipData, JSON.amountSol payload)].
Proof.
  intros c b conn tipData now id Hopen Htruthy Hnd Hcl Hready Hroom.
  destruct (onopen_spec JSON.Payload U c) as (_ & _ & Hhist & _ & _ & Hsent).
  assert (OverlayClient.is_open c = true) as Hio
    by (unfold OverlayClient.is_open; rewrite Hopen; reflexivity).
  rewrite Hio in Hsent. fold id in Hsent.
  set (msg := {| action := Some "subscribe"; type := None; streamer := Some id |}) in *.
  exists msg, [Subscribed id; Tip id tipData], (JSON.payload id tipData).
  split; [exact Hsent|].
  destruct (handleMessage_subscribe TipIndexer.TipData b conn msg id eq_refl eq_refl Htruthy)
    as (Hs & Hw & Hr & Hc & Ha & Ho).
  set (b1 := handleMessage conn msg b) in *.
  assert (subscribed b1 conn id) as Hsub.
  { unfold subscribed. rewrite Hs, lookup_insert_eq. eexists. split; [reflexivity|].
    apply elem_of_union. right. apply elem_of_singleton. reflexivity. }
  split; [exact Hsub|]. split; [|split].
  - destruct (broadcastTip_spec TipIndexer.TipData id tipData now b1) as (Hw' & _).
    destruct (shouldBroadcast_spec TipIndexer.TipData b1 id now) as (Hrule & _).
    assert (fst (shouldBroadcast id now b1) = true) as Hallowed.
    { apply Hrule. unfold live, recorded. rewrite Ha, Ho. exact Hroom. }
    rewrite Hw', Hallowed, Hw, !inbox_app, <- app_assoc. f_equal.
    assert (inbox conn [(conn, @Subscribed TipIndexer.TipData id)] = [Subscribed id]) as ->.
    { unfold inbox. cbn. rewrite decide_True by reflexivity. reflexivity. }
    cbn [app]. f_equal. apply inbox_once.
    + apply NoDup_filter. rewrite Hc. exact Hnd.
    + apply list_elem_of_filter. split; [|rewrite Hc; exact Hcl].
      split; [exact Hsub | rewrite Hr; exact Hready].
  - rewrite receive_history, Hhist, <- app_assoc. reflexivity.
  - cbn [JSON.payload JSON.streamerId JSON.streamerPubkey JSON.from JSON.txHash JSON.slot
         JSON.blockTime JSON.memo JSON.amountLamports JSON.amountSol].
    repeat (split; [reflexivity|]).
    repeat constructor; cbn [fst snd]; unfold JSON.number.
    + destruct (TipIndexer.amountLamports tipData); reflexivity.
    + destruct (TipIndexer.amountSol tipData); reflexivity.
Qed.

End SdkHandshake.

Section OverlayExamples.
Import WebSocketBroadcaster.

Lemma hall_clients_distinct : NoDup (clients Samples.hall).
Proof.
  apply NoDup_cons. split; [|apply NoDup_singleton].
  intros Hin. apply list_elem_of_singleton in Hin. discriminate.
Qed.

(** The overlay of "alice" opens its socket, which is connection 2 of the
    hall, and a tip whose amounts are [NaN] is published: the overlay is
    sent the acknowledgement and the tip, and emits 'connected',
    'subscribed' and 'tip' with a tip object whose amounts are null. *)
Lemma overlay_handshake_witness :
  exists msg replies,
    OverlayClient.sent (snd (OverlayClient.onopen Samples.overlay)) = [msg]
    /\ subscribed (handleMessage 2%nat msg Samples.hall) 2%nat "alice"
    /\ inbox 2%nat
         (wire (broadcastTip "alice" Samples.hollow 0 (handleMessage 2%nat msg Samples.hall)))
       = replies
    /\ OverlayClient.history
         (receive JSON.payload (snd (OverlayClient.onopen Samples.overlay)) replies)
       = [("connected", OverlayClient.Undefined);
          ("subscribed", OverlayClient.OfStreamer (Some "alice"));
          ("tip", OverlayClient.OfPayload
                    (Some {| JSON.streamerId := "alice";
                             JSON.streamerPubkey := Samples.address;
                             JSON.from := "payer";
                             JSON.amountLamports := None;
                             JSON.amountSol := None;
                             JSON.txHash := "s2";
                             JSON.slot := 42;
                             JSON.blockTime := None;
                             JSON.memo := None |}))].
Proof.
  destruct (overlay_handshake unit Samples.overlay Samples.hall 2%nat Samples.hollow 0)
    as (msg & replies & payload & Hsent & Hsub & Hinbox & Hhist
        & Hid & Hkey & Hfrom & Htx & Hslot & Htime & Hmemo & Hamounts).
  - reflexivity.
  - reflexivity.
  - exact hall_clients_distinct.
  - right. left.
  - reflexivity.
  - vm_compute. reflexivity.
  - exists msg, replies. split; [exact Hsent|]. split; [exact Hsub|].
    split; [exact Hinbox|]. rewrite Hhist.
    apply Forall_cons in Hamounts as [Hlamports Hamounts].
    apply Forall_cons in Hamounts as [Hsol _].
    cbn in Hlamports, Hsol.
    destruct payload; cbn in *; subst. reflexivity.
Defined.

End OverlayExamples.

(** ** Options given as zero, and the heartbeat exchange *)

Section BudgetFacts.
Variable TipData : Type.
Import WebSocketBroadcaster.

Local Abbreviation State := (WebSocketBroadcaster.State TipData).

(** An inbound message makes the broadcaster send at most an
    acknowledgement or a 'pong'. *)
Lemma handleMessage_wire (b : State) (ws : nat) (msg : ClientMsg) :
  exists sent,
    wire (handleMessage ws msg b) = wire b ++ sent
    /\ Forall (fun e => forall id (d : TipData), snd e ≠ Tip id d) sent.
Proof.
  rewrite handleMessage_switch.
  assert (exists sent : list (nat * ServerMsg TipData),
            wire b = wire b ++ sent
            /\ Forall (fun e => forall id (d : TipData), snd e ≠ Tip id d) sent) as Hsame
    by (exists []; rewrite app_nil_r; split; [reflexivity | constructor]).
  destruct (or_else (action msg) (type msg)) as [kind|]; [|exact Hsame].
  destruct (String.eqb kind "subscribe").
  - destruct (streamer msg) as [name|]; [|exact Hsame].
    destruct (truthy name); [|exact Hsame].
    eexists. split; [reflexivity|]. repeat constructor. discriminate.
  - destruct (String.eqb kind "ping"); [|exact Hsame].
    eexists. split; [reflexivity|]. repeat constructor. discriminate.
Qed.

(** X22: a budget given as zero is taken as zero.  The default of 4
    stands for a missing [maxAlertsPerWindow] only: on a broadcaster whose
    options were resolved from a [maxAlertsPerWindow] of zero or less, no
    tip is ever sent to anyone, whatever messages, closings and publishes
    happen; acknowledgements and 'pong's are all it sends. *)
Theorem nonpositive_budget_silences_tips :
  forall (o : UserOptions) (m : Z) (b0 : State) (happenings : list (Happening TipData)),
    user_maxAlertsPerWindow o = Some m -> m <= 0 ->
    options b0 = resolve o ->
    exists sent,
      wire (fold_left happen happenings b0) = wire b0 ++ sent
      /\ Forall (fun e => forall id (d : TipData), snd e ≠ Tip id d) sent.
Proof.
  intros o m b0 happenings Hm Hle Ho.
  assert (maxAlertsPerWindow (options b0) <= 0) as Hbudget
    by (rewrite Ho; cbn [resolve maxAlertsPerWindow]; rewrite Hm; exact Hle).
  clear Ho Hm. revert b0 Hbudget.
  induction happenings as [|h happenings IH]; intros b0 Hbudget.
  - exists []. rewrite app_nil_r. split; [reflexivity | constructor].
  - cbn [fold_left].
    assert (exists sent,
              wire (happen b0 h) = wire b0 ++ sent
              /\ Forall (fun e => forall id (d : TipData), snd e ≠ Tip id d) sent
              /\ options (happen b0 h) = options b0) as (first & Hw & Hfirst & Ho).
    { destruct h as [ws msg|ws|sid tipData now]; cbn [happen].
      - destruct (handleMessage_wire b0 ws msg) as (sent & Hw & Hall).
        destruct (handleMessage_keeps TipData b0 ws msg) as (_ & Ho & _).
        exists sent. repeat split; assumption.
      - exists []. rewrite app_nil_r. repeat split. constructor.
      - destruct (broadcastTip_spec TipData sid tipData now b0) as (Hw & _ & Ho & _).
        destruct (shouldBroadcast_spec TipData b0 sid now) as (Hrule & _).
        destruct (fst (shouldBroadcast sid now b0)).
        + assert (Z.of_nat (length (live b0 sid now)) < maxAlertsPerWindow (options b0))
            by (apply Hrule; reflexivity).
          lia.
        + exists []. repeat split; [exact Hw | constructor | exact Ho]. }
    destruct (IH (happen b0 h)) as (rest & Hw' & Hrest); [rewrite Ho; exact Hbudget|].
    exists (first ++ rest). rewrite Hw', Hw, <- app_assoc. split; [reflexivity|].
    apply Forall_app. split; assumption.
Qed.

End BudgetFacts.

Section HeartbeatFacts.
Variable Payload U TipData : Type.
Variable json : string -> TipData -> Payload.
Import WebSocketBroadcaster.

Local Abbreviation Client := (OverlayClient.State Payload U).
Local Abbreviation Server := (WebSocketBroadcaster.State TipData).

(** X23: the heartbeat exchange disturbs nothing.  A tick of the client's
    heartbeat on an open socket sends one message; the broadcaster answers
    it with one 'pong' on the same connection and changes neither its
    subscriptions nor its rate records; the client that is handed the
    'pong' emits nothing and stays as it was.  On a socket that is not
    open the tick sends nothing. *)
Theorem heartbeat_round_trip :
  forall (c : Client) (b : Server) (conn : nat),
    (OverlayClient.is_open c = false -> snd (OverlayClient.heartbeat c) = c)
    /\ (OverlayClient.ws c = Some OverlayClient.OPEN ->
        exists msg,
          OverlayClient.sent (snd (OverlayClient.heartbeat c)) = OverlayClient.sent c ++ [msg]
          /\ wire (handleMessage conn msg b) = wire b ++ [(conn, Pong)]
          /\ subscriptions (handleMessage conn msg b) = subscriptions b
          /\ alertCounts (handleMessage conn msg b) = alertCounts b
          /\ snd (OverlayClient.onmessage (Some (OverlayClient.parse json Pong))
                    (snd (OverlayClient.heartbeat c)))
             = snd (OverlayClient.heartbeat c)).
Proof.
  intros c b conn. unfold OverlayClient.heartbeat. split.
  - intros ->. reflexivity.
  - intros Hopen.
    assert (OverlayClient.is_open c = true) as ->
      by (unfold OverlayClient.is_open; rewrite Hopen; reflexivity).
    eexists. split; [reflexivity|].
    rewrite (handleMessage_switch TipData). cbn.
    repeat split.
Qed.

End HeartbeatFacts.

Section BudgetExamples.
Import WebSocketBroadcaster.

(** The studio with a budget of zero: connection 1 is subscribed to
    "alice" and a tip for "alice" is published; nothing is sent. *)
Lemma nonpositive_budget_silences_tips_witness :
  exists sent,
    wire (fold_left happen [Publishes "alice" "t1" 0; Arrives 1%nat (subscribe_msg "bob")]
            Samples.muted)
    = wire Samples.muted ++ sent
    /\ Forall (fun e => forall id (d : string), snd e ≠ Tip id d) sent.
Proof.
  apply (nonpositive_budget_silences_tips string
           {| user_pingInterval := None; user_maxAlertsPerWindow := Some 0;
              user_alertWindowMs := None |} 0 Samples.muted).
  - reflexivity.
  - lia.
  - reflexivity.
Defined.

(** A tick of the overlay of "alice" and the answer of the hall. *)
Lemma heartbeat_round_trip_witness :
  exists msg,
    OverlayClient.sent (snd (OverlayClient.heartbeat Samples.overlay)) = [msg]
    /\ wire (handleMessage 2%nat msg Samples.hall) = [(2%nat, Pong)]
    /\ subscriptions (handleMessage 2%nat msg Samples.hall) = subscriptions Samples.hall
    /\ alertCounts (handleMessage 2%nat msg Samples.hall) = alertCounts Samples.hall
    /\ snd (OverlayClient.onmessage (Some (OverlayClient.parse JSON.payload Pong))
              (snd (OverlayClient.heartbeat Samples.overlay)))
       = snd (OverlayClient.heartbeat Samples.overlay).
Proof.
  apply (heartbeat_round_trip JSON.Payload unit TipIndexer.TipData JSON.payload
           Samples.overlay Samples.hall 2%nat).
  reflexivity.
Defined.

End BudgetExamples.
